(** * Calm: route definition and request dispatch

    A shallow embedding of [calm/core.py] (CalmApp, HandlerDef) and
    [calm/handler.py] (MainHandler, DefaultHandler), and the properties of
    the path template compiler, the argument contract extractor, the route
    table and the request dispatcher that follow from the code.

    Python [str] is [string]; a [dict] is an association list kept in
    insertion order (iteration order is observable: the first missing
    query argument is the one reported, and routes are tried in order);
    exceptions are values of [exn] carried by [result]; the calls a request
    makes to [inspect], to the logger and to the user's handler are
    recorded as a trace of [event]s.  What MainHandler takes over from
    Tornado's RequestHandler ([get_query_argument], the methods for the
    verbs it does not define, the way an exception reaches
    [write_error]) and the way Python binds the arguments of a call are
    written out, since the answers to a request depend on them. *)

From Stdlib Require Import List String Ascii Bool ZArith NArith Lia.
From Stdlib Require Import Strings.Byte.
Import ListNotations.
Set Warnings "-register-all".
Local Open Scope list_scope.
Local Open Scope string_scope.

(** ** Python strings *)

Module Str.

(** [s.lstrip(c)] and [s.rstrip(c)] for a one-character argument. *)
Fixpoint lstrip (c : ascii) (s : string) : string :=
  match s with
  | EmptyString => EmptyString
  | String a s' => if Ascii.eqb a c then lstrip c s' else s
  end.

Fixpoint rstrip (c : ascii) (s : string) : string :=
  match s with
  | EmptyString => EmptyString
  | String a s' =>
      match rstrip c s' with
      | EmptyString => if Ascii.eqb a c then EmptyString else String a EmptyString
      | r => String a r
      end
  end.

(** [s.strip(c)] *)
Definition strip (c : ascii) (s : string) : string := rstrip c (lstrip c s).

(** [sep.join(l)] *)
Definition join (sep : string) (l : list string) : string := String.concat sep l.

(** [s.replace(old, new)] for a non-empty [old]: the occurrences of [old]
    are found left to right and do not overlap.  [skip] counts the
    characters of a replaced occurrence still to be dropped. *)
Fixpoint replace_from (old new : string) (skip : nat) (s : string) : string :=
  match s with
  | EmptyString => EmptyString
  | String c s' =>
      match skip with
      | S k => replace_from old new k s'
      | O =>
          if String.prefix old s
          then new ++ replace_from old new (String.length old - 1) s'
          else String c (replace_from old new 0 s')
      end
  end.

Definition replace (old new s : string) : string := replace_from old new 0 s.

End Str.

(** ** Path template compiler: [CalmApp._normalize_uri] *)

Definition slash : ascii := "/"%char.
Definition qmark : ascii := "?"%char.
Definition colon : ascii := ":"%char.

(** The characters of a capture name: [URI_REGEX] is a colon followed by
    a group of any number of characters other than slash, question mark
    and colon. *)
Definition name_char (c : ascii) : bool :=
  negb (Ascii.eqb c slash || Ascii.eqb c qmark || Ascii.eqb c colon).

(** [URI_REGEX.findall(uri)]: the names, in order of occurrence.  [cur] is
    the name being read, when the scan is past a colon. *)
Fixpoint findall_from (cur : option string) (s : string) : list string :=
  match s with
  | EmptyString => match cur with Some n => [n] | None => [] end
  | String c s' =>
      match cur with
      | Some n =>
          if name_char c then findall_from (Some (n ++ String c EmptyString)) s'
          else if Ascii.eqb c colon then n :: findall_from (Some EmptyString) s'
          else n :: findall_from None s'
      | None =>
          if Ascii.eqb c colon then findall_from (Some EmptyString) s'
          else findall_from None s'
      end
  end.

Definition URI_REGEX_findall (uri : string) : list string := findall_from None uri.

(** The replacement text of [_normalize_uri], formatted with the name: a
    named group of any number of characters other than slash and question
    mark. *)
Definition capture_group (path_param : string) : string :=
  "(?P<" ++ path_param ++ ">[^\/\?]*)".

(** The loop of [_normalize_uri]: one [str.replace] per name found. *)
Definition replace_params (path_params : list string) (uri : string) : string :=
  fold_left
    (fun uri path_param =>
       Str.replace (":" ++ path_param) (capture_group path_param) uri)
    path_params uri.

Definition _normalize_uri (uri_fragments : list string) : string :=
  let uri := Str.join "/" (map (Str.strip slash) uri_fragments) in
  let uri := "/" ++ uri ++ "/?" in
  let path_params := URI_REGEX_findall uri in
  replace_params path_params uri.

(** The rewriting the template syntax describes: one pass over the
    template in which each [:name] (the colon and the longest run of name
    characters after it) becomes the capture group of that name. *)
Fixpoint rewrite_from (cur : option string) (s : string) : string :=
  match s with
  | EmptyString => match cur with Some n => capture_group n | None => EmptyString end
  | String c s' =>
      match cur with
      | Some n =>
          if name_char c then rewrite_from (Some (n ++ String c EmptyString)) s'
          else if Ascii.eqb c colon then capture_group n ++ rewrite_from (Some EmptyString) s'
          else capture_group n ++ String c (rewrite_from None s')
      | None =>
          if Ascii.eqb c colon then rewrite_from (Some EmptyString) s'
          else String c (rewrite_from None s')
      end
  end.

Definition compile_template (uri_fragments : list string) : string :=
  rewrite_from None
    ("/" ++ Str.join "/" (map (Str.strip slash) uri_fragments) ++ "/?").

(** The template [_normalize_uri] works on. *)
Definition template (uri_fragments : list string) : string :=
  "/" ++ Str.join "/" (map (Str.strip slash) uri_fragments) ++ "/?".

(** A template read as a sequence of literal characters and placeholders
    [:name]; a group is a placeholder already rewritten. *)
Inductive segment : Type :=
| Lit (c : ascii)
| Placeholder (n : string)
| Group (n : string).

Fixpoint lex_from (cur : option string) (s : string) : list segment :=
  match s with
  | EmptyString => match cur with Some n => [Placeholder n] | None => [] end
  | String c s' =>
      match cur with
      | Some n =>
          if name_char c then lex_from (Some (n ++ String c EmptyString)) s'
          else if Ascii.eqb c colon then Placeholder n :: lex_from (Some EmptyString) s'
          else Placeholder n :: Lit c :: lex_from None s'
      | None =>
          if Ascii.eqb c colon then lex_from (Some EmptyString) s'
          else Lit c :: lex_from None s'
      end
  end.

Definition text_of (sg : segment) : string :=
  match sg with
  | Lit c => String c EmptyString
  | Placeholder n => ":" ++ n
  | Group n => capture_group n
  end.

Fixpoint text (segs : list segment) : string :=
  match segs with
  | [] => EmptyString
  | sg :: rest => text_of sg ++ text rest
  end.

Definition to_group (sg : segment) : segment :=
  match sg with
  | Placeholder n => Group n
  | _ => sg
  end.

(** The effect of one [str.replace] of the loop on a segment. *)
Definition replace_placeholder (n : string) (sg : segment) : segment :=
  match sg with
  | Placeholder m => if String.eqb m n then Group n else sg
  | _ => sg
  end.

Definition placeholder_names (segs : list segment) : list string :=
  flat_map (fun sg => match sg with Placeholder n => [n] | _ => [] end) segs.

Fixpoint colon_free (s : string) : bool :=
  match s with
  | EmptyString => true
  | String c s' => negb (Ascii.eqb c colon) && colon_free s'
  end.

Definition segment_ok (sg : segment) : bool :=
  match sg with
  | Lit c => negb (Ascii.eqb c colon)
  | Placeholder n | Group n => colon_free n
  end.

(** No name is a proper prefix of another. *)
Definition prefix_free (names : list string) : Prop :=
  forall n m, In n names -> In m names -> String.prefix n m = true -> n = m.

(** ** Python dictionaries *)

Definition dict (V : Type) : Type := list (string * V).

Section Dict.
Context {V : Type}.

(** [d.get(k)]; [None] also stands for the [KeyError] of [d[k]]. *)
Fixpoint dict_get (k : string) (d : dict V) : option V :=
  match d with
  | [] => None
  | (k', v) :: d' => if String.eqb k k' then Some v else dict_get k d'
  end.

(** [d[k] = v]: an existing key keeps its position, a new one goes last. *)
Fixpoint dict_set (k : string) (v : V) (d : dict V) : dict V :=
  match d with
  | [] => [(k, v)]
  | (k', v') :: d' =>
      if String.eqb k k' then (k, v) :: d' else (k', v') :: dict_set k v d'
  end.

(** [d.update(kwargs)], and [{**d, **kwargs}] on a copy. *)
Definition dict_update (d kwargs : dict V) : dict V :=
  fold_left (fun d kv => dict_set (fst kv) (snd kv) d) kwargs d.

Definition dict_keys (d : dict V) : list string := map fst d.

(** The dict built from a list of items, as [{k: v for k, v in items}]. *)
Definition dict_of_items (items : list (string * V)) : dict V :=
  dict_update [] items.
End Dict.

(** [x in l] for a list of strings. *)
Definition mem_string (x : string) (l : list string) : bool :=
  existsb (String.eqb x) l.

(** ** Values *)

(** The values handlers receive and return.  [VObject] is an instance of
    a class of the application: [type_name] is [type(v).__name__] and
    [json_method] is what its [__json__()] returns, when it has one. *)
Inductive pyvalue : Type :=
| VNone
| VBool (b : bool)
| VInt (z : Z)
| VStr (s : string)
| VBytes (bs : list byte)
| VList (l : list pyvalue)
| VTuple (l : list pyvalue)
| VDict (d : list (string * pyvalue))
| VObject (type_name : string) (json_method : option pyvalue).

(** A JSON document, as [json.dumps] writes it. *)
Inductive json : Type :=
| JNull
| JBool (b : bool)
| JInt (z : Z)
| JStr (s : string)
| JArr (l : list json)
| JObj (d : list (string * json)).

(** [type(v).__name__] *)
Definition type_name_of (v : pyvalue) : string :=
  match v with
  | VNone => "NoneType"
  | VBool _ => "bool"
  | VInt _ => "int"
  | VStr _ => "str"
  | VBytes _ => "bytes"
  | VList _ => "list"
  | VTuple _ => "tuple"
  | VDict _ => "dict"
  | VObject n _ => n
  end.

(** [json.dumps(v)]: [None] is the [TypeError] raised for an object that
    the encoder does not know, at any depth. *)
Fixpoint json_dumps (v : pyvalue) : option json :=
  match v with
  | VNone => Some JNull
  | VBool b => Some (JBool b)
  | VInt z => Some (JInt z)
  | VStr s => Some (JStr s)
  | VList l =>
      option_map JArr
        ((fix items (l : list pyvalue) : option (list json) :=
            match l with
            | [] => Some []
            | x :: r =>
                match json_dumps x, items r with
                | Some j, Some js => Some (j :: js)
                | _, _ => None
                end
            end) l)
  | VTuple l =>
      option_map JArr
        ((fix items (l : list pyvalue) : option (list json) :=
            match l with
            | [] => Some []
            | x :: r =>
                match json_dumps x, items r with
                | Some j, Some js => Some (j :: js)
                | _, _ => None
                end
            end) l)
  | VDict d =>
      option_map JObj
        ((fix items (d : list (string * pyvalue)) : option (list (string * json)) :=
            match d with
            | [] => Some []
            | (k, x) :: r =>
                match json_dumps x, items r with
                | Some j, Some js => Some ((k, j) :: js)
                | _, _ => None
                end
            end) d)
  | VBytes _ => None
  | VObject _ _ => None
  end.

(** The truth value of [v], as [if v:] tests it. *)
Definition truthy (v : pyvalue) : bool :=
  match v with
  | VNone => false
  | VBool b => b
  | VInt z => negb (Z.eqb z 0)
  | VStr s => negb (String.eqb s "")
  | VBytes bs => match bs with [] => false | _ => true end
  | VList l => match l with [] => false | _ => true end
  | VTuple l => match l with [] => false | _ => true end
  | VDict d => match d with [] => false | _ => true end
  | VObject _ _ => true
  end.

(** [bs.decode('utf-8')]: the text of a well-formed UTF-8 byte string is
    the string of the same bytes; [None] is [UnicodeDecodeError].  The
    decoder is strict: no overlong encoding, no surrogate, nothing above
    U+10FFFF. *)
Definition in_range (lo hi b : N) : bool := (N.leb lo b && N.leb b hi)%bool.
Definition is_cont (b : N) : bool := in_range 128 191 b.

Fixpoint utf8_valid (bs : list N) : bool :=
  match bs with
  | [] => true
  | b0 :: r0 =>
      if N.leb b0 127 then utf8_valid r0 else
      match r0 with
      | [] => false
      | b1 :: r1 =>
          if in_range 194 223 b0 then is_cont b1 && utf8_valid r1 else
          match r1 with
          | [] => false
          | b2 :: r2 =>
              if in_range 224 239 b0 then
                (if N.eqb b0 224 then in_range 160 191 b1
                 else if N.eqb b0 237 then in_range 128 159 b1
                 else is_cont b1)
                && is_cont b2 && utf8_valid r2
              else
              match r2 with
              | [] => false
              | b3 :: r3 =>
                  in_range 240 244 b0
                  && (if N.eqb b0 240 then in_range 144 191 b1
                      else if N.eqb b0 244 then in_range 128 143 b1
                      else is_cont b1)
                  && is_cont b2 && is_cont b3 && utf8_valid r3
              end
          end
      end
  end%bool.

Definition decode_utf8 (bs : list byte) : option string :=
  if utf8_valid (map Byte.to_N bs) then Some (string_of_list_byte bs) else None.

(** The annotation of a parameter: one of the classes [str], [int],
    [float], [bool], another class, the one-item list of an annotation
    (as in [tags: [int]]), or any other value written after the colon
    ([None], a string, an empty list). *)
Inductive ann : Type :=
| TStr
| TInt
| TFloat
| TBool
| TList (item : ann)
| TClass (name : string)
| TValue (v : pyvalue).

(** The truth value of an annotation, as [if not arg_type:] tests it: a
    class and a non-empty list are true, a plain value has the truth
    value it has anywhere. *)
Definition ann_truthy (t : ann) : bool :=
  match t with
  | TValue v => truthy v
  | _ => true
  end.

(** ** Exceptions *)

(** Modelled from the spec: [calm/ex.py] is not part of the sources.  The
    client errors carry an HTTP status and a message (400 for
    [BadRequestError], 405 for [MethodNotAllowedError], 404 for
    [NotFoundError], its own code for another [ClientError]);
    [ServerError] and [DefinitionError] are not client errors.  The other
    constructors are the Python and Tornado exceptions the two modules
    meet: [HTTPError] is [tornado.web.HTTPError] with its status code,
    and [MissingArgumentError], which Tornado derives from it, is raised
    for an argument the request does not have.  Neither is a
    [ClientError] of Calm. *)
Inductive exn : Type :=
| BadRequestError (message : string)
| MethodNotAllowedError
| NotFoundError
| ClientError (code : Z) (message : string)
| ServerError (message : string)
| DefinitionError (message : string)
| HTTPError (code : Z)
| MissingArgumentError (arg_name : string)
| UnicodeDecodeError
| TypeError (message : string)
| KeyError (key : string)
| Exception (type_name : string) (message : string).

(** [issubclass(exc_type, ClientError)] *)
Definition is_client_error (e : exn) : bool :=
  match e with
  | BadRequestError _ | MethodNotAllowedError | NotFoundError | ClientError _ _ => true
  | _ => false
  end.

(** [exc.code] of a client error. *)
Definition exn_code (e : exn) : Z :=
  match e with
  | BadRequestError _ => 400
  | MethodNotAllowedError => 405
  | NotFoundError => 404
  | ClientError c _ => c
  | _ => 500
  end.

Inductive result (A : Type) : Type :=
| Ok (a : A)
| Raise (e : exn).
Arguments Ok {A} a.
Arguments Raise {A} e.

(** ** Traces *)

(** What a run does besides returning: the calls to [inspect], to the
    logger and to the handler of the application. *)
Inductive event : Type :=
| EvSignature (handler : string)
| EvIsCoroutineFunction (handler : string)
| EvWarning (handler : string)
| EvCall (handler : string) (awaited : bool) (kwargs : dict pyvalue).

Definition is_call (ev : event) : bool :=
  match ev with EvCall _ _ _ => true | _ => false end.

Definition is_inspect_coroutine (ev : event) : bool :=
  match ev with EvIsCoroutineFunction _ => true | _ => false end.

(** A computation that may raise, with the trace of what it did. *)
Definition M (A : Type) : Type := list event * result A.

Definition ret {A} (a : A) : M A := ([], Ok a).
Definition raise {A} (e : exn) : M A := ([], Raise e).
Definition emit (ev : event) : M unit := ([ev], Ok tt).
Definition lift {A} (r : result A) : M A := ([], r).

Definition bind {A B} (m : M A) (f : A -> M B) : M B :=
  match m with
  | (t, Ok a) => let (t', r) := f a in ((t ++ t')%list, r)
  | (t, Raise e) => (t, Raise e)
  end.

Declare Scope calm_scope.
Notation "x <- m ;; k" := (bind m (fun x => k))
  (at level 61, m at next level, right associativity) : calm_scope.
Notation "m ;;; k" := (bind m (fun _ => k))
  (at level 61, right associativity) : calm_scope.
Local Open Scope calm_scope.

Definition trace_of {A} (m : M A) : list event := fst m.
Definition outcome_of {A} (m : M A) : result A := snd m.

(** ** Requests and handler functions *)

(** The [http_method] argument of [_decorator] and [_add_route]: the
    four strings the decorators [get], [post], [put] and [delete] pass,
    which are the verbs a route is registered for and the verbs
    MainHandler has a method for. *)
Inductive http_method : Type := GET | POST | PUT | DELETE.

(** The string itself, which is also how a request names the verb. *)
Definition verb_name (m : http_method) : string :=
  match m with
  | GET => "GET"
  | POST => "POST"
  | PUT => "PUT"
  | DELETE => "DELETE"
  end.

(** [http_method.lower()], the key of a verb in the route map. *)
Definition lower (m : http_method) : string :=
  match m with
  | GET => "get"
  | POST => "post"
  | PUT => "put"
  | DELETE => "delete"
  end.

(** The request as Tornado hands it over.  [method] is the verb as the
    client sent it, any string: [HEAD], [PATCH] and [OPTIONS] reach a
    handler like the four verbs above.  [query_arguments] is Tornado's
    dict of that name: for each name of the query string the values given
    for it, in order, as percent-decoded byte strings.  [body] holds the
    raw bytes until [_parse_and_update_body] replaces them. *)
Record Request : Type := {
  method : string;
  path : string;
  query_arguments : dict (list (list byte));
  body : pyvalue
}.

(** The kinds of parameter of [inspect.Parameter.kind]: before a [/],
    ordinary, [*args], after a [*], and [**kwargs]. *)
Inductive ParameterKind : Type :=
| POSITIONAL_ONLY
| POSITIONAL_OR_KEYWORD
| VAR_POSITIONAL
| KEYWORD_ONLY
| VAR_KEYWORD.

(** [inspect.Parameter] ([Parameter] is reserved): [default = None] is
    [Parameter.empty]. *)
Record Param : Type := {
  name : string;
  kind : ParameterKind;
  default : option pyvalue;
  annotation : option ann
}.

(** A handler function of the application: its signature, whether it was
    declared with [async def], the [consumes] and [produces] attributes a
    decorator may have set on it, and its body as a function of the
    request and of the bound arguments. *)
Record function : Type := {
  __name__ : string;
  parameters : list Param;
  iscoroutinefunction : bool;
  attr_consumes : option (option string);
  attr_produces : option (option string);
  code : Request -> dict pyvalue -> result pyvalue
}.

(** [handler.__annotations__], for the parameters.  The entry [return]
    of a declared return type is left out: no argument has that name, so
    [_cast_args] never looks it up. *)
Definition __annotations__ (f : function) : dict ann :=
  fold_left
    (fun d p =>
       match annotation p with Some t => dict_set (name p) t d | None => d end)
    (parameters f) [].

(** [getattr(function, attr, default)] *)
Definition getattr_or {A} (attr : option A) (default : A) : A :=
  match attr with Some a => a | None => default end.

(** A parameter of the kind takes a positional argument; a parameter of
    the kind takes a keyword argument of its name. *)
Definition by_position (k : ParameterKind) : bool :=
  match k with
  | POSITIONAL_ONLY | POSITIONAL_OR_KEYWORD | VAR_POSITIONAL => true
  | KEYWORD_ONLY | VAR_KEYWORD => false
  end.

Definition by_keyword (k : ParameterKind) : bool :=
  match k with
  | POSITIONAL_OR_KEYWORD | KEYWORD_ONLY => true
  | POSITIONAL_ONLY | VAR_POSITIONAL | VAR_KEYWORD => false
  end.

Definition is_var_keyword (p : Param) : bool :=
  match kind p with VAR_KEYWORD => true | _ => false end.

(** Binding of keyword arguments to the parameters that follow the first
    one.  A parameter that takes keywords gets the value passed under its
    name, else its default; a positional-only parameter, which no keyword
    reaches, gets its default; [*args] is the empty tuple, no positional
    argument being left for it; [**kwargs] is the dict of the keywords
    [extra] that no parameter took.  A parameter left without a value
    gives no binding. *)
Fixpoint bind_arguments (ps : list Param) (kwargs extra : dict pyvalue)
  : option (dict pyvalue) :=
  match ps with
  | [] => Some []
  | p :: ps' =>
      match
        match kind p with
        | POSITIONAL_OR_KEYWORD | KEYWORD_ONLY =>
            match dict_get (name p) kwargs with
            | Some v => Some v
            | None => default p
            end
        | POSITIONAL_ONLY => default p
        | VAR_POSITIONAL => Some (VTuple [])
        | VAR_KEYWORD => Some (VDict extra)
        end,
        bind_arguments ps' kwargs extra
      with
      | Some v, Some bound => Some ((name p, v) :: bound)
      | _, _ => None
      end
  end.

(** [handler(self.request, **kwargs)], one positional argument and
    keywords.  The request goes to the first parameter, which has to
    take a positional argument.  A keyword has to name a later parameter
    that takes keywords; one that does not (it names no parameter, a
    positional-only one, [*args], or the first parameter, which has its
    value) goes to [**kwargs] when the function has it and is a
    [TypeError] when not, and a keyword for a first parameter that takes
    keywords is a [TypeError] in any case.  A parameter left without a
    value is a [TypeError].  The body then runs on the request and the
    bindings of the parameters after the first. *)
Definition call (f : function) (request : Request) (kwargs : dict pyvalue)
  : result pyvalue :=
  match parameters f with
  | [] => Raise (TypeError (__name__ f))
  | first :: ps =>
      let keywords := map name (filter (fun p => by_keyword (kind p)) ps) in
      let extra :=
        filter (fun kv => negb (mem_string (fst kv) keywords)) kwargs in
      if negb (by_position (kind first)) then Raise (TypeError (__name__ f))
      else if by_keyword (kind first) && mem_string (name first) (dict_keys kwargs)
      then Raise (TypeError (__name__ f))
      else if match extra with [] => false | _ => true end
              && negb (existsb is_var_keyword ps)
      then Raise (TypeError (__name__ f))
      else match bind_arguments ps kwargs extra with
           | Some bound => code f request bound
           | None => Raise (TypeError (__name__ f))
           end
  end.

(** ** What the two modules take from outside

    [re_groupindex p] is [list(re.compile(p).groupindex.keys())], [None]
    when [re] rejects the pattern; [url_match p path] is the match of a
    route pattern against a request path by Tornado's router, with the
    named groups it passes to the verb method as keyword arguments;
    [json_loads] is [json.loads], [None] for [JSONDecodeError];
    [class_message e] is [str(e)] for a client error raised without a
    message; [coerce] is the conversion table of the built-in argument
    parser of [calm/codec.py]. *)
Class Env : Type := {
  re_groupindex : string -> option (list string);
  url_match : string -> string -> option (dict string);
  json_loads : string -> option pyvalue;
  class_message : exn -> string;
  coerce : ann -> string -> option pyvalue
}.

(** The argument parser a MainHandler holds: [parse(arg_type, value)]. *)
Definition parser : Type := ann -> string -> result pyvalue.

(** Modelled from the spec: [calm/codec.py] is not part of the sources.
    [ArgumentParser.parse] coerces a raw string to the declared type and
    fails with a client-classified error when the raw value cannot be
    parsed into that type.  [coerce] is the table of conversions, [None]
    where the value does not parse. *)
Definition ArgumentParser (coerce : ann -> string -> option pyvalue) : parser :=
  fun arg_type value =>
    match coerce arg_type value with
    | Some v => Ok v
    | None => Raise (BadRequestError ("Bad value '" ++ value ++ "'"))
    end.

(** ** [calm/core.py]: HandlerDef *)

Record HandlerDef : Type := {
  uri : string;
  handler : function;
  _params : dict Param;
  path_args : list string;
  query_args : dict bool;
  consumes : option string;
  produces : option string
}.

(** The assignments [handler_def.consumes = ...] and
    [handler_def.produces = ...]. *)
Definition set_resources (hd : HandlerDef) (c p : option string) : HandlerDef :=
  {| uri := uri hd;
     handler := handler hd;
     _params := _params hd;
     path_args := path_args hd;
     query_args := query_args hd;
     consumes := c;
     produces := p |}.

Section Core.
Context {env : Env}.

(** The loop of [_extract_path_args] over the capture names. *)
Fixpoint check_path_args (handler_name : string) (params : dict Param)
         (names : list string) : result unit :=
  match names with
  | [] => Ok tt
  | path_arg :: rest =>
      match dict_get path_arg params with
      | Some p =>
          match default p with
          | Some _ =>
              Raise (DefinitionError
                       ("Path argument '" ++ path_arg
                        ++ "' must not be optional in '" ++ handler_name ++ "'"))
          | None => check_path_args handler_name params rest
          end
      | None =>
          Raise (DefinitionError
                   ("Path argument '" ++ path_arg
                    ++ "' must be expected by '" ++ handler_name ++ "'"))
      end
  end.

(** [_extract_path_args]: the capture names of the compiled pattern, each
    checked against the parameters. *)
Definition _extract_path_args (uri : string) (handler : function)
           (params : dict Param) : result (list string) :=
  match re_groupindex uri with
  | None => Raise (Exception "error" uri)
  | Some names =>
      match check_path_args (__name__ handler) params names with
      | Ok _ => Ok names
      | Raise e => Raise e
      end
  end.

(** [default is Parameter.empty] *)
Definition is_empty (default : option pyvalue) : bool :=
  match default with None => true | Some _ => false end.

(** [_extract_query_arguments]: every parameter that is not a path
    argument, with whether it is required. *)
Definition _extract_query_arguments (params : dict Param)
           (path_args : list string) : dict bool :=
  fold_left
    (fun query_args kv =>
       let param := snd kv in
       if mem_string (name param) path_args then query_args
       else dict_set (name param) (is_empty (default param)) query_args)
    params [].

(** [self._params]: the parameters of the signature after the first, by
    name. *)
Definition params_of (handler : function) : dict Param :=
  dict_of_items (map (fun p => (name p, p)) (tl (parameters handler))).

(** [HandlerDef.__init__] *)
Definition HandlerDef__init__ (uri : string) (handler : function) : M HandlerDef :=
  emit (EvSignature (__name__ handler)) ;;;
  let params := params_of handler in
  path_args <- lift (_extract_path_args uri handler params) ;;
  ret {| uri := uri;
         handler := handler;
         _params := params;
         path_args := path_args;
         query_args := _extract_query_arguments params path_args;
         consumes := None;
         produces := None |}.

(** ** [calm/core.py]: CalmApp *)

(** The attributes [__init__] gives an instance.  [config] is not among
    them: it is an attribute of the class. *)
Record CalmApp : Type := {
  _route_map : dict (dict HandlerDef);
  _custom_handlers : list (string * string);
  _ws_map : dict string
}.

Definition CalmApp__init__ : CalmApp :=
  {| _route_map := []; _custom_handlers := []; _ws_map := [] |}.

(** [_add_route].  The assignment [function.handler_def = handler_def],
    read by the documentation generator only, is left out. *)
Definition _add_route (http_method : http_method) (function : function)
           (uri_fragments : list string) (consumes produces : option string)
           (self : CalmApp) : M CalmApp :=
  let uri := _normalize_uri uri_fragments in
  handler_def <- HandlerDef__init__ uri function ;;
  let consumes := getattr_or (attr_consumes function) consumes in
  let produces := getattr_or (attr_produces function) produces in
  let handler_def := set_resources handler_def consumes produces in
  let methods :=
    match dict_get uri (_route_map self) with Some d => d | None => [] end in
  ret {| _route_map :=
           dict_set uri (dict_set (lower http_method) handler_def methods)
             (_route_map self);
         _custom_handlers := _custom_handlers self;
         _ws_map := _ws_map self |}.

(** The decorators [get], [post], [put], [delete], applied to a
    function. *)
Definition _decorator (http_method : http_method) (uri : list string)
           (consumes produces : option string) (function : function)
           (self : CalmApp) : M CalmApp :=
  _add_route http_method function uri consumes produces self.

(** *** The configuration, an attribute of the class *)

Inductive config_value : Type :=
| CfgStr (s : string)
| CfgParser (p : parser).

(** The default configuration, the dict literal in the class body. *)
Definition default_config : dict config_value :=
  [("argument_parser", CfgParser (ArgumentParser coerce));
   ("plain_result_key", CfgStr "result");
   ("error_key", CfgStr "error")].

(** The objects of a program: the one dict bound to [CalmApp.config] and
    the instances created so far, referred to by their index. *)
Record World : Type := {
  CalmApp_config : dict config_value;
  instances : list CalmApp
}.

Definition initial_world : World :=
  {| CalmApp_config := default_config; instances := [] |}.

(** [CalmApp()] *)
Definition new_CalmApp (w : World) : nat * World :=
  (List.length (instances w),
   {| CalmApp_config := CalmApp_config w;
      instances := (instances w ++ [CalmApp__init__])%list |}).

(** [self.config]: [self] has no attribute of that name of its own, so
    the lookup ends at the class, whatever instance [self] is. *)
Definition self_config (self : nat) (w : World) : dict config_value :=
  CalmApp_config w.

(** [configure]: [self.config.update(kwargs)], in place. *)
Definition configure (self : nat) (kwargs : dict config_value) (w : World)
  : World :=
  {| CalmApp_config := dict_update (self_config self w) kwargs;
     instances := instances w |}.

(** *** [make_app] *)

(** The keyword arguments a MainHandler is created with: the handler
    definitions by verb, and the two default handler arguments. *)
Record handler_args : Type := {
  arg_methods : dict HandlerDef;
  arg_argument_parser : config_value;
  arg_app : nat
}.

Inductive route_def : Type :=
| RouteMain (uri : string) (init_params : handler_args)
| RouteCustom (uri : string) (klass : string)
| RouteWebSocket (uri : string) (klass : string).

Definition route_uri (r : route_def) : string :=
  match r with
  | RouteMain u _ | RouteCustom u _ | RouteWebSocket u _ => u
  end.

Record Application : Type := {
  route_defs : list route_def;
  default_handler_args : handler_args
}.

Definition make_app (self : nat) (w : World) : option Application :=
  match nth_error (instances w) self with
  | None => None
  | Some app =>
      let argument_parser :=
        match dict_get "argument_parser" (self_config self w) with
        | Some p => p
        | None => CfgParser (ArgumentParser coerce)
        end in
      let default_handler_args :=
        {| arg_methods := [];
           arg_argument_parser := argument_parser;
           arg_app := self |} in
      Some
        {| route_defs :=
             (map (fun um =>
                     RouteMain (fst um)
                       {| arg_methods := snd um;
                          arg_argument_parser := argument_parser;
                          arg_app := self |})
                  (_route_map app)
              ++ map (fun uk => RouteCustom (fst uk) (snd uk)) (_custom_handlers app)
              ++ map (fun uk => RouteWebSocket (fst uk) (snd uk)) (_ws_map app))%list;
           default_handler_args := default_handler_args |}
  end.

End Core.

(** ** [calm/handler.py]: MainHandler and DefaultHandler *)

Inductive handler_class : Type := MainHandlerClass | DefaultHandlerClass.

(** A dispatcher instance, as [MainHandler.__init__] leaves it. *)
Record MainHandler : Type := {
  klass : handler_class;
  _get_handler : option HandlerDef;
  _post_handler : option HandlerDef;
  _put_handler : option HandlerDef;
  _delete_handler : option HandlerDef;
  _argument_parser : parser;
  _app : nat
}.

(** The response Tornado sends: the status set and the document written. *)
Record Response : Type := {
  status_code : Z;
  written : json
}.

(** What becomes of a request: answered by a dispatcher instance, with the
    trace of the run, or handed to a handler class of the application's
    own ([add_handler], [custom_handler], [websocket]). *)
Inductive served : Type :=
| Dispatched (trace : list event) (response : result Response)
| Delegated (klass : string).

Definition server_error_message : string :=
  "Oops our bad. We are working to fix this!".

(** *** What MainHandler inherits from Tornado's RequestHandler

    [get_query_argument] decodes every value given for the name as UTF-8
    ([decode_argument], which raises [HTTPError(400)] for a value that is
    not UTF-8), replaces control characters by a space, strips white
    space and returns the last value; without any value it raises
    [MissingArgumentError]. *)

(** The substitution of [_remove_control_chars_regex]: the characters
    [00] to [08] and [0e] to [1f] become a space. *)
Definition is_control_char (c : ascii) : bool :=
  let n := nat_of_ascii c in
  (Nat.leb n 8 || (Nat.leb 14 n && Nat.leb n 31))%bool.

Fixpoint remove_control_chars (s : string) : string :=
  match s with
  | EmptyString => EmptyString
  | String c s' =>
      String (if is_control_char c then " "%char else c) (remove_control_chars s')
  end.

(** The characters [str.strip()] removes, in UTF-8: the ASCII white
    space, U+0085, U+00A0, U+1680, U+2000 to U+200A, U+2028, U+2029,
    U+202F, U+205F and U+3000. *)
Definition whitespace : list string :=
  map string_of_list_byte
    [ [x09]; [x0a]; [x0b]; [x0c]; [x0d]; [x1c]; [x1d]; [x1e]; [x1f]; [x20];
      [xc2; x85]; [xc2; xa0]; [xe1; x9a; x80];
      [xe2; x80; x80]; [xe2; x80; x81]; [xe2; x80; x82]; [xe2; x80; x83];
      [xe2; x80; x84]; [xe2; x80; x85]; [xe2; x80; x86]; [xe2; x80; x87];
      [xe2; x80; x88]; [xe2; x80; x89]; [xe2; x80; x8a];
      [xe2; x80; xa8]; [xe2; x80; xa9]; [xe2; x80; xaf];
      [xe2; x81; x9f]; [xe3; x80; x80] ].

(** The string without the white space [spaces] it begins with.  [skip]
    counts the bytes of a white-space character still to be dropped. *)
Fixpoint lstrip_spaces (spaces : list string) (skip : nat) (s : string) : string :=
  match s with
  | EmptyString => EmptyString
  | String _ s' =>
      match skip with
      | S k => lstrip_spaces spaces k s'
      | O =>
          match find (fun w => String.prefix w s) spaces with
          | Some w => lstrip_spaces spaces (String.length w - 1) s'
          | None => s
          end
      end
  end.

Definition reversed (s : string) : string :=
  string_of_list_ascii (rev (list_ascii_of_string s)).

(** [s.strip()] *)
Definition strip_whitespace (s : string) : string :=
  reversed
    (lstrip_spaces (map reversed whitespace) 0
       (reversed (lstrip_spaces whitespace 0 s))).

(** [decode_argument] *)
Definition decode_argument (value : list byte) : result string :=
  match decode_utf8 value with
  | Some s => Ok s
  | None => Raise (HTTPError 400)
  end.

(** [_get_arguments], on the values the request has for a name. *)
Fixpoint _get_arguments (values : list (list byte)) : result (list string) :=
  match values with
  | [] => Ok []
  | v :: rest =>
      match decode_argument v with
      | Ok s =>
          match _get_arguments rest with
          | Ok l => Ok (strip_whitespace (remove_control_chars s) :: l)
          | Raise e => Raise e
          end
      | Raise e => Raise e
      end
  end.

(** [self.request.query_arguments.get(qarg, [])] *)
Definition query_values (request : Request) (qarg : string) : list (list byte) :=
  match dict_get qarg (query_arguments request) with
  | Some values => values
  | None => []
  end.

(** [self.get_query_argument(qarg)] *)
Definition get_query_argument (request : Request) (qarg : string) : result string :=
  match _get_arguments (query_values request qarg) with
  | Ok args =>
      match rev args with
      | last :: _ => Ok last
      | [] => Raise (MissingArgumentError qarg)
      end
  | Raise e => Raise e
  end.

Section Handler.
Context {env : Env}.

(** [MainHandler.__init__]: the four handler definitions are popped from
    the keyword arguments and the argument parser class is instantiated. *)
Definition MainHandler__init__ (k : handler_class) (kwargs : handler_args)
  : result MainHandler :=
  match arg_argument_parser kwargs with
  | CfgParser p =>
      Ok {| klass := k;
            _get_handler := dict_get "get" (arg_methods kwargs);
            _post_handler := dict_get "post" (arg_methods kwargs);
            _put_handler := dict_get "put" (arg_methods kwargs);
            _delete_handler := dict_get "delete" (arg_methods kwargs);
            _argument_parser := p;
            _app := arg_app kwargs |}
  | CfgStr _ => Raise (TypeError "'str' object is not callable")
  end.

(** The loop of [_get_query_args] over [handler_def.query_args.items()]:
    only a [MissingArgumentError] is caught. *)
Fixpoint get_query_args_loop (request : Request) (items : list (string * bool))
         (query_args : dict string) : result (dict string) :=
  match items with
  | [] => Ok query_args
  | (qarg, is_required) :: rest =>
      match get_query_argument request qarg with
      | Ok v => get_query_args_loop request rest (dict_set qarg v query_args)
      | Raise (MissingArgumentError _) =>
          if negb is_required then get_query_args_loop request rest query_args
          else Raise (BadRequestError
                        ("Missing required query argument '" ++ qarg ++ "'"))
      | Raise e => Raise e
      end
  end.

Definition _get_query_args (request : Request) (handler_def : HandlerDef)
  : result (dict string) :=
  get_query_args_loop request (query_args handler_def) [].

(** One turn of the loop of [_cast_args], for an argument whose
    annotation is [arg_types.get(arg)]: [if not arg_type: continue]
    leaves the raw string when there is no annotation and when the
    annotation is false, and the parser is called otherwise. *)
Definition cast_arg (parse : parser) (arg_type : option ann) (raw : string)
  : result pyvalue :=
  match arg_type with
  | Some t => if negb (ann_truthy t) then Ok (VStr raw) else parse t raw
  | None => Ok (VStr raw)
  end.

(** [_cast_args]: the arguments, raw strings on entry, are replaced in
    place, in the order of the dict. *)
Fixpoint cast_args_loop (parse : parser) (arg_types : dict ann)
         (args : dict string) : result (dict pyvalue) :=
  match args with
  | [] => Ok []
  | (arg, raw) :: rest =>
      match cast_arg parse (dict_get arg arg_types) raw with
      | Ok v =>
          match cast_args_loop parse arg_types rest with
          | Ok rest' => Ok ((arg, v) :: rest')
          | Raise e => Raise e
          end
      | Raise e => Raise e
      end
  end.

Definition _cast_args (self : MainHandler) (handler : function)
           (args : dict string) : result (dict pyvalue) :=
  cast_args_loop (_argument_parser self) (__annotations__ handler) args.

(** [_parse_and_update_body] *)
Definition _parse_and_update_body (request : Request) : result Request :=
  if truthy (body request) then
    match body request with
    | VBytes bs =>
        match decode_utf8 bs with
        | None => Raise UnicodeDecodeError
        | Some text =>
            match json_loads text with
            | Some json_body =>
                Ok {| method := method request;
                      path := path request;
                      query_arguments := query_arguments request;
                      body := json_body |}
            | None =>
                Raise (BadRequestError "Malformed request body. JSON is expected.")
            end
        end
    | _ => Raise (Exception "AttributeError" "decode")
    end
  else Ok request.

(** The value [_write_response] serializes: [response.__json__()] when
    the response has the method, the response itself otherwise. *)
Definition json_result (response : pyvalue) : pyvalue :=
  match response with
  | VObject _ (Some j) => j
  | _ => response
  end.

(** [_write_response]: the document handed to [self.write]. *)
Definition _write_response (response : pyvalue) : result json :=
  let result := json_result response in
  match json_dumps result with
  | Some json_str => Ok json_str
  | None =>
      Raise (ServerError
               ("Could not serialize '" ++ type_name_of response ++ "' to JSON"))
  end.

(** [_handle_request], of MainHandler and as DefaultHandler overrides
    it. *)
Definition _handle_request (self : MainHandler) (request : Request)
           (handler_def : option HandlerDef) (kwargs : dict string) : M json :=
  match klass self with
  | DefaultHandlerClass => raise NotFoundError
  | MainHandlerClass =>
      match handler_def with
      | None => raise MethodNotAllowedError
      | Some handler_def =>
          let handler := handler handler_def in
          query_args <- lift (_get_query_args request handler_def) ;;
          let kwargs := dict_update kwargs query_args in
          kwargs <- lift (_cast_args self handler kwargs) ;;
          request <- lift (_parse_and_update_body request) ;;
          emit (EvIsCoroutineFunction (__name__ handler)) ;;;
          resp <-
            (if iscoroutinefunction handler then
               emit (EvCall (__name__ handler) true kwargs) ;;;
               lift (call handler request kwargs)
             else
               emit (EvWarning (__name__ handler)) ;;;
               emit (EvCall (__name__ handler) false kwargs) ;;;
               lift (call handler request kwargs)) ;;
          lift (_write_response resp)
      end
  end.

(** The handler definition each of the verb methods [get], [post],
    [put], [delete] passes to [_handle_request]. *)
Definition verb_handler (self : MainHandler) (m : http_method) : option HandlerDef :=
  match m with
  | GET => _get_handler self
  | POST => _post_handler self
  | PUT => _put_handler self
  | DELETE => _delete_handler self
  end.

(** The verb the string names, when it is one MainHandler has a method
    for. *)
Definition verb_of (s : string) : option http_method :=
  if String.eqb s "GET" then Some GET
  else if String.eqb s "POST" then Some POST
  else if String.eqb s "PUT" then Some PUT
  else if String.eqb s "DELETE" then Some DELETE
  else None.

(** The method Tornado's [_execute] calls for the request, with the
    named groups of the match as keyword arguments: [get], [post], [put]
    or [delete] of MainHandler; for [HEAD], [PATCH] and [OPTIONS] the
    method MainHandler inherits, [_unimplemented_method], which raises
    [HTTPError(405)], as [_execute] itself does for a verb that is not
    among its supported methods. *)
Definition verb (self : MainHandler) (request : Request) (kwargs : dict string)
  : M json :=
  match verb_of (method request) with
  | Some m => _handle_request self request (verb_handler self m) kwargs
  | None => raise (HTTPError 405)
  end.

(** [self._app.config['error_key']], as a key of a JSON object. *)
Definition error_key (config : dict config_value) : result string :=
  match dict_get "error_key" config with
  | Some (CfgStr k) => Ok k
  | Some (CfgParser _) => Raise (TypeError "keys must be str")
  | None => Raise (KeyError "error_key")
  end.

(** [exc.message or str(exc)] *)
Definition exn_message (e : exn) : string :=
  match e with
  | BadRequestError m | ClientError _ m =>
      if String.eqb m "" then class_message e else m
  | _ => class_message e
  end.

Definition _write_client_error (config : dict config_value) (exc : exn)
  : result Response :=
  match error_key config with
  | Ok k =>
      Ok {| status_code := exn_code exc;
            written := JObj [(k, JStr (exn_message exc))] |}
  | Raise e => Raise e
  end.

Definition _write_server_error (config : dict config_value) : result Response :=
  match error_key config with
  | Ok k =>
      Ok {| status_code := 500;
            written := JObj [(k, JStr server_error_message)] |}
  | Raise e => Raise e
  end.

Definition write_error (config : dict config_value) (exc_info : option exn)
  : result Response :=
  match exc_info with
  | Some exc_inst =>
      if is_client_error exc_inst then _write_client_error config exc_inst
      else _write_server_error config
  | None => _write_server_error config
  end.

(** What Tornado does with a verb method: the document written goes out
    with status 200, and an exception that escapes goes to [write_error]
    with its [exc_info].  The configuration is the one [self._app.config]
    names when the error is written. *)
Definition respond (w : World) (self : MainHandler) (run : M json)
  : list event * result Response :=
  (trace_of run,
   match outcome_of run with
   | Ok j => Ok {| status_code := 200; written := j |}
   | Raise e => write_error (self_config (_app self) w) (Some e)
   end).

Definition execute (w : World) (self : MainHandler) (request : Request)
           (kwargs : dict string) : list event * result Response :=
  respond w self (verb self request kwargs).

(** Tornado's routing: the first route whose pattern matches the path. *)
Fixpoint find_route (routes : list route_def) (path : string)
  : option (route_def * dict string) :=
  match routes with
  | [] => None
  | r :: rest =>
      match url_match (route_uri r) path with
      | Some kwargs => Some (r, kwargs)
      | None => find_route rest path
      end
  end.

Definition serve (k : handler_class) (args : handler_args) (w : World)
           (request : Request) (kwargs : dict string) : served :=
  match MainHandler__init__ k args with
  | Ok self => let (t, r) := execute w self request kwargs in Dispatched t r
  | Raise e => Dispatched [] (Raise e)
  end.

(** A request to the application [make_app] built: a matching route of
    the route map gets a MainHandler, no matching route gets the
    DefaultHandler. *)
Definition handle (w : World) (application : Application) (request : Request)
  : served :=
  match find_route (route_defs application) (path request) with
  | Some (RouteMain _ init_params, kwargs) =>
      serve MainHandlerClass init_params w request kwargs
  | Some (RouteCustom _ k, _) => Delegated k
  | Some (RouteWebSocket _ k, _) => Delegated k
  | None =>
      serve DefaultHandlerClass (default_handler_args application) w request []
  end.

End Handler.

(** ** An environment for worked examples

    A model of [re] and of Tornado's router for the patterns that
    templates without regular-expression syntax of their own compile to:
    literal characters, the capture groups of [_normalize_uri] and the
    final optional slash.  The theorems below hold for every
    environment; this one runs the examples. *)

Inductive token : Type :=
| TChar (c : ascii)
| TCapture (name : string)
| TOptSlash.

(** The text of a capture group after its name. *)
Definition group_tail : string := ">[^\/\?]*)".

(** The name of a capture group, read up to the closing angle bracket. *)
Fixpoint read_name (s : string) : option (string * string) :=
  match s with
  | EmptyString => None
  | String c s' =>
      if Ascii.eqb c ">"%char then Some (EmptyString, s)
      else match read_name s' with
           | Some (n, rest) => Some (String c n, rest)
           | None => None
           end
  end.

(** Tokens of a pattern.  [skip] counts the characters of a group already
    turned into a token. *)
Fixpoint tokens_from (skip : nat) (s : string) : list token :=
  match s with
  | EmptyString => []
  | String c s' =>
      match skip with
      | S k => tokens_from k s'
      | O =>
          if String.eqb s "/?" then [TOptSlash]
          else if String.prefix "(?P<" s then
            match read_name (substring 4 (String.length s) s) with
            | Some (n, rest) =>
                if String.prefix group_tail rest
                then TCapture n
                       :: tokens_from (3 + String.length n + String.length group_tail) s'
                else TChar c :: tokens_from 0 s'
            | None => TChar c :: tokens_from 0 s'
            end
          else TChar c :: tokens_from 0 s'
      end
  end.

Definition tokens (pattern : string) : list token := tokens_from 0 pattern.

Definition capture_names (toks : list token) : list string :=
  flat_map (fun t => match t with TCapture n => [n] | _ => [] end) toks.

Fixpoint has_dup (l : list string) : bool :=
  match l with
  | [] => false
  | x :: r => mem_string x r || has_dup r
  end.

(** [re] rejects a pattern that names a group twice or gives it no
    name. *)
Definition example_groupindex (pattern : string) : option (list string) :=
  let names := capture_names (tokens pattern) in
  if has_dup names || mem_string "" names then None else Some names.

(** A full match of the path, groups greedy, first success taken. *)
Fixpoint match_tokens (toks : list token) : string -> option (dict string) :=
  match toks with
  | [] => fun p => match p with EmptyString => Some [] | _ => None end
  | TChar c :: ts =>
      fun p =>
        match p with
        | String c' p' => if Ascii.eqb c c' then match_tokens ts p' else None
        | EmptyString => None
        end
  | TOptSlash :: ts =>
      fun p =>
        match
          match p with
          | String c' p' => if Ascii.eqb c' slash then match_tokens ts p' else None
          | EmptyString => None
          end
        with
        | Some r => Some r
        | None => match_tokens ts p
        end
  | TCapture n :: ts =>
      (fix capture (acc p : string) {struct p} : option (dict string) :=
         match
           match p with
           | String c' p' =>
               if negb (Ascii.eqb c' slash || Ascii.eqb c' qmark)
               then capture (acc ++ String c' EmptyString) p'
               else None
           | EmptyString => None
           end
         with
         | Some r => Some r
         | None => option_map (fun d => (n, acc) :: d) (match_tokens ts p)
         end) EmptyString
  end.

Definition example_url_match (pattern path : string) : option (dict string) :=
  match example_groupindex pattern with
  | Some _ => match_tokens (tokens pattern) path
  | None => None
  end.

(** Decimal integers, for the example parser and the example loader. *)
Fixpoint digits_value (acc : Z) (s : string) : option Z :=
  match s with
  | EmptyString => Some acc
  | String c s' =>
      let n := Z.of_nat (nat_of_ascii c) in
      if ((48 <=? n) && (n <=? 57))%Z%bool
      then digits_value (10 * acc + (n - 48))%Z s'
      else None
  end.

Definition parse_int (s : string) : option Z :=
  match s with
  | EmptyString => None
  | String c s' =>
      if Ascii.eqb c "-"%char
      then match s' with
           | EmptyString => None
           | _ => option_map Z.opp (digits_value 0 s')
           end
      else digits_value 0 s
  end.

(** A loader that knows the JSON scalars [null], [true], [false] and the
    integers, and the empty object and array. *)
Definition example_json_loads (text : string) : option pyvalue :=
  if String.eqb text "null" then Some VNone
  else if String.eqb text "true" then Some (VBool true)
  else if String.eqb text "false" then Some (VBool false)
  else if String.eqb text "{}" then Some (VDict [])
  else if String.eqb text "[]" then Some (VList [])
  else option_map VInt (parse_int text).

(** A conversion table for strings, integers and booleans. *)
Definition example_coerce (t : ann) (raw : string) : option pyvalue :=
  match t with
  | TStr => Some (VStr raw)
  | TInt => option_map VInt (parse_int raw)
  | TBool =>
      if String.eqb raw "true" then Some (VBool true)
      else if String.eqb raw "false" then Some (VBool false)
      else None
  | _ => None
  end.

Definition example_class_message (e : exn) : string :=
  match e with
  | NotFoundError => "Not Found"
  | MethodNotAllowedError => "Method Not Allowed"
  | _ => "Bad Request"
  end.

#[export] Instance example_env : Env :=
  {| re_groupindex := example_groupindex;
     url_match := example_url_match;
     json_loads := example_json_loads;
     class_message := example_class_message;
     coerce := example_coerce |}.

(** [def get_user(request, id, active: bool = True)], which answers with
    its two arguments. *)
Definition get_user : function :=
  {| __name__ := "get_user";
     parameters :=
       [ {| name := "request"; kind := POSITIONAL_OR_KEYWORD; default := None;
            annotation := None |};
         {| name := "id"; kind := POSITIONAL_OR_KEYWORD; default := None;
            annotation := None |};
         {| name := "active"; kind := POSITIONAL_OR_KEYWORD;
            default := Some (VBool true); annotation := Some TBool |} ];
     iscoroutinefunction := false;
     attr_consumes := None;
     attr_produces := None;
     code := fun _ args => Ok (VDict args) |}.

(** [async def find(request, q: int)], which answers with an object no
    encoder knows. *)
Definition find : function :=
  {| __name__ := "find";
     parameters :=
       [ {| name := "request"; kind := POSITIONAL_OR_KEYWORD; default := None;
            annotation := None |};
         {| name := "q"; kind := POSITIONAL_OR_KEYWORD; default := None;
            annotation := Some TInt |} ];
     iscoroutinefunction := true;
     attr_consumes := None;
     attr_produces := None;
     code := fun _ _ => Ok (VObject "Cursor" None) |}.

(** [def post_item(request)], which answers with the parsed body. *)
Definition post_item : function :=
  {| __name__ := "post_item";
     parameters :=
       [ {| name := "request"; kind := POSITIONAL_OR_KEYWORD; default := None;
            annotation := None |} ];
     iscoroutinefunction := false;
     attr_consumes := None;
     attr_produces := None;
     code := fun request _ => Ok (body request) |}.

(** [def get_user2(request, id, active=False)], a second handler for the
    route of [get_user]. *)
Definition get_user2 : function :=
  {| __name__ := "get_user2";
     parameters :=
       [ {| name := "request"; kind := POSITIONAL_OR_KEYWORD; default := None;
            annotation := None |};
         {| name := "id"; kind := POSITIONAL_OR_KEYWORD; default := None;
            annotation := None |};
         {| name := "active"; kind := POSITIONAL_OR_KEYWORD;
            default := Some (VBool false); annotation := None |} ];
     iscoroutinefunction := false;
     attr_consumes := None;
     attr_produces := None;
     code := fun _ _ => Ok VNone |}.

(** An application with the three routes, in a world with the default
    configuration. *)
Definition example_registration : M CalmApp :=
  (app <- _add_route GET get_user ["/users/:id"] None None CalmApp__init__ ;;
   app <- _add_route GET find ["/find"] None None app ;;
   _add_route POST post_item ["/items"] None None app).

Definition example_world : World :=
  match outcome_of example_registration with
  | Ok app => {| CalmApp_config := default_config; instances := [app] |}
  | Raise _ => initial_world
  end.


Definition example_application : Application :=
  match make_app 0 example_world with
  | Some application => application
  | None => {| route_defs := [];
               default_handler_args :=
                 {| arg_methods := [];
                    arg_argument_parser := CfgParser (ArgumentParser coerce);
                    arg_app := 0 |} |}
  end.

(** A request with one of the four verbs and one value for each name of
    the query string. *)
Definition example_request (m : http_method) (p : string) (q : dict string)
           (b : list byte) : Request :=
  {| method := verb_name m;
     path := p;
     query_arguments := map (fun kv => (fst kv, [list_byte_of_string (snd kv)])) q;
     body := VBytes b |}.

(** The handler definitions of [get_user], [get_user2] and [find], the
    application after the first registration alone, and a dispatcher of
    the example application with the built-in argument parser. *)
Definition get_user_def : HandlerDef :=
  {| uri := _normalize_uri ["/users/:id"];
     handler := get_user;
     _params := params_of get_user;
     path_args := ["id"];
     query_args := [("active", false)];
     consumes := None;
     produces := None |}.

Definition get_user2_def : HandlerDef :=
  {| uri := _normalize_uri ["/users/:id"];
     handler := get_user2;
     _params := params_of get_user2;
     path_args := ["id"];
     query_args := [("active", false)];
     consumes := None;
     produces := None |}.

Definition find_def : HandlerDef :=
  {| uri := _normalize_uri ["/find"];
     handler := find;
     _params := params_of find;
     path_args := [];
     query_args := [("q", true)];
     consumes := None;
     produces := None |}.

Definition example_app1 : CalmApp :=
  {| _route_map := [(_normalize_uri ["/users/:id"], [("get", get_user_def)])];
     _custom_handlers := [];
     _ws_map := [] |}.

Definition example_dispatcher : MainHandler :=
  {| klass := MainHandlerClass;
     _get_handler := Some get_user_def;
     _post_handler := None;
     _put_handler := None;
     _delete_handler := None;
     _argument_parser := ArgumentParser coerce;
     _app := 0 |}.

Definition trace_of_served (s : served) : list event :=
  match s with
  | Dispatched t _ => t
  | Delegated _ => []
  end.

(** ** Notions the properties are stated with *)

(** The handler has no parameter named [c] after its first one. *)
Definition lacks_parameter (f : function) (c : string) : Prop :=
  ~ In c (map name (tl (parameters f))).

(** The handler has a parameter named [c] after its first one, and the
    parameter has a default value. *)
Definition optional_parameter (f : function) (c : string) : Prop :=
  exists p, In p (tl (parameters f)) /\ name p = c /\ default p <> None.

(** The argument parser the configuration names is a class, not a
    string. *)
Definition parser_configured (w : World) : Prop :=
  forall s, dict_get "argument_parser" (CalmApp_config w) <> Some (CfgStr s).

(** The events of the run of a handler [f] called with [args]. *)
Definition invocation (f : function) (args : dict pyvalue) : list event :=
  EvIsCoroutineFunction (__name__ f)
  :: (if iscoroutinefunction f
      then [EvCall (__name__ f) true args]
      else [EvWarning (__name__ f); EvCall (__name__ f) false args]).

(** [hd] is the handler definition registration extracts for the
    function [f] under the pattern [u], with its resource tags set. *)
Definition extracted {env : Env} (u : string) (f : function) (hd : HandlerDef)
  : Prop :=
  exists hd0 c p,
    outcome_of (HandlerDef__init__ u f) = Ok hd0 /\ hd = set_resources hd0 c p.

(** The parameter is not a path argument. *)
Definition is_query_parameter (path_args : list string) (p : Param) : bool :=
  negb (mem_string (name p) path_args).

(** The declared type of an argument, for [_cast_args]: its annotation,
    when it has one and the annotation is true. *)
Definition declared_type (arg_types : dict ann) (arg : string) : option ann :=
  match dict_get arg arg_types with
  | Some t => if ann_truthy t then Some t else None
  | None => None
  end.

(** The argument [a], cast from the raw argument [ra] for a handler with
    annotations [arg_types]: the parser's reading of the raw string when
    the argument has a declared type, the raw string otherwise. *)
Definition cast_of (parse : parser) (arg_types : dict ann)
           (ra : string * string) (a : string * pyvalue) : Prop :=
  fst a = fst ra
  /\ match declared_type arg_types (fst ra) with
     | Some t => parse t (snd ra) = Ok (snd a)
     | None => snd a = VStr (snd ra)
     end.

(** The raw arguments up to the first one the parser refuses. *)
Definition first_refused (parse : parser) (arg_types : dict ann)
           (raw_args : dict string) (arg raw : string) (t : ann) (e : exn) : Prop :=
  exists before after,
    raw_args = (before ++ (arg, raw) :: after)%list
    /\ declared_type arg_types arg = Some t
    /\ parse t raw = Raise e
    /\ forall arg' raw' t',
        In (arg', raw') before -> declared_type arg_types arg' = Some t' ->
        exists v, parse t' raw' = Ok v.

(** The reading under which the parser is applied to every argument
    whose parameter carries an annotation: the argument passed on is the
    parser's reading of the raw string, and the cast fails when the
    parser refuses the raw string. *)
Definition annotated_is_coerced (parse : parser) (arg_types : dict ann)
           (raw_args : dict string) (cast : result (dict pyvalue)) : Prop :=
  forall arg raw t,
    In (arg, raw) raw_args -> dict_get arg arg_types = Some t ->
    match parse t raw with
    | Ok v => forall args, cast = Ok args -> dict_get arg args = Some v
    | Raise _ => exists e, cast = Raise e
    end.

(** What the query string of the request has for a name: nothing; a
    value that is not UTF-8 among its values; or values that are all
    UTF-8, and one at least. *)
Definition omits (request : Request) (q : string) : Prop :=
  query_values request q = [].

Definition garbles (request : Request) (q : string) : Prop :=
  exists v, In v (query_values request q) /\ decode_utf8 v = None.

Definition gives (request : Request) (q : string) : Prop :=
  query_values request q <> []
  /\ forall v, In v (query_values request q) -> decode_utf8 v <> None.

(** The query argument does not stop [_get_query_args]: the request
    gives it, or omits it and it is not required. *)
Definition passes (request : Request) (item : string * bool) : Prop :=
  gives request (fst item) \/ (omits request (fst item) /\ snd item = false).

(** The value, when there is one. *)
Definition value_of {A} (r : result A) : option A :=
  match r with Ok a => Some a | Raise _ => None end.

(** The status of the response, when one is written. *)
Definition status_of (s : served) : option Z :=
  match s with
  | Dispatched _ (Ok r) => Some (status_code r)
  | _ => None
  end.

(** The signature can be called as the dispatcher calls it: the first
    parameter takes a positional argument and every later one takes a
    keyword argument. *)
Definition takes_keywords (f : function) : bool :=
  match parameters f with
  | [] => false
  | first :: ps =>
      by_position (kind first) && forallb (fun p => by_keyword (kind p)) ps
  end.

(** Python gives all the parameters of a signature distinct names. *)
Definition distinct_signature (f : function) : Prop :=
  NoDup (map name (parameters f)).

Definition count_inspections (t : list event) : nat :=
  List.length (filter is_inspect_coroutine t).

Definition count_calls (t : list event) : nat :=
  List.length (filter is_call t).

(** The reading under which the calling convention is inspected once,
    when the handler is registered, and at no request. *)
Definition inspected_at_registration_only (registration : list event)
           (requests : list (list event)) : Prop :=
  count_inspections registration = 1
  /\ Forall (fun t => count_inspections t = 0) requests.

(** The reading under which a second registration for a pattern and verb
    that have a handler is refused. *)
Definition redefinition_refused {A} (second : M A) : Prop :=
  exists e, outcome_of second = Raise e.

(** The handler definition registered for a pattern and a verb. *)
Definition route_lookup (app : CalmApp) (u : string) (m : http_method)
  : option HandlerDef :=
  match dict_get u (_route_map app) with
  | Some methods => dict_get (lower m) methods
  | None => None
  end.

(** The same function under the other calling convention, and a handler
    definition with its function replaced. *)
Definition with_convention (b : bool) (f : function) : function :=
  {| __name__ := __name__ f;
     parameters := parameters f;
     iscoroutinefunction := b;
     attr_consumes := attr_consumes f;
     attr_produces := attr_produces f;
     code := code f |}.

Definition with_handler (hd : HandlerDef) (f : function) : HandlerDef :=
  {| uri := uri hd;
     handler := f;
     _params := _params hd;
     path_args := path_args hd;
     query_args := query_args hd;
     consumes := consumes hd;
     produces := produces hd |}.

(** Python gives the parameters of a signature distinct names. *)
Definition distinct_parameters (f : function) : Prop :=
  NoDup (map name (tl (parameters f))).

(** ** More of [calm/core.py]: custom handlers and WebSockets *)

(** [add_handler]: the URL spec, here the pattern and the handler class,
    goes last in the list of custom handlers. *)
Definition add_handler (url_spec : string * string) (self : CalmApp) : CalmApp :=
  {| _route_map := _route_map self;
     _custom_handlers := (_custom_handlers self ++ [url_spec])%list;
     _ws_map := _ws_map self |}.

(** The decorator [custom_handler], applied to a class.  The [init_args]
    of the URL spec, which only the handler class reads, are not kept. *)
Definition custom_handler (uri_fragments : list string) (klass : string)
           (self : CalmApp) : CalmApp :=
  add_handler (_normalize_uri uri_fragments, klass) self.

(** What [websocket] asks of the object it decorates: whether it is a
    class ([isinstance(klass, type)]), whether it is a subclass of
    Tornado's [WebSocketHandler], and its [__name__]. *)
Record pyclass : Type := {
  class_name : string;
  is_type : bool;
  is_websocket_handler : bool
}.

(** The decorator [websocket], applied to [klass]. *)
Definition websocket (uri_fragments : list string) (klass : pyclass)
           (self : CalmApp) : result CalmApp :=
  if negb (is_type klass) then
    Raise (DefinitionError "A WebSocket handler should be a class")
  else if negb (is_websocket_handler klass) then
    Raise (DefinitionError
             (class_name klass ++ " should subclass 'WebSocketHandler'"))
  else
    let uri := _normalize_uri uri_fragments in
    Ok {| _route_map := _route_map self;
          _custom_handlers := _custom_handlers self;
          _ws_map := dict_set uri (class_name klass) (_ws_map self) |}.

(** Further handlers and classes for worked examples: [def teapot(request)],
    which raises a client error of its own; [def ping()], which takes no
    parameter; a WebSocket handler class and a custom handler class. *)
Definition teapot : function :=
  {| __name__ := "teapot";
     parameters :=
       [ {| name := "request"; kind := POSITIONAL_OR_KEYWORD; default := None;
            annotation := None |} ];
     iscoroutinefunction := false;
     attr_consumes := None;
     attr_produces := None;
     code := fun _ _ => Raise (ClientError 418 "I am a teapot") |}.

Definition teapot_def : HandlerDef :=
  {| uri := _normalize_uri ["/teapot"];
     handler := teapot;
     _params := params_of teapot;
     path_args := [];
     query_args := [];
     consumes := None;
     produces := None |}.

Definition ping : function :=
  {| __name__ := "ping";
     parameters := [];
     iscoroutinefunction := false;
     attr_consumes := None;
     attr_produces := None;
     code := fun _ _ => Ok (VStr "pong") |}.

Definition EchoSocket : pyclass :=
  {| class_name := "EchoSocket"; is_type := true; is_websocket_handler := true |}.

(** The example application with a custom handler for [/static/:file] and
    the WebSocket handler for [/echo]. *)
Definition example_app2 : CalmApp :=
  match outcome_of example_registration with
  | Ok app =>
      match websocket ["/echo"] EchoSocket (custom_handler ["/static/:file"] "Static" app) with
      | Ok app' => app'
      | Raise _ => app
      end
  | Raise _ => CalmApp__init__
  end.

Definition example_world2 : World :=
  {| CalmApp_config := default_config; instances := [example_app2] |}.

Definition example_application2 : Application :=
  match make_app 0 example_world2 with
  | Some application => application
  | None => example_application
  end.

(** The world that holds one application, with the default
    configuration, and the Tornado application built from it. *)
Definition world_of (app : CalmApp) : World :=
  {| CalmApp_config := default_config; instances := [app] |}.

Definition built (w : World) : Application :=
  match make_app 0 w with
  | Some application => application
  | None => example_application
  end.

(** Three more handlers, each answering with its arguments:
    [def search(request, q, page)], with two required query arguments;
    [def tail(request, *args, limit=10)]; and
    [def tagged(request, tag: None)], whose annotation is false.  They
    are registered for GET under [/search], [/tail] and [/tagged]. *)
Definition search : function :=
  {| __name__ := "search";
     parameters :=
       [ {| name := "request"; kind := POSITIONAL_OR_KEYWORD; default := None;
            annotation := None |};
         {| name := "q"; kind := POSITIONAL_OR_KEYWORD; default := None;
            annotation := None |};
         {| name := "page"; kind := POSITIONAL_OR_KEYWORD; default := None;
            annotation := None |} ];
     iscoroutinefunction := false;
     attr_consumes := None;
     attr_produces := None;
     code := fun _ args => Ok (VDict args) |}.

Definition tail : function :=
  {| __name__ := "tail";
     parameters :=
       [ {| name := "request"; kind := POSITIONAL_OR_KEYWORD; default := None;
            annotation := None |};
         {| name := "args"; kind := VAR_POSITIONAL; default := None;
            annotation := None |};
         {| name := "limit"; kind := KEYWORD_ONLY; default := Some (VInt 10);
            annotation := None |} ];
     iscoroutinefunction := false;
     attr_consumes := None;
     attr_produces := None;
     code := fun _ args => Ok (VDict args) |}.

Definition tagged : function :=
  {| __name__ := "tagged";
     parameters :=
       [ {| name := "request"; kind := POSITIONAL_OR_KEYWORD; default := None;
            annotation := None |};
         {| name := "tag"; kind := POSITIONAL_OR_KEYWORD; default := None;
            annotation := Some (TValue VNone) |} ];
     iscoroutinefunction := false;
     attr_consumes := None;
     attr_produces := None;
     code := fun _ args => Ok (VDict args) |}.

Definition example_app3 : CalmApp :=
  match
    outcome_of
      (app <- _add_route GET search ["/search"] None None CalmApp__init__ ;;
       app <- _add_route GET tail ["/tail"] None None app ;;
       _add_route GET tagged ["/tagged"] None None app)
  with
  | Ok app => app
  | Raise _ => CalmApp__init__
  end.

Definition tail_def : HandlerDef :=
  {| uri := _normalize_uri ["/tail"];
     handler := tail;
     _params := params_of tail;
     path_args := [];
     query_args := [("args", true); ("limit", false)];
     consumes := None;
     produces := None |}.

Definition example_world3 : World := world_of example_app3.

Definition example_application3 : Application := built example_world3.

(** A request given as Tornado has it: any verb, and the values of the
    query string as byte strings. *)
Definition raw_request (verb p : string) (q : dict (list (list byte))) : Request :=
  {| method := verb; path := p; query_arguments := q; body := VBytes [] |}.

(** The handler definition registered for GET under a template. *)
Definition registered (app : CalmApp) (template : string) : option HandlerDef :=
  route_lookup app (_normalize_uri [template]) GET.

(** ** More notions *)

(** Every character of the string is a name character. *)
Fixpoint name_chars (s : string) : bool :=
  match s with
  | EmptyString => true
  | String c s' => name_char c && name_chars s'
  end.

(** No character of the string is a slash or a question mark. *)
Fixpoint plain (s : string) : bool :=
  match s with
  | EmptyString => true
  | String c s' =>
      negb (Ascii.eqb c slash) && negb (Ascii.eqb c qmark) && plain s'
  end.

(** The string does not begin with the character. *)
Definition head_is_not (c : ascii) (s : string) : Prop :=
  match s with
  | EmptyString => True
  | String a _ => Ascii.eqb a c = false
  end.

(** The fragment between two slashes. *)
Definition wrap_slashes (s : string) : string := "/" ++ s ++ "/".

(** A sequence of calls of [configure], each on some instance. *)
Definition configured (calls : list (nat * dict config_value)) (w : World) : World :=
  fold_left (fun w call => configure (fst call) (snd call) w) calls w.

(** The request reaches the call of the handler: the three steps before
    it succeed. *)
Definition reaches_call {env : Env} (self : MainHandler) (request : Request)
           (hd : HandlerDef) (kwargs : dict string) : Prop :=
  exists qa args request',
    _get_query_args request hd = Ok qa
    /\ _cast_args self (handler hd) (dict_update kwargs qa) = Ok args
    /\ _parse_and_update_body request = Ok request'.

(** * Properties *)

(** ** Dictionaries *)

Section DictFacts.
Context {V : Type}.
Implicit Types (d : dict V) (k : string) (v : V).

Lemma dict_get_set k k' v d :
  dict_get k (dict_set k' v d) = if String.eqb k k' then Some v else dict_get k d.
Proof.
  induction d as [|[k0 v0] d IH]; simpl.
  - destruct (String.eqb k k'); reflexivity.
  - destruct (String.eqb k' k0) eqn:E0; simpl.
    + apply String.eqb_eq in E0; subst k0.
      destruct (String.eqb k k'); reflexivity.
    + destruct (String.eqb k k0) eqn:E1.
      * apply String.eqb_eq in E1; subst k0.
        rewrite String.eqb_sym in E0. rewrite E0. reflexivity.
      * exact IH.
Qed.

Lemma dict_get_app k (d1 d2 : dict V) :
  dict_get k (d1 ++ d2)%list =
  match dict_get k d1 with Some v => Some v | None => dict_get k d2 end.
Proof.
  induction d1 as [|[k0 v0] d1 IH]; simpl; [reflexivity|].
  destruct (String.eqb k k0); [reflexivity | exact IH].
Qed.

(** In [d.update(kwargs)] the last value given for a key wins, and a key
    that [kwargs] does not give keeps its value. *)
Lemma dict_get_update k d (kwargs : dict V) :
  dict_get k (dict_update d kwargs) =
  match dict_get k (rev kwargs) with Some v => Some v | None => dict_get k d end.
Proof.
  unfold dict_update. revert d.
  induction kwargs as [|[k0 v0] kw IH]; intro d; simpl; [reflexivity|].
  rewrite IH, dict_get_app, dict_get_set. simpl.
  destruct (dict_get k (rev kw)); [reflexivity|].
  destruct (String.eqb k k0); reflexivity.
Qed.

Lemma dict_get_In k v d : dict_get k d = Some v -> In (k, v) d.
Proof.
  induction d as [|[k0 v0] d IH]; simpl; [discriminate|].
  destruct (String.eqb k k0) eqn:E.
  - apply String.eqb_eq in E. intros [= ->]. left. congruence.
  - intro H. right. auto.
Qed.

Lemma dict_get_None k d : dict_get k d = None <-> ~ In k (dict_keys d).
Proof.
  induction d as [|[k0 v0] d IH]; simpl.
  - split; [intros _ [] | reflexivity].
  - destruct (String.eqb k k0) eqn:E.
    + apply String.eqb_eq in E. split; [discriminate|]. intro H. exfalso. apply H. left. congruence.
    + apply String.eqb_neq in E. rewrite IH. split.
      * intros H [H1|H1]; [congruence | auto].
      * intros H H1. apply H. right. exact H1.
Qed.

Lemma dict_get_NoDup k v d :
  NoDup (dict_keys d) -> In (k, v) d -> dict_get k d = Some v.
Proof.
  induction d as [|[k0 v0] d IH]; simpl; [intros _ []|].
  intros Hnd [H|H].
  - injection H as -> ->. rewrite String.eqb_refl. reflexivity.
  - inversion Hnd as [|? ? Hnot Hnd']; subst.
    destruct (String.eqb k k0) eqn:E.
    + apply String.eqb_eq in E; subst k0. exfalso. apply Hnot.
      change k with (fst (k, v)). apply in_map. exact H.
    + auto.
Qed.

Lemma dict_keys_set k v d :
  forall x, In x (dict_keys (dict_set k v d)) <-> x = k \/ In x (dict_keys d).
Proof.
  induction d as [|[k0 v0] d IH]; intro x; simpl.
  - intuition congruence.
  - destruct (String.eqb k k0) eqn:E; simpl.
    + apply String.eqb_eq in E; subst k0. intuition congruence.
    + rewrite IH. intuition congruence.
Qed.

Lemma dict_keys_update d (kwargs : dict V) :
  forall x, In x (dict_keys (dict_update d kwargs)) <->
            In x (dict_keys d) \/ In x (dict_keys kwargs).
Proof.
  unfold dict_update. revert d.
  induction kwargs as [|[k0 v0] kw IH]; intros d x; simpl.
  - intuition.
  - rewrite IH, dict_keys_set. simpl. intuition congruence.
Qed.

End DictFacts.

Lemma mem_string_In x l : mem_string x l = true <-> In x l.
Proof.
  unfold mem_string. rewrite existsb_exists. split.
  - intros [y [Hy E]]. apply String.eqb_eq in E. congruence.
  - intro H. exists x. split; [exact H | apply String.eqb_refl].
Qed.

Lemma mem_string_false x l : mem_string x l = false <-> ~ In x l.
Proof.
  rewrite <- mem_string_In. destruct (mem_string x l); intuition congruence.
Qed.

(** ** The monad of traces *)

Lemma bind_lift_Ok {A B} (a : A) (f : A -> M B) : bind (lift (Ok a)) f = f a.
Proof. unfold bind, lift. simpl. destruct (f a). reflexivity. Qed.

Lemma bind_emit {B} (ev : event) (f : unit -> M B) :
  bind (emit ev) f = (ev :: trace_of (f tt), outcome_of (f tt)).
Proof. unfold bind, emit. simpl. destruct (f tt). reflexivity. Qed.

(** ** The path template compiler *)

(** C7, at the template [/users/:id/posts/:id2]: [_normalize_uri] replaces
    the text [:id] wherever it occurs, also at the head of [:id2], so the
    pattern has two groups named [id] followed by a literal 2, where the
    one-pass rewriting of every [:name] gives a group [id] and a group
    [id2]; the pattern the code returns names a group twice, which [re]
    (here the example model of it) rejects. *)
Theorem normalize_uri_name_prefix :
  _normalize_uri ["/users/:id/posts/:id2"]
  = "/users/(?P<id>[^\/\?]*)/posts/(?P<id>[^\/\?]*)2/?"
  /\ compile_template ["/users/:id/posts/:id2"]
     = "/users/(?P<id>[^\/\?]*)/posts/(?P<id2>[^\/\?]*)/?"
  /\ _normalize_uri ["/users/:id/posts/:id2"]
     <> compile_template ["/users/:id/posts/:id2"]
  /\ re_groupindex (_normalize_uri ["/users/:id/posts/:id2"]) = None.
Proof.
  repeat split; try reflexivity.
  vm_compute. discriminate.
Qed.

(** Compiling the same fragments twice gives the same pattern. *)
Lemma normalize_uri_deterministic (a b : list string) :
  a = b -> _normalize_uri a = _normalize_uri b.
Proof. intros ->. reflexivity. Qed.


(** *** When the loop of [_normalize_uri] is the one-pass rewriting *)

Lemma append_assoc (a b c : string) : (a ++ b) ++ c = a ++ (b ++ c).
Proof. induction a as [|x a IH]; simpl; [reflexivity | rewrite IH; reflexivity]. Qed.

Lemma append_nil_r (a : string) : a ++ "" = a.
Proof. induction a as [|x a IH]; simpl; [reflexivity | rewrite IH; reflexivity]. Qed.

Lemma prefix_refl_app (a b : string) : String.prefix a (a ++ b) = true.
Proof.
  induction a as [|x a IH]; simpl; [destruct b; reflexivity|].
  destruct (ascii_dec x x); [exact IH | congruence].
Qed.

Lemma prefix_nil (a : string) : String.prefix "" a = true.
Proof. destruct a; reflexivity. Qed.

(** A prefix of [m ++ rest] is a prefix of [m] or has [m] as a prefix. *)
Lemma prefix_app_cases (n m rest : string) :
  String.prefix n (m ++ rest) = true ->
  String.prefix n m = true \/ String.prefix m n = true.
Proof.
  revert m. induction n as [|x n IH]; intros m H.
  - left. apply prefix_nil.
  - destruct m as [|y m]; [right; reflexivity|].
    simpl in H |- *. destruct (ascii_dec x y) as [->|Hne]; [|discriminate].
    destruct (ascii_dec y y); [|congruence]. apply IH. exact H.
Qed.

Lemma prefix_cons (a b : ascii) (s1 s2 : string) :
  String.prefix (String a s1) (String b s2)
  = (Ascii.eqb a b && String.prefix s1 s2)%bool.
Proof.
  change (String.prefix (String a s1) (String b s2))
    with (if ascii_dec a b then String.prefix s1 s2 else false).
  destruct (ascii_dec a b) as [->|Hne].
  - rewrite Ascii.eqb_refl. reflexivity.
  - apply Ascii.eqb_neq in Hne. rewrite Hne. reflexivity.
Qed.

Lemma replace_from_step (old new : string) (c : ascii) (s : string) :
  Str.replace_from old new 0 (String c s)
  = if String.prefix old (String c s)
    then new ++ Str.replace_from old new (String.length old - 1) s
    else String c (Str.replace_from old new 0 s).
Proof. reflexivity. Qed.

Section Replace.
Variables (n new : string).

Lemma replace_skip (x rest : string) :
  Str.replace_from (String colon n) new (String.length x) (x ++ rest)
  = Str.replace_from (String colon n) new 0 rest.
Proof. induction x as [|c x IH]; [reflexivity | exact IH]. Qed.

Lemma replace_other (c : ascii) (s : string) :
  Ascii.eqb c colon = false ->
  Str.replace_from (String colon n) new 0 (String c s)
  = String c (Str.replace_from (String colon n) new 0 s).
Proof.
  intro Hc. rewrite replace_from_step.
  rewrite prefix_cons, Ascii.eqb_sym, Hc. reflexivity.
Qed.

Lemma replace_colon_free (x rest : string) :
  colon_free x = true ->
  Str.replace_from (String colon n) new 0 (x ++ rest)
  = x ++ Str.replace_from (String colon n) new 0 rest.
Proof.
  induction x as [|c x IH]; intro H; [reflexivity|].
  simpl in H. apply andb_true_iff in H. destruct H as [Hc Hx].
  apply negb_true_iff in Hc.
  change (String c x ++ rest) with (String c (x ++ rest)).
  rewrite replace_other by exact Hc. rewrite IH by exact Hx. reflexivity.
Qed.

Lemma replace_match (rest : string) :
  Str.replace_from (String colon n) new 0 (String colon (n ++ rest))
  = new ++ Str.replace_from (String colon n) new 0 rest.
Proof.
  rewrite replace_from_step.
  rewrite prefix_cons, Ascii.eqb_refl, prefix_refl_app. simpl andb. cbv iota.
  change (String.length (String colon n) - 1) with (String.length n - 0).
  rewrite Nat.sub_0_r, replace_skip. reflexivity.
Qed.

Lemma replace_no_match (m rest : string) :
  colon_free m = true ->
  String.prefix n (m ++ rest) = false ->
  Str.replace_from (String colon n) new 0 (String colon (m ++ rest))
  = String colon (m ++ Str.replace_from (String colon n) new 0 rest).
Proof.
  intros Hm Hp. rewrite replace_from_step.
  rewrite prefix_cons, Ascii.eqb_refl, Hp. simpl andb. cbv iota.
  f_equal. apply replace_colon_free. exact Hm.
Qed.

End Replace.

Lemma colon_free_app (a b : string) :
  colon_free (a ++ b) = (colon_free a && colon_free b)%bool.
Proof.
  induction a as [|c a IH]; simpl; [reflexivity|].
  rewrite IH, andb_assoc. reflexivity.
Qed.

Lemma capture_group_colon_free (n : string) :
  colon_free n = true -> colon_free (capture_group n) = true.
Proof.
  intro H. unfold capture_group. rewrite !colon_free_app, H. reflexivity.
Qed.

Lemma name_char_not_colon (c : ascii) :
  name_char c = true -> Ascii.eqb c colon = false.
Proof.
  unfold name_char. intro H. apply negb_true_iff in H.
  apply orb_false_iff in H. destruct H as [_ H]. exact H.
Qed.

(** The segments of a template spell the template, their placeholders are
    what [findall] finds, and rewriting every placeholder is the one-pass
    rewriting. *)
Lemma lex_text (s : string) (cur : option string) :
  text (lex_from cur s)
  = match cur with Some n => ":" ++ n | None => "" end ++ s.
Proof.
  revert cur. induction s as [|c s IH]; intros [n|]; simpl.
  - rewrite !append_nil_r. reflexivity.
  - reflexivity.
  - destruct (name_char c) eqn:Hn.
    + rewrite IH. simpl. rewrite append_assoc. reflexivity.
    + destruct (Ascii.eqb c colon) eqn:Hc; simpl; rewrite IH; simpl.
      * apply Ascii.eqb_eq in Hc. subst c. reflexivity.
      * reflexivity.
  - destruct (Ascii.eqb c colon) eqn:Hc; simpl; rewrite IH; simpl.
    + apply Ascii.eqb_eq in Hc. subst c. reflexivity.
    + reflexivity.
Qed.

Lemma lex_names (s : string) (cur : option string) :
  findall_from cur s = placeholder_names (lex_from cur s).
Proof.
  revert cur. induction s as [|c s IH]; intros [n|]; simpl; try reflexivity.
  - destruct (name_char c); [apply IH|].
    destruct (Ascii.eqb c colon); simpl; rewrite IH; reflexivity.
  - destruct (Ascii.eqb c colon); simpl; rewrite IH; reflexivity.
Qed.

Lemma lex_rewrite (s : string) (cur : option string) :
  rewrite_from cur s = text (map to_group (lex_from cur s)).
Proof.
  revert cur. induction s as [|c s IH]; intros [n|]; simpl.
  - rewrite append_nil_r. reflexivity.
  - reflexivity.
  - destruct (name_char c); [apply IH|].
    destruct (Ascii.eqb c colon); simpl; rewrite IH; reflexivity.
  - destruct (Ascii.eqb c colon); simpl; rewrite IH; reflexivity.
Qed.

Lemma lex_ok (s : string) (cur : option string) :
  match cur with Some n => colon_free n = true | None => True end ->
  Forall (fun sg => segment_ok sg = true) (lex_from cur s).
Proof.
  revert cur. induction s as [|c s IH]; intros [n|] Hcur; simpl.
  - constructor; [exact Hcur | constructor].
  - constructor.
  - destruct (name_char c) eqn:Hn.
    + apply IH. rewrite colon_free_app, Hcur. simpl.
      rewrite (name_char_not_colon c Hn). reflexivity.
    + destruct (Ascii.eqb c colon) eqn:Hc.
      * constructor; [exact Hcur | apply IH; reflexivity].
      * constructor; [exact Hcur|].
        constructor; [simpl; rewrite Hc; reflexivity | apply IH; exact I].
  - destruct (Ascii.eqb c colon) eqn:Hc.
    + apply IH. reflexivity.
    + constructor; [simpl; rewrite Hc; reflexivity | apply IH; exact I].
Qed.

Lemma placeholder_names_In (segs : list segment) (m : string) :
  In m (placeholder_names segs) <-> In (Placeholder m) segs.
Proof.
  unfold placeholder_names. rewrite in_flat_map. split.
  - intros [sg [Hin Hm]]. destruct sg; simpl in Hm; try contradiction.
    destruct Hm as [<-|[]]. exact Hin.
  - intro H. exists (Placeholder m). split; [exact H | left; reflexivity].
Qed.

(** One [str.replace] of the loop rewrites the placeholders of that name
    and nothing else, when no other placeholder left is a prefix of the
    name or has it as a prefix. *)
Lemma replace_text (n : string) (segs : list segment) :
  Forall (fun sg => segment_ok sg = true) segs ->
  (forall m, In (Placeholder m) segs ->
             String.prefix n m = true \/ String.prefix m n = true -> m = n) ->
  Str.replace (":" ++ n) (capture_group n) (text segs)
  = text (map (replace_placeholder n) segs).
Proof.
  unfold Str.replace. change (":" ++ n) with (String colon n).
  induction segs as [|sg segs IH]; intros Hok Hfree; [reflexivity|].
  inversion Hok as [|? ? Hsg Hok']; subst.
  assert (IH' := IH Hok' (fun m Hm => Hfree m (or_intror Hm))). clear IH.
  destruct sg as [c|m|g]; cbn [text map].
  - simpl in Hsg. apply negb_true_iff in Hsg.
    change (text_of (Lit c) ++ text segs) with (String c (text segs)).
    rewrite replace_other by exact Hsg. rewrite IH'. reflexivity.
  - simpl in Hsg.
    change (text_of (Placeholder m) ++ text segs)
      with (String colon (m ++ text segs)).
    unfold replace_placeholder at 1.
    destruct (String.eqb m n) eqn:E.
    + apply String.eqb_eq in E. subst m.
      rewrite replace_match, IH'. reflexivity.
    + assert (Hp : String.prefix n (m ++ text segs) = false).
      { destruct (String.prefix n (m ++ text segs)) eqn:Hp; [|reflexivity].
        apply prefix_app_cases in Hp.
        apply (Hfree m (or_introl eq_refl)) in Hp.
        apply String.eqb_neq in E. congruence. }
      rewrite replace_no_match by assumption. rewrite IH'. reflexivity.
  - simpl in Hsg.
    change (text_of (Group g)) with (capture_group g).
    change (replace_placeholder n (Group g)) with (Group g).
    change (text_of (Group g)) with (capture_group g).
    rewrite replace_colon_free by (apply capture_group_colon_free; exact Hsg).
    rewrite IH'. reflexivity.
Qed.

Lemma replace_placeholder_ok (n : string) (segs : list segment) :
  Forall (fun sg => segment_ok sg = true) segs ->
  Forall (fun sg => segment_ok sg = true) (map (replace_placeholder n) segs).
Proof.
  induction 1 as [|sg segs Hsg _ IH]; simpl; constructor; [|exact IH].
  destruct sg as [c|m|g]; simpl; try exact Hsg.
  destruct (String.eqb m n) eqn:E; [|exact Hsg].
  apply String.eqb_eq in E. subst m. exact Hsg.
Qed.

Lemma replace_placeholder_In (n m : string) (segs : list segment) :
  In (Placeholder m) (map (replace_placeholder n) segs) ->
  In (Placeholder m) segs /\ m <> n.
Proof.
  intro H. apply in_map_iff in H. destruct H as [sg [E Hin]].
  destruct sg as [c|m'|g]; simpl in E; try discriminate.
  destruct (String.eqb m' n) eqn:E'; [discriminate|].
  injection E as <-. apply String.eqb_neq in E'. auto.
Qed.

Lemma to_group_replace (n : string) (segs : list segment) :
  map to_group (map (replace_placeholder n) segs) = map to_group segs.
Proof.
  rewrite map_map. apply map_ext. intros [c|m|g]; simpl; try reflexivity.
  destruct (String.eqb m n) eqn:E; [|reflexivity].
  apply String.eqb_eq in E. subst m. reflexivity.
Qed.

Lemma no_placeholder_to_group (segs : list segment) :
  (forall m, ~ In (Placeholder m) segs) -> map to_group segs = segs.
Proof.
  induction segs as [|sg segs IH]; intro H; simpl; [reflexivity|].
  rewrite IH by (intros m Hm; apply (H m); right; exact Hm).
  destruct sg as [c|m|g]; try reflexivity.
  exfalso. apply (H m). left. reflexivity.
Qed.

(** The loop over the names: it is the rewriting of every placeholder,
    when the names cover the placeholders and none of them is a proper
    prefix of another. *)
Lemma replace_params_text (names : list string) (segs : list segment) :
  Forall (fun sg => segment_ok sg = true) segs ->
  (forall m, In (Placeholder m) segs -> In m names) ->
  (forall n m, In n names -> In (Placeholder m) segs ->
               String.prefix n m = true \/ String.prefix m n = true -> m = n) ->
  replace_params names (text segs) = text (map to_group segs).
Proof.
  unfold replace_params. revert segs.
  induction names as [|n names IH]; intros segs Hok Hcover Hfree; cbn [fold_left].
  - rewrite no_placeholder_to_group; [reflexivity|].
    intros m Hm. exact (Hcover m Hm).
  - rewrite replace_text;
      [|exact Hok | intros m Hm; apply Hfree; [left; reflexivity | exact Hm]].
    rewrite IH.
    + rewrite to_group_replace. reflexivity.
    + apply replace_placeholder_ok. exact Hok.
    + intros m Hm. apply replace_placeholder_In in Hm. destruct Hm as [Hm Hne].
      destruct (Hcover m Hm) as [E|Hin]; [congruence | exact Hin].
    + intros n' m Hn' Hm. apply replace_placeholder_In in Hm.
      destruct Hm as [Hm _]. apply Hfree; [right; exact Hn' | exact Hm].
Qed.

(** X1.  When no placeholder name of the template is a proper prefix of
    another, [_normalize_uri] returns the one-pass rewriting of the
    template: every [:name] becomes the capture group of that name. *)
Theorem normalize_uri_prefix_free (fragments : list string) :
  prefix_free (URI_REGEX_findall (template fragments)) ->
  _normalize_uri fragments = compile_template fragments.
Proof.
  intro Hfree.
  change (_normalize_uri fragments)
    with (replace_params (URI_REGEX_findall (template fragments)) (template fragments)).
  change (compile_template fragments) with (rewrite_from None (template fragments)).
  unfold URI_REGEX_findall in *. rewrite lex_names in *. rewrite lex_rewrite.
  assert (Ht : text (lex_from None (template fragments)) = template fragments)
    by exact (lex_text (template fragments) None).
  rewrite <- Ht at 2.
  apply replace_params_text.
  - apply lex_ok. exact I.
  - intros m Hm. apply placeholder_names_In. exact Hm.
  - intros n m Hn Hm [Hp|Hp].
    + symmetry. apply Hfree; [exact Hn | apply placeholder_names_In; exact Hm | exact Hp].
    + apply Hfree; [apply placeholder_names_In; exact Hm | exact Hn | exact Hp].
Qed.

(** ** The argument contract extractor *)

Section Contract.
Context {env : Env}.

Lemma params_of_None (f : function) (c : string) :
  dict_get c (params_of f) = None <-> lacks_parameter f c.
Proof.
  unfold params_of, dict_of_items, lacks_parameter.
  rewrite dict_get_update. simpl.
  assert (E : forall o : option Param,
             match o with Some v => Some v | None => None end = o)
    by (intros [|]; reflexivity).
  rewrite E, dict_get_None. unfold dict_keys.
  rewrite <- map_rev, !map_map. simpl.
  rewrite map_rev, <- in_rev. reflexivity.
Qed.

Lemma params_of_Some (f : function) (c : string) (p : Param) :
  distinct_parameters f ->
  dict_get c (params_of f) = Some p <-> In p (tl (parameters f)) /\ name p = c.
Proof.
  unfold params_of, dict_of_items, distinct_parameters. intro Hnd.
  rewrite dict_get_update. simpl.
  assert (E : forall o : option Param,
             match o with Some v => Some v | None => None end = o)
    by (intros [|]; reflexivity).
  rewrite E. split.
  - intro H. apply dict_get_In in H. apply in_rev in H.
    apply in_map_iff in H. destruct H as [q [Hq Hin]].
    injection Hq as <- <-. auto.
  - intros [Hin <-]. apply dict_get_NoDup.
    + unfold dict_keys. rewrite <- map_rev, map_map. simpl.
      rewrite map_rev. apply NoDup_rev. exact Hnd.
    + apply -> in_rev. apply in_map_iff. exists p. auto.
Qed.

(** The loop over the capture names ends without error exactly when every
    name finds a parameter without default, and every error it raises is
    a [DefinitionError]. *)
Lemma check_path_args_Ok (h : string) (params : dict Param) (names : list string) :
  check_path_args h params names = Ok tt <->
  forall c, In c names ->
            exists p, dict_get c params = Some p /\ default p = None.
Proof.
  induction names as [|c names IH]; simpl.
  - split; [intros _ c [] | reflexivity].
  - destruct (dict_get c params) as [p|] eqn:Hp.
    + destruct (default p) eqn:Hd.
      * split; [discriminate|]. intro H.
        destruct (H c (or_introl eq_refl)) as [q [Hq Hq']]. congruence.
      * rewrite IH. split.
        -- intros H c' [<-|Hin]; [exists p; auto | auto].
        -- intros H c' Hin. apply H. right. exact Hin.
    + split; [discriminate|]. intro H.
      destruct (H c (or_introl eq_refl)) as [q [Hq _]]. congruence.
Qed.

Lemma check_path_args_Raise (h : string) (params : dict Param)
      (names : list string) (e : exn) :
  check_path_args h params names = Raise e -> exists msg, e = DefinitionError msg.
Proof.
  induction names as [|c names IH]; simpl; [discriminate|].
  destruct (dict_get c params) as [p|].
  - destruct (default p); [intros [= <-]; eauto | exact IH].
  - intros [= <-]. eauto.
Qed.

Lemma check_path_args_offender (h : string) (params : dict Param)
      (names : list string) (e : exn) :
  check_path_args h params names = Raise e ->
  exists x, In x names
            /\ (dict_get x params = None
                \/ exists q d, dict_get x params = Some q /\ default q = Some d).
Proof.
  induction names as [|c names IH]; simpl; [discriminate|].
  destruct (dict_get c params) as [q|] eqn:Hq.
  - destruct (default q) as [d|] eqn:Hd.
    + intros _. exists c. split; [left; reflexivity|]. right. eauto.
    + intro H. destruct (IH H) as [x [Hin Hx]]. exists x. auto.
  - intros _. exists c. auto.
Qed.

Lemma check_path_args_cases (h : string) (params : dict Param) (names : list string) :
  check_path_args h params names = Ok tt
  \/ exists msg, check_path_args h params names = Raise (DefinitionError msg).
Proof.
  destruct (check_path_args h params names) as [[]|e] eqn:E; [left; reflexivity|].
  right. destruct (check_path_args_Raise _ _ _ _ E) as [msg ->]. eauto.
Qed.

(** What [HandlerDef.__init__] and [_add_route] come to. *)
Lemma HandlerDef__init__eq (u : string) (f : function) :
  HandlerDef__init__ u f =
  ([EvSignature (__name__ f)],
   match _extract_path_args u f (params_of f) with
   | Ok names =>
       Ok {| uri := u; handler := f; _params := params_of f;
             path_args := names;
             query_args := _extract_query_arguments (params_of f) names;
             consumes := None; produces := None |}
   | Raise e => Raise e
   end).
Proof.
  unfold HandlerDef__init__. rewrite bind_emit.
  destruct (_extract_path_args u f (params_of f)); reflexivity.
Qed.

Lemma add_route_eq (m : http_method) (f : function) (fragments : list string)
      (c p : option string) (self : CalmApp) :
  _add_route m f fragments c p self =
  ([EvSignature (__name__ f)],
   match outcome_of (HandlerDef__init__ (_normalize_uri fragments) f) with
   | Ok hd =>
       Ok {| _route_map :=
               dict_set (_normalize_uri fragments)
                 (dict_set (lower m)
                    (set_resources hd (getattr_or (attr_consumes f) c)
                                      (getattr_or (attr_produces f) p))
                    (match dict_get (_normalize_uri fragments) (_route_map self) with
                     | Some d => d
                     | None => []
                     end))
                 (_route_map self);
             _custom_handlers := _custom_handlers self;
             _ws_map := _ws_map self |}
   | Raise e => Raise e
   end).
Proof.
  unfold _add_route. rewrite HandlerDef__init__eq. simpl.
  destruct (_extract_path_args (_normalize_uri fragments) f (params_of f));
    reflexivity.
Qed.

(** C4.  When the pattern compiles, with capture names [names],
    registration fails with [DefinitionError] exactly when some capture
    name has no parameter of that name after the first one, or has one
    that carries a default value; and when no capture name is of either
    kind the route is registered. *)
Theorem registration_fails_iff_bad_path_argument
        (m : http_method) (f : function) (fragments : list string)
        (c p : option string) (self : CalmApp) (names : list string) :
  distinct_parameters f ->
  re_groupindex (_normalize_uri fragments) = Some names ->
  ((exists msg,
       outcome_of (_add_route m f fragments c p self) = Raise (DefinitionError msg))
   <-> (exists x, In x names /\ (lacks_parameter f x \/ optional_parameter f x)))
  /\ ((forall x, In x names -> ~ (lacks_parameter f x \/ optional_parameter f x))
      -> exists hd self',
        outcome_of (HandlerDef__init__ (_normalize_uri fragments) f) = Ok hd
        /\ path_args hd = names
        /\ outcome_of (_add_route m f fragments c p self) = Ok self'
        /\ (exists methods,
               dict_get (_normalize_uri fragments) (_route_map self') = Some methods
               /\ dict_get (lower m) methods
                  = Some (set_resources hd (getattr_or (attr_consumes f) c)
                                           (getattr_or (attr_produces f) p)))).
Proof.
  intros Hnd Hre.
  assert (Hok : check_path_args (__name__ f) (params_of f) names = Ok tt <->
                forall x, In x names ->
                          ~ (lacks_parameter f x \/ optional_parameter f x)).
  { rewrite check_path_args_Ok. split.
    - intros H x Hin [Hl|[q [Hq [Hn Hd]]]].
      + destruct (H x Hin) as [q [Hq _]].
        apply params_of_None in Hl. congruence.
      + destruct (H x Hin) as [q' [Hq' Hd']].
        assert (dict_get x (params_of f) = Some q)
          by (apply params_of_Some; auto).
        congruence.
    - intros H x Hin.
      destruct (dict_get x (params_of f)) as [q|] eqn:Hq.
      + exists q. split; [reflexivity|].
        destruct (default q) eqn:Hd; [|reflexivity].
        exfalso. apply (H x Hin). right. exists q.
        apply params_of_Some in Hq; [|exact Hnd]. destruct Hq.
        repeat split; auto. congruence.
      + exfalso. apply (H x Hin). left. apply params_of_None. exact Hq. }
  rewrite add_route_eq, HandlerDef__init__eq. unfold _extract_path_args.
  rewrite Hre. simpl.
  destruct (check_path_args_cases (__name__ f) (params_of f) names) as [E|[msg E]].
  - rewrite E. simpl. split.
    + split.
      * intros [msg' Hm]. discriminate.
      * intros [x [Hin Hbad]]. exfalso.
        apply (proj1 Hok E x Hin). exact Hbad.
    + intros _. eexists. eexists. split; [reflexivity|].
      split; [reflexivity|]. split; [reflexivity|].
      eexists. simpl. rewrite dict_get_set, String.eqb_refl.
      split; [reflexivity|]. rewrite dict_get_set, String.eqb_refl. reflexivity.
  - rewrite E. simpl. split.
    + split.
      * intros _.
        destruct (check_path_args_offender _ _ _ _ E) as [x [Hin [Hq|[q [d [Hq Hd]]]]]];
          exists x; (split; [exact Hin|]).
        -- left. apply params_of_None. exact Hq.
        -- right. exists q. apply params_of_Some in Hq; [|exact Hnd].
           destruct Hq. repeat split; auto. congruence.
      * intros _. eauto.
    + intro H. apply Hok in H. congruence.
Qed.

End Contract.

(** ** The dispatcher *)

Section Dispatch.
Context {env : Env}.

(** The four ways a request to a handler definition can go: one of the
    three steps before the call raises, or the handler is called. *)
Lemma handle_request_query_error (self : MainHandler) (request : Request)
      (hd : HandlerDef) (kwargs : dict string) (e : exn) :
  klass self = MainHandlerClass ->
  _get_query_args request hd = Raise e ->
  _handle_request self request (Some hd) kwargs = ([], Raise e).
Proof.
  intros Hk Hq. unfold _handle_request. rewrite Hk, Hq. reflexivity.
Qed.

Lemma handle_request_cast_error (self : MainHandler) (request : Request)
      (hd : HandlerDef) (kwargs qa : dict string) (e : exn) :
  klass self = MainHandlerClass ->
  _get_query_args request hd = Ok qa ->
  _cast_args self (handler hd) (dict_update kwargs qa) = Raise e ->
  _handle_request self request (Some hd) kwargs = ([], Raise e).
Proof.
  intros Hk Hq Hc. unfold _handle_request.
  rewrite Hk, Hq, bind_lift_Ok, Hc. reflexivity.
Qed.

Lemma handle_request_body_error (self : MainHandler) (request : Request)
      (hd : HandlerDef) (kwargs qa : dict string) (args : dict pyvalue) (e : exn) :
  klass self = MainHandlerClass ->
  _get_query_args request hd = Ok qa ->
  _cast_args self (handler hd) (dict_update kwargs qa) = Ok args ->
  _parse_and_update_body request = Raise e ->
  _handle_request self request (Some hd) kwargs = ([], Raise e).
Proof.
  intros Hk Hq Hc Hb. unfold _handle_request.
  rewrite Hk, Hq, bind_lift_Ok, Hc, bind_lift_Ok, Hb. reflexivity.
Qed.

Lemma handle_request_call (self : MainHandler) (request request' : Request)
      (hd : HandlerDef) (kwargs qa : dict string) (args : dict pyvalue) :
  klass self = MainHandlerClass ->
  _get_query_args request hd = Ok qa ->
  _cast_args self (handler hd) (dict_update kwargs qa) = Ok args ->
  _parse_and_update_body request = Ok request' ->
  _handle_request self request (Some hd) kwargs =
  (invocation (handler hd) args,
   match call (handler hd) request' args with
   | Ok v => _write_response v
   | Raise e => Raise e
   end).
Proof.
  intros Hk Hq Hc Hb. unfold _handle_request, invocation.
  rewrite Hk, Hq, bind_lift_Ok, Hc, bind_lift_Ok, Hb, bind_lift_Ok.
  rewrite bind_emit. f_equal.
  - f_equal. destruct (iscoroutinefunction (handler hd)).
    + unfold trace_of. simpl.
      destruct (call (handler hd) request' args); reflexivity.
    + unfold trace_of. simpl.
      destruct (call (handler hd) request' args); reflexivity.
  - destruct (iscoroutinefunction (handler hd)); unfold outcome_of; simpl;
      destruct (call (handler hd) request' args); reflexivity.
Qed.

(** A client error goes out with its own status and message, anything
    else with status 500 and the fixed message. *)
Lemma respond_client_error (w : World) (self : MainHandler) (t : list event)
      (e : exn) (k : string) :
  error_key (CalmApp_config w) = Ok k ->
  is_client_error e = true ->
  respond w self (t, Raise e) =
  (t, Ok {| status_code := exn_code e; written := JObj [(k, JStr (exn_message e))] |}).
Proof.
  intros Hk He. unfold respond, write_error, _write_client_error, self_config.
  simpl. rewrite He, Hk. reflexivity.
Qed.

Lemma respond_server_error (w : World) (self : MainHandler) (t : list event)
      (e : exn) (k : string) :
  error_key (CalmApp_config w) = Ok k ->
  is_client_error e = false ->
  respond w self (t, Raise e) =
  (t, Ok {| status_code := 500; written := JObj [(k, JStr server_error_message)] |}).
Proof.
  intros Hk He. unfold respond, write_error, _write_server_error, self_config.
  simpl. rewrite He, Hk. reflexivity.
Qed.

(** The routes [make_app] builds from the route map hold the methods
    registered for their pattern and the default handler arguments. *)
Lemma make_app_routes (self : nat) (w : World) (application : Application) :
  make_app self w = Some application ->
  exists app,
    nth_error (instances w) self = Some app
    /\ arg_methods (default_handler_args application) = []
    /\ forall u ip,
        In (RouteMain u ip) (route_defs application) ->
        In (u, arg_methods ip) (_route_map app)
        /\ arg_argument_parser ip
           = arg_argument_parser (default_handler_args application)
        /\ arg_app ip = arg_app (default_handler_args application).
Proof.
  unfold make_app. destruct (nth_error (instances w) self) as [app|]; [|discriminate].
  intros [= <-]. exists app. split; [reflexivity|]. split; [reflexivity|].
  simpl. intros u ip Hin.
  apply in_app_or in Hin. destruct Hin as [Hin|Hin].
  - apply in_map_iff in Hin. destruct Hin as [[u' ms] [E Hin]].
    injection E as <- <-. simpl. auto.
  - exfalso. apply in_app_or in Hin. destruct Hin as [Hin|Hin];
      apply in_map_iff in Hin; destruct Hin as [x [E _]]; discriminate.
Qed.

Lemma make_app_parser (self : nat) (w : World) (application : Application) :
  make_app self w = Some application ->
  parser_configured w ->
  exists p, arg_argument_parser (default_handler_args application) = CfgParser p.
Proof.
  unfold make_app, parser_configured, self_config.
  destruct (nth_error (instances w) self) as [app|]; [|discriminate].
  intros [= <-] Hp. simpl.
  destruct (dict_get "argument_parser" (CalmApp_config w)) as [[s|p]|] eqn:E.
  - exfalso. apply (Hp s). reflexivity.
  - eauto.
  - eauto.
Qed.

Lemma find_route_In (routes : list route_def) (p : string) (r : route_def)
      (kwargs : dict string) :
  find_route routes p = Some (r, kwargs) ->
  In r routes /\ url_match (route_uri r) p = Some kwargs.
Proof.
  induction routes as [|r0 routes IH]; simpl; [discriminate|].
  destruct (url_match (route_uri r0) p) as [kw|] eqn:E.
  - intros [= <- <-]. auto.
  - intro H. destruct (IH H). auto.
Qed.

Lemma find_route_None (routes : list route_def) (p : string) :
  find_route routes p = None <->
  forall r, In r routes -> url_match (route_uri r) p = None.
Proof.
  induction routes as [|r0 routes IH]; simpl.
  - split; [intros _ r [] | reflexivity].
  - destruct (url_match (route_uri r0) p) as [kw|] eqn:E.
    + split; [discriminate|]. intro H. rewrite (H r0 (or_introl eq_refl)) in E.
      discriminate.
    + rewrite IH. split.
      * intros H r [<-|Hin]; auto.
      * intros H r Hin. apply H. right. exact Hin.
Qed.

Lemma init_verb_handler (k : handler_class) (args : handler_args)
      (self : MainHandler) (m : http_method) :
  MainHandler__init__ k args = Ok self ->
  klass self = k
  /\ verb_handler self m = dict_get (lower m) (arg_methods args)
  /\ _app self = arg_app args.
Proof.
  unfold MainHandler__init__. destruct (arg_argument_parser args); [discriminate|].
  intros [= <-]. destruct m; auto.
Qed.

Lemma verb_of_name (m : http_method) : verb_of (verb_name m) = Some m.
Proof. destruct m; reflexivity. Qed.

Lemma verb_of_Some (s : string) (m : http_method) :
  verb_of s = Some m -> s = verb_name m.
Proof.
  unfold verb_of.
  destruct (String.eqb s "GET") eqn:E1;
    [apply String.eqb_eq in E1; intros [= <-]; exact E1|].
  destruct (String.eqb s "POST") eqn:E2;
    [apply String.eqb_eq in E2; intros [= <-]; exact E2|].
  destruct (String.eqb s "PUT") eqn:E3;
    [apply String.eqb_eq in E3; intros [= <-]; exact E3|].
  destruct (String.eqb s "DELETE") eqn:E4;
    [apply String.eqb_eq in E4; intros [= <-]; exact E4|].
  discriminate.
Qed.

Lemma verb_of_named (self : MainHandler) (request : Request)
      (kwargs : dict string) (m : http_method) :
  method request = verb_name m ->
  verb self request kwargs = _handle_request self request (verb_handler self m) kwargs.
Proof. intro H. unfold verb. rewrite H, verb_of_name. reflexivity. Qed.



(** C5.  When the handler returns a value that [json.dumps] cannot
    serialize, [_write_response] raises a [ServerError] whose message
    names the type of the value, and the response that goes out has
    status 500 and is the object with the configured error key and the
    fixed message, whatever the value and its type name are. *)
Theorem unserializable_result_500
        (w : World) (self : MainHandler) (request request' : Request)
        (hd : HandlerDef) (kwargs qa : dict string) (args : dict pyvalue)
        (v : pyvalue) (k : string) :
  klass self = MainHandlerClass ->
  error_key (CalmApp_config w) = Ok k ->
  _get_query_args request hd = Ok qa ->
  _cast_args self (handler hd) (dict_update kwargs qa) = Ok args ->
  _parse_and_update_body request = Ok request' ->
  call (handler hd) request' args = Ok v ->
  json_dumps (json_result v) = None ->
  outcome_of (_handle_request self request (Some hd) kwargs)
  = Raise (ServerError ("Could not serialize '" ++ type_name_of v ++ "' to JSON"))
  /\ respond w self (_handle_request self request (Some hd) kwargs)
     = (invocation (handler hd) args,
        Ok {| status_code := 500;
              written := JObj [(k, JStr server_error_message)] |}).
Proof.
  intros Hk Hkey Hq Hc Hb Hcall Hdump.
  rewrite (handle_request_call _ _ _ _ _ _ _ Hk Hq Hc Hb), Hcall.
  unfold _write_response. rewrite Hdump. split; [reflexivity|].
  apply respond_server_error; [exact Hkey | reflexivity].
Qed.

(** *** Type coercion *)

Lemma cast_arg_declared (parse : parser) (arg_types : dict ann) (arg raw : string) :
  cast_arg parse (dict_get arg arg_types) raw
  = match declared_type arg_types arg with
    | Some t => parse t raw
    | None => Ok (VStr raw)
    end.
Proof.
  unfold cast_arg, declared_type.
  destruct (dict_get arg arg_types) as [t|]; [|reflexivity].
  destruct (ann_truthy t); reflexivity.
Qed.

Lemma cast_args_step (parse : parser) (arg_types : dict ann)
      (arg raw : string) (rest : dict string) :
  cast_args_loop parse arg_types ((arg, raw) :: rest)
  = match
      match declared_type arg_types arg with
      | Some t => parse t raw
      | None => Ok (VStr raw)
      end
    with
    | Ok v =>
        match cast_args_loop parse arg_types rest with
        | Ok rest' => Ok ((arg, v) :: rest')
        | Raise e => Raise e
        end
    | Raise e => Raise e
    end.
Proof. simpl. rewrite cast_arg_declared. reflexivity. Qed.

Lemma cast_args_Ok (parse : parser) (arg_types : dict ann)
      (raw_args : dict string) (args : dict pyvalue) :
  cast_args_loop parse arg_types raw_args = Ok args ->
  Forall2 (cast_of parse arg_types) raw_args args.
Proof.
  revert args. induction raw_args as [|[arg raw] rest IH]; intros args.
  - intros [= <-]. constructor.
  - rewrite cast_args_step.
    destruct (declared_type arg_types arg) as [t|] eqn:Et.
    + destruct (parse t raw) as [v|] eqn:Ev; [|discriminate].
      destruct (cast_args_loop parse arg_types rest) as [rest'|]; [|discriminate].
      intros [= <-]. constructor; [|apply IH; reflexivity].
      unfold cast_of. simpl. rewrite Et. auto.
    + destruct (cast_args_loop parse arg_types rest) as [rest'|]; [|discriminate].
      intros [= <-]. constructor; [|apply IH; reflexivity].
      unfold cast_of. simpl. rewrite Et. auto.
Qed.

(** [_cast_args] succeeds when the parser accepts every argument that
    has a declared type. *)
Lemma cast_args_total (parse : parser) (arg_types : dict ann)
      (raw_args : dict string) :
  (forall arg raw t,
      In (arg, raw) raw_args -> declared_type arg_types arg = Some t ->
      exists v, parse t raw = Ok v) ->
  exists args, cast_args_loop parse arg_types raw_args = Ok args.
Proof.
  induction raw_args as [|[arg raw] rest IH]; intro H; [eexists; reflexivity|].
  rewrite cast_args_step.
  destruct IH as [rest' Hrest].
  { intros a r t Hin. apply H. right. exact Hin. }
  rewrite Hrest.
  destruct (declared_type arg_types arg) as [t|] eqn:Et; [|eauto].
  destruct (H arg raw t (or_introl eq_refl) Et) as [v ->]. eauto.
Qed.

(** An error of [_cast_args] is the error of the parser on the first
    argument it refuses, and the parser's refusal of any argument with a
    declared type makes [_cast_args] fail. *)
Lemma cast_args_Raise (parse : parser) (arg_types : dict ann)
      (raw_args : dict string) (e : exn) :
  cast_args_loop parse arg_types raw_args = Raise e ->
  exists arg raw t, first_refused parse arg_types raw_args arg raw t e.
Proof.
  induction raw_args as [|[arg raw] rest IH]; [discriminate|].
  rewrite cast_args_step.
  assert (Hrest : match cast_args_loop parse arg_types rest with
                  | Ok _ => True
                  | Raise e' => e' = e
                  end ->
                  (forall v, match declared_type arg_types arg with
                             | Some t => parse t raw = Ok v
                             | None => True
                             end ->
                             match cast_args_loop parse arg_types rest with
                             | Ok _ => False
                             | Raise _ => True
                             end ->
                             exists arg' raw' t',
                               first_refused parse arg_types ((arg, raw) :: rest)
                                 arg' raw' t' e)).
  { intros He v Hv Hr.
    destruct (cast_args_loop parse arg_types rest) as [|e']; [destruct Hr|].
    subst e'. destruct (IH eq_refl) as [a [r [t' [before [after [E [Hd [Hp Hb]]]]]]]].
    exists a, r, t', ((arg, raw) :: before), after.
    split; [rewrite E; reflexivity|]. split; [exact Hd|]. split; [exact Hp|].
    intros a' r' t'' [[= <- <-]|Hin] Hd'.
    - rewrite Hd' in Hv. eauto.
    - eauto. }
  destruct (declared_type arg_types arg) as [t|] eqn:Et.
  - destruct (parse t raw) as [v|e'] eqn:Ev.
    + destruct (cast_args_loop parse arg_types rest) as [rest'|e''] eqn:Er;
        [discriminate|].
      intros [= <-]. apply (Hrest eq_refl v eq_refl I).
    + intros [= <-]. exists arg, raw, t, [], rest.
      split; [reflexivity|]. split; [exact Et|]. split; [exact Ev|].
      intros a r t' [].
  - destruct (cast_args_loop parse arg_types rest) as [rest'|e''] eqn:Er;
      [discriminate|].
    intros [= <-]. apply (Hrest eq_refl VNone I I).
Qed.

Lemma Forall2_pick {A B} (R : A -> B -> Prop) (l : list A) (l' : list B) (x : A) :
  Forall2 R l l' -> In x l -> exists y, In y l' /\ R x y.
Proof.
  induction 1 as [|a b l l' HR _ IH]; intros Hin; [destruct Hin|].
  destruct Hin as [->|Hin].
  - exists b. split; [left; reflexivity | exact HR].
  - destruct (IH Hin) as [y [Hy HRy]]. exists y. split; [right; exact Hy | exact HRy].
Qed.

Lemma cast_args_fails (parse : parser) (arg_types : dict ann)
      (raw_args : dict string) (arg raw : string) (t : ann) (e0 : exn) :
  In (arg, raw) raw_args ->
  declared_type arg_types arg = Some t ->
  parse t raw = Raise e0 ->
  exists e, cast_args_loop parse arg_types raw_args = Raise e.
Proof.
  intros Hin Ht Hp.
  destruct (cast_args_loop parse arg_types raw_args) as [args|e] eqn:E; [|eauto].
  exfalso. apply cast_args_Ok in E.
  destruct (Forall2_pick _ _ _ _ E Hin) as [[a v] [_ [_ Hc]]]. simpl in Hc.
  rewrite Ht in Hc. congruence.
Qed.

(** The annotation [_cast_args] finds for a parameter is the one the
    parameter declares. *)
Lemma annotations_of_parameter (f : function) (p : Param) :
  NoDup (map name (parameters f)) ->
  In p (parameters f) ->
  dict_get (name p) (__annotations__ f) = annotation p.
Proof.
  unfold __annotations__.
  set (step := fun (d : dict ann) (q : Param) =>
                 match annotation q with
                 | Some t => dict_set (name q) t d
                 | None => d
                 end).
  assert (Hout : forall ps d a,
             ~ In a (map name ps) ->
             dict_get a (fold_left step ps d) = dict_get a d).
  { induction ps as [|q ps IH]; intros d a Hn; simpl; [reflexivity|].
    rewrite IH by (intro H; apply Hn; right; exact H).
    unfold step. destruct (annotation q); [|reflexivity].
    rewrite dict_get_set.
    destruct (String.eqb a (name q)) eqn:E; [|reflexivity].
    apply String.eqb_eq in E. exfalso. apply Hn. left. congruence. }
  assert (Hin : forall ps d,
             NoDup (map name ps) -> In p ps ->
             dict_get (name p) (fold_left step ps d)
             = match annotation p with
               | Some t => Some t
               | None => dict_get (name p) d
               end).
  { induction ps as [|q ps IH]; intros d Hnd Hp; [destruct Hp|].
    simpl in *. inversion Hnd as [|? ? Hnot Hnd']; subst.
    destruct Hp as [->|Hp].
    - rewrite Hout by exact Hnot. unfold step.
      destruct (annotation p); [|reflexivity].
      rewrite dict_get_set, String.eqb_refl. reflexivity.
    - rewrite IH by assumption.
      destruct (annotation p); [reflexivity|].
      unfold step. destruct (annotation q); [|reflexivity].
      rewrite dict_get_set.
      destruct (String.eqb (name p) (name q)) eqn:E; [|reflexivity].
      apply String.eqb_eq in E. exfalso. apply Hnot. rewrite <- E.
      apply in_map. exact Hp. }
  intros Hnd Hp. rewrite (Hin _ [] Hnd Hp).
  destruct (annotation p); reflexivity.
Qed.

(** C3, as the code has it.  For a request whose query arguments were
    extracted, an argument has a declared type when its name is annotated
    and the annotation is true.  When the parser of the dispatcher
    accepts the raw string of every argument that has a declared type,
    [_cast_args] succeeds, every such argument is the parser's reading
    of its raw string at that type, and every other argument, not
    annotated or with an annotation that is false, is its raw string.
    When the parser refuses one, the error of the first refusal leaves
    [_handle_request] unchanged, before any call; with the built-in
    parser it is a [BadRequestError] and the response has status 400. *)
Theorem declared_type_is_coerced
        (w : World) (self : MainHandler) (request : Request) (hd : HandlerDef)
        (kwargs qa : dict string) (k : string) :
  klass self = MainHandlerClass ->
  error_key (CalmApp_config w) = Ok k ->
  _get_query_args request hd = Ok qa ->
  ((forall arg raw t,
       In (arg, raw) (dict_update kwargs qa) ->
       declared_type (__annotations__ (handler hd)) arg = Some t ->
       exists v, _argument_parser self t raw = Ok v) ->
   exists args,
     _cast_args self (handler hd) (dict_update kwargs qa) = Ok args
     /\ Forall2 (cast_of (_argument_parser self) (__annotations__ (handler hd)))
          (dict_update kwargs qa) args
     /\ forall arg raw,
         In (arg, raw) (dict_update kwargs qa) ->
         match dict_get arg (__annotations__ (handler hd)) with
         | Some t => ann_truthy t = false
         | None => True
         end ->
         In (arg, VStr raw) args)
  /\ (forall arg raw t e0,
         In (arg, raw) (dict_update kwargs qa) ->
         declared_type (__annotations__ (handler hd)) arg = Some t ->
         _argument_parser self t raw = Raise e0 ->
         exists arg' raw' t' e,
           first_refused (_argument_parser self) (__annotations__ (handler hd))
             (dict_update kwargs qa) arg' raw' t' e
           /\ _cast_args self (handler hd) (dict_update kwargs qa) = Raise e
           /\ _handle_request self request (Some hd) kwargs = ([], Raise e))
  /\ (forall table arg raw t,
         _argument_parser self = ArgumentParser table ->
         In (arg, raw) (dict_update kwargs qa) ->
         declared_type (__annotations__ (handler hd)) arg = Some t ->
         table t raw = None ->
         exists m,
           _handle_request self request (Some hd) kwargs
           = ([], Raise (BadRequestError m))
           /\ respond w self (_handle_request self request (Some hd) kwargs)
              = ([], Ok {| status_code := 400;
                           written := JObj [(k, JStr (exn_message (BadRequestError m)))] |})).
Proof.
  intros Hk Hkey Hq.
  assert (Hfail : forall arg raw t e0,
             In (arg, raw) (dict_update kwargs qa) ->
             declared_type (__annotations__ (handler hd)) arg = Some t ->
             _argument_parser self t raw = Raise e0 ->
             exists arg' raw' t' e,
               first_refused (_argument_parser self) (__annotations__ (handler hd))
                 (dict_update kwargs qa) arg' raw' t' e
               /\ _cast_args self (handler hd) (dict_update kwargs qa) = Raise e
               /\ _handle_request self request (Some hd) kwargs = ([], Raise e)).
  { intros arg raw t e0 Hin Ht Hp.
    destruct (cast_args_fails _ _ _ _ _ _ _ Hin Ht Hp) as [e He].
    destruct (cast_args_Raise _ _ _ _ He) as [a [r [t' Hfirst]]].
    exists a, r, t', e. split; [exact Hfirst|]. split; [exact He|].
    exact (handle_request_cast_error _ _ _ _ _ _ Hk Hq He). }
  split; [|split; [exact Hfail|]].
  - intro Hall.
    destruct (cast_args_total _ _ _ Hall) as [args Hargs].
    exists args. split; [exact Hargs|].
    pose proof (cast_args_Ok _ _ _ _ Hargs) as HF.
    split; [exact HF|].
    intros arg raw Hin Hann.
    destruct (Forall2_pick _ _ _ _ HF Hin) as [[a v] [Hy [Ha Hv]]].
    simpl in Ha, Hv. subst a.
    assert (Hd : declared_type (__annotations__ (handler hd)) arg = None).
    { unfold declared_type.
      destruct (dict_get arg (__annotations__ (handler hd))) as [t|]; [|reflexivity].
      rewrite Hann. reflexivity. }
    rewrite Hd in Hv. subst v. exact Hy.
  - intros table arg raw t Hparser Hin Ht Htable.
    assert (Hp : _argument_parser self t raw
                 = Raise (BadRequestError ("Bad value '" ++ raw ++ "'"))).
    { rewrite Hparser. unfold ArgumentParser. rewrite Htable. reflexivity. }
    destruct (Hfail arg raw t _ Hin Ht Hp)
      as [a [r [t' [e [[before [after [_ [_ [Hpe _]]]]] [_ Hrun]]]]]].
    rewrite Hparser in Hpe. unfold ArgumentParser in Hpe.
    destruct (table t' r); [discriminate|]. injection Hpe as <-.
    exists ("Bad value '" ++ r ++ "'"). split; [exact Hrun|]. rewrite Hrun.
    apply (respond_client_error w self [] (BadRequestError ("Bad value '" ++ r ++ "'"))
             k Hkey eq_refl).
Qed.

(** *** The request body *)

Lemma parse_body_empty (request : Request) :
  body request = VBytes [] -> _parse_and_update_body request = Ok request.
Proof. intro H. unfold _parse_and_update_body. rewrite H. reflexivity. Qed.

Lemma parse_body_json (request : Request) (bs : list byte) (text : string)
      (v : pyvalue) :
  body request = VBytes bs -> bs <> [] ->
  decode_utf8 bs = Some text -> json_loads text = Some v ->
  _parse_and_update_body request
  = Ok {| method := method request; path := path request;
          query_arguments := query_arguments request; body := v |}.
Proof.
  intros H Hne Hd Hj. unfold _parse_and_update_body. rewrite H. simpl.
  destruct bs; [congruence|]. rewrite Hd, Hj. reflexivity.
Qed.

Lemma parse_body_malformed_text (request : Request) (bs : list byte)
      (text : string) :
  body request = VBytes bs -> bs <> [] ->
  decode_utf8 bs = Some text -> json_loads text = None ->
  _parse_and_update_body request
  = Raise (BadRequestError "Malformed request body. JSON is expected.").
Proof.
  intros H Hne Hd Hj. unfold _parse_and_update_body. rewrite H. simpl.
  destruct bs; [congruence|]. rewrite Hd, Hj. reflexivity.
Qed.

Lemma parse_body_undecodable (request : Request) (bs : list byte) :
  body request = VBytes bs -> decode_utf8 bs = None ->
  _parse_and_update_body request = Raise UnicodeDecodeError.
Proof.
  intros H Hd. unfold _parse_and_update_body. rewrite H. simpl.
  destruct bs; [discriminate|]. rewrite Hd. reflexivity.
Qed.

(** A body that is not UTF-8 text stops the request before the call, with
    an exception that is not a client error: the response has status 500. *)
Lemma undecodable_body_500 (w : World) (self : MainHandler) (request : Request)
      (hd : HandlerDef) (kwargs qa : dict string) (args : dict pyvalue)
      (bs : list byte) (k : string) :
  klass self = MainHandlerClass ->
  error_key (CalmApp_config w) = Ok k ->
  _get_query_args request hd = Ok qa ->
  _cast_args self (handler hd) (dict_update kwargs qa) = Ok args ->
  body request = VBytes bs -> decode_utf8 bs = None ->
  respond w self (_handle_request self request (Some hd) kwargs)
  = ([], Ok {| status_code := 500;
               written := JObj [(k, JStr server_error_message)] |}).
Proof.
  intros Hk Hkey Hq Hc Hb Hd.
  rewrite (handle_request_body_error _ _ _ _ _ _ _ Hk Hq Hc
             (parse_body_undecodable _ _ Hb Hd)).
  apply respond_server_error; [exact Hkey | reflexivity].
Qed.

End Dispatch.

(** C1, at the requests [PATCH /nowhere] and [PATCH /users/42] to the
    example application, which has a handler for GET under
    [/users/:id] and none for PATCH.  No pattern matches the first path
    and the answer is not 404; a pattern matches the second, the verb
    has no handler under it, and the answer is not 405: both are
    answered with status 500 and the fixed message, [OPTIONS] as well,
    because MainHandler has no method for the verb and [write_error]
    takes the [HTTPError(405)] of Tornado for a server error.  With one
    of the four verbs MainHandler has a method for, the same two paths
    are answered with 404 and with 405.  No handler is called. *)
Theorem unimplemented_verb_is_server_error :
  handle example_world example_application (raw_request "PATCH" "/nowhere" [])
  = Dispatched []
      (Ok {| status_code := 500;
             written := JObj [("error", JStr server_error_message)] |})
  /\ handle example_world example_application (raw_request "PATCH" "/users/42" [])
     = Dispatched []
         (Ok {| status_code := 500;
                written := JObj [("error", JStr server_error_message)] |})
  /\ handle example_world example_application (raw_request "OPTIONS" "/users/42" [])
     = Dispatched []
         (Ok {| status_code := 500;
                written := JObj [("error", JStr server_error_message)] |})
  /\ handle example_world example_application (raw_request "PUT" "/nowhere" [])
     = Dispatched []
         (Ok {| status_code := 404;
                written := JObj [("error", JStr (class_message NotFoundError))] |})
  /\ handle example_world example_application (raw_request "PUT" "/users/42" [])
     = Dispatched []
         (Ok {| status_code := 405;
                written :=
                  JObj [("error", JStr (class_message MethodNotAllowedError))] |}).
Proof. repeat split. Qed.

(** C3, as stated, fails for [tagged], whose parameter [tag] carries the
    annotation [None]: [_cast_args] does not apply the parser to it.
    Whatever the parser is, the argument stays the raw string; the
    built-in parser refuses the raw string [abc] at that annotation, and
    the request [GET /tagged?tag=abc] is answered with status 200, the
    handler having been called with the raw string. *)
Lemma falsy_annotation_is_not_coerced :
  dict_get "tag" (__annotations__ tagged) = Some (TValue VNone)
  /\ ~ annotated_is_coerced (ArgumentParser coerce) (__annotations__ tagged)
        [("tag", "abc")]
        (cast_args_loop (ArgumentParser coerce) (__annotations__ tagged)
           [("tag", "abc")])
  /\ (forall parse : parser,
        cast_args_loop parse (__annotations__ tagged) [("tag", "abc")]
        = Ok [("tag", VStr "abc")])
  /\ handle example_world3 example_application3
       (example_request GET "/tagged" [("tag", "abc")] [])
     = Dispatched
         [EvIsCoroutineFunction "tagged"; EvWarning "tagged";
          EvCall "tagged" false [("tag", VStr "abc")]]
         (Ok {| status_code := 200; written := JObj [("tag", JStr "abc")] |}).
Proof.
  split; [reflexivity|]. split; [|split; [intro parse; reflexivity | reflexivity]].
  intro H. specialize (H "tag" "abc" (TValue VNone) (or_introl eq_refl) eq_refl).
  vm_compute in H. destruct H as [e He]. discriminate.
Qed.

(** ** The calling convention *)

Section Convention.
Context {env : Env}.

Lemma add_route_trace (m : http_method) (f : function) (fragments : list string)
      (c p : option string) (self : CalmApp) :
  trace_of (_add_route m f fragments c p self) = [EvSignature (__name__ f)].
Proof. rewrite add_route_eq. reflexivity. Qed.

Lemma invocation_counts (f : function) (args : dict pyvalue) :
  count_inspections (invocation f args) = 1 /\ count_calls (invocation f args) = 1.
Proof.
  unfold invocation, count_inspections, count_calls.
  destruct (iscoroutinefunction f); simpl; auto.
Qed.

(** A request inspects the calling convention as many times as it calls
    the handler. *)
Lemma handle_request_counts (self : MainHandler) (request : Request)
      (hd : HandlerDef) (kwargs : dict string) :
  klass self = MainHandlerClass ->
  count_inspections (trace_of (_handle_request self request (Some hd) kwargs))
  = count_calls (trace_of (_handle_request self request (Some hd) kwargs)).
Proof.
  intro Hk.
  destruct (_get_query_args request hd) as [qa|e] eqn:Hq.
  2:{ rewrite (handle_request_query_error _ _ _ _ _ Hk Hq). reflexivity. }
  destruct (_cast_args self (handler hd) (dict_update kwargs qa)) as [args|e] eqn:Hc.
  2:{ rewrite (handle_request_cast_error _ _ _ _ _ _ Hk Hq Hc). reflexivity. }
  destruct (_parse_and_update_body request) as [request'|e] eqn:Hb.
  2:{ rewrite (handle_request_body_error _ _ _ _ _ _ _ Hk Hq Hc Hb). reflexivity. }
  rewrite (handle_request_call _ _ _ _ _ _ _ Hk Hq Hc Hb). unfold trace_of. simpl.
  destruct (invocation_counts (handler hd) args) as [-> ->]. reflexivity.
Qed.

(** The outcome of a request does not depend on the convention of the
    handler. *)
Lemma handle_request_convention (self : MainHandler) (request : Request)
      (hd : HandlerDef) (kwargs : dict string) (b : bool) :
  klass self = MainHandlerClass ->
  outcome_of (_handle_request self request
                (Some (with_handler hd (with_convention b (handler hd)))) kwargs)
  = outcome_of (_handle_request self request (Some hd) kwargs).
Proof.
  intro Hk.
  set (hd' := with_handler hd (with_convention b (handler hd))).
  destruct (_get_query_args request hd) as [qa|e] eqn:Hq.
  2:{ rewrite (handle_request_query_error _ _ _ _ _ Hk Hq).
      rewrite (handle_request_query_error self request hd' kwargs e Hk Hq).
      reflexivity. }
  destruct (_cast_args self (handler hd) (dict_update kwargs qa)) as [args|e] eqn:Hc.
  2:{ rewrite (handle_request_cast_error _ _ _ _ _ _ Hk Hq Hc).
      rewrite (handle_request_cast_error self request hd' kwargs qa e Hk Hq Hc).
      reflexivity. }
  destruct (_parse_and_update_body request) as [request'|e] eqn:Hb.
  2:{ rewrite (handle_request_body_error _ _ _ _ _ _ _ Hk Hq Hc Hb).
      rewrite (handle_request_body_error self request hd' kwargs qa args e Hk Hq Hc Hb).
      reflexivity. }
  rewrite (handle_request_call _ _ _ _ _ _ _ Hk Hq Hc Hb).
  rewrite (handle_request_call self request request' hd' kwargs qa args Hk Hq Hc Hb).
  reflexivity.
Qed.

(** C8, as the code has it.  Registration reads the signature of the
    handler and does not inspect its calling convention; a request
    inspects it each time it reaches the call, once for one call, and
    then awaits a coroutine function and calls any other function
    directly (with a warning in the log); the outcome of the request is
    the same under either convention. *)
Theorem calling_convention_inspected_per_request
        (m : http_method) (f : function) (fragments : list string)
        (c p : option string) (app : CalmApp)
        (self : MainHandler) (request : Request) (hd : HandlerDef)
        (kwargs : dict string) (b : bool) :
  klass self = MainHandlerClass ->
  count_inspections (trace_of (_add_route m f fragments c p app)) = 0
  /\ count_inspections (trace_of (_handle_request self request (Some hd) kwargs))
     = count_calls (trace_of (_handle_request self request (Some hd) kwargs))
  /\ (forall qa args request',
         _get_query_args request hd = Ok qa ->
         _cast_args self (handler hd) (dict_update kwargs qa) = Ok args ->
         _parse_and_update_body request = Ok request' ->
         trace_of (_handle_request self request (Some hd) kwargs)
         = invocation (handler hd) args
         /\ count_inspections
              (trace_of (_handle_request self request (Some hd) kwargs)) = 1)
  /\ outcome_of (_handle_request self request
                   (Some (with_handler hd (with_convention b (handler hd)))) kwargs)
     = outcome_of (_handle_request self request (Some hd) kwargs).
Proof.
  intro Hk. split; [rewrite add_route_trace; reflexivity|].
  split; [apply handle_request_counts; exact Hk|].
  split; [|apply handle_request_convention; exact Hk].
  intros qa args request' Hq Hc Hb.
  rewrite (handle_request_call _ _ _ _ _ _ _ Hk Hq Hc Hb). unfold trace_of. simpl.
  split; [reflexivity | apply invocation_counts].
Qed.

End Convention.

(** C8, as stated, fails for the handler [get_user]: its registration
    does not inspect the calling convention, and each of two requests to
    its route does. *)
Lemma convention_not_inspected_at_registration :
  ~ inspected_at_registration_only
      (trace_of (_add_route GET get_user ["/users/:id"] None None CalmApp__init__))
      [ trace_of_served
          (handle example_world example_application
             (example_request GET "/users/42" [] []));
        trace_of_served
          (handle example_world example_application
             (example_request GET "/users/7" [("active", "false")] [])) ].
Proof.
  intros [H _]. vm_compute in H. discriminate.
Qed.

(** ** Redefinition of a route *)

Section Redefinition.
Context {env : Env}.

Lemma lower_inj (m m' : http_method) : lower m = lower m' -> m = m'.
Proof. destruct m, m'; simpl; intro H; try reflexivity; discriminate. Qed.

(** C9, as the code has it.  A second registration for a pattern and verb
    that already have a handler succeeds whenever the contract of the
    second handler can be extracted; the route then holds the second
    handler's definition, which is computed from the second handler
    alone, and every other pattern and verb keeps the definition it
    had. *)
Theorem redefinition_replaces
        (m : http_method) (f1 f2 : function) (fragments : list string)
        (c1 p1 c2 p2 : option string) (app app1 : CalmApp) (hd2 : HandlerDef) :
  outcome_of (_add_route m f1 fragments c1 p1 app) = Ok app1 ->
  outcome_of (HandlerDef__init__ (_normalize_uri fragments) f2) = Ok hd2 ->
  exists app2,
    _add_route m f2 fragments c2 p2 app1 = ([EvSignature (__name__ f2)], Ok app2)
    /\ route_lookup app2 (_normalize_uri fragments) m
       = Some (set_resources hd2 (getattr_or (attr_consumes f2) c2)
                                 (getattr_or (attr_produces f2) p2))
    /\ (forall u m', u <> _normalize_uri fragments \/ m' <> m ->
                     route_lookup app2 u m' = route_lookup app1 u m').
Proof.
  intros _ H2. rewrite add_route_eq, H2.
  eexists. split; [reflexivity|]. split.
  - unfold route_lookup. simpl.
    rewrite dict_get_set, String.eqb_refl, dict_get_set, String.eqb_refl.
    reflexivity.
  - intros u m' Hne. unfold route_lookup. simpl. rewrite dict_get_set.
    destruct (String.eqb u (_normalize_uri fragments)) eqn:E; [|reflexivity].
    apply String.eqb_eq in E. subst u.
    destruct Hne as [Hne|Hne]; [congruence|].
    rewrite dict_get_set.
    destruct (String.eqb (lower m') (lower m)) eqn:E'.
    + apply String.eqb_eq, lower_inj in E'. congruence.
    + destruct (dict_get (_normalize_uri fragments) (_route_map app1)); reflexivity.
Qed.

End Redefinition.

(** C9, as stated, fails: after [get_user] is registered for GET on
    [/users/:id], registering [get_user2] for the same pattern and verb is
    not refused, does nothing but read the signature, and leaves
    [get_user2] in the route. *)
Lemma redefinition_is_silent :
  exists app1 app2,
    outcome_of (_add_route GET get_user ["/users/:id"] None None CalmApp__init__)
    = Ok app1
    /\ option_map (fun hd => __name__ (handler hd))
         (route_lookup app1 (_normalize_uri ["/users/:id"]) GET) = Some "get_user"
    /\ ~ redefinition_refused
           (_add_route GET get_user2 ["/users/:id"] None None app1)
    /\ _add_route GET get_user2 ["/users/:id"] None None app1
       = ([EvSignature "get_user2"], Ok app2)
    /\ option_map (fun hd => __name__ (handler hd))
         (route_lookup app2 (_normalize_uri ["/users/:id"]) GET) = Some "get_user2".
Proof.
  eexists. eexists. split; [vm_compute; reflexivity|].
  split; [vm_compute; reflexivity|].
  split; [intros [e He]; vm_compute in He; discriminate|].
  split; vm_compute; reflexivity.
Qed.

(** ** The configuration *)

Section Configuration.
Context {env : Env}.

Lemma dict_get_update_given {V} (key : string) (v : V) (d kwargs : dict V) :
  NoDup (dict_keys kwargs) -> In (key, v) kwargs ->
  dict_get key (dict_update d kwargs) = Some v.
Proof.
  intros Hnd Hin. rewrite dict_get_update.
  rewrite (dict_get_NoDup key v (rev kwargs)); [reflexivity | | ].
  - unfold dict_keys. rewrite map_rev. apply NoDup_rev. exact Hnd.
  - apply -> in_rev. exact Hin.
Qed.

(** C10.  [configure] called on the instance [a] updates the one dict
    that every instance reads as [self.config]: any instance [b], and an
    instance created afterwards, sees the configuration updated with the
    keyword arguments, no instance is changed, and with it the error key
    a dispatcher of [b] writes and the argument parser [make_app] of [b]
    hands to its dispatchers are the ones given to [a]. *)
Theorem configure_is_shared
        (w : World) (a b : nat) (kwargs : dict config_value) :
  NoDup (dict_keys kwargs) ->
  self_config b (configure a kwargs w) = dict_update (self_config b w) kwargs
  /\ self_config (fst (new_CalmApp (configure a kwargs w)))
       (snd (new_CalmApp (configure a kwargs w)))
     = dict_update (self_config a w) kwargs
  /\ instances (configure a kwargs w) = instances w
  /\ (forall key v, In (key, v) kwargs ->
                    dict_get key (self_config b (configure a kwargs w)) = Some v)
  /\ (forall key, ~ In key (dict_keys kwargs) ->
                  dict_get key (self_config b (configure a kwargs w))
                  = dict_get key (self_config b w))
  /\ (forall k self t e,
         In ("error_key", CfgStr k) kwargs -> _app self = b ->
         is_client_error e = false ->
         respond (configure a kwargs w) self (t, Raise e)
         = (t, Ok {| status_code := 500;
                     written := JObj [(k, JStr server_error_message)] |}))
  /\ (forall p application,
         In ("argument_parser", CfgParser p) kwargs ->
         make_app b (configure a kwargs w) = Some application ->
         arg_argument_parser (default_handler_args application) = CfgParser p).
Proof.
  intro Hnd. unfold self_config, configure. simpl.
  split; [reflexivity|]. split; [reflexivity|]. split; [reflexivity|].
  split; [intros key v Hin; apply dict_get_update_given; assumption|].
  split.
  { intros key Hn. rewrite dict_get_update.
    assert (E : dict_get key (rev kwargs) = None).
    { apply dict_get_None. unfold dict_keys. rewrite map_rev, <- in_rev. exact Hn. }
    rewrite E. reflexivity. }
  split.
  - intros k self t e Hin _ He.
    apply respond_server_error; [|exact He].
    unfold error_key. simpl.
    rewrite (dict_get_update_given _ _ _ _ Hnd Hin). reflexivity.
  - intros p application Hin. unfold make_app, self_config. simpl.
    destruct (nth_error (instances w) b); [|discriminate].
    intros [= <-]. simpl.
    rewrite (dict_get_update_given _ _ _ _ Hnd Hin). reflexivity.
Qed.

End Configuration.

(** C6, at the request [POST /items] with the one-byte body [ff]: the
    body is not empty and is not JSON, [decode] raises
    [UnicodeDecodeError], which [_parse_and_update_body] does not catch,
    and the response has status 500 with the fixed message, where a body
    of well-formed text that is not JSON gets status 400.  In neither
    case is the handler called. *)
Theorem undecodable_body_is_server_error :
  decode_utf8 [xff] = None
  /\ handle example_world example_application
       (example_request POST "/items" [] [xff])
     = Dispatched []
         (Ok {| status_code := 500;
                written := JObj [("error", JStr server_error_message)] |})
  /\ handle example_world example_application
       (example_request POST "/items" [] [x7b])
     = Dispatched []
         (Ok {| status_code := 400;
                written :=
                  JObj [("error", JStr "Malformed request body. JSON is expected.")] |}).
Proof. repeat split. Qed.

(** ** Query arguments *)

Section QueryArguments.
Context {env : Env}.

Lemma dict_set_fresh {V} (k : string) (v : V) (d : dict V) :
  ~ In k (dict_keys d) -> dict_set k v d = (d ++ [(k, v)])%list.
Proof.
  induction d as [|[k0 v0] d IH]; simpl; intro Hn; [reflexivity|].
  destruct (String.eqb k k0) eqn:E.
  - apply String.eqb_eq in E. exfalso. apply Hn. left. congruence.
  - rewrite IH; [reflexivity|]. intro H. apply Hn. right. exact H.
Qed.

Lemma dict_update_fresh {V} (d items : dict V) :
  NoDup (dict_keys items) ->
  (forall x, In x (dict_keys items) -> ~ In x (dict_keys d)) ->
  dict_update d items = (d ++ items)%list.
Proof.
  unfold dict_update. revert d.
  induction items as [|[k v] items IH]; intros d Hnd Hdis; simpl.
  - rewrite app_nil_r. reflexivity.
  - simpl in Hnd. inversion Hnd as [|? ? Hnot Hnd']; subst.
    rewrite dict_set_fresh by (apply Hdis; left; reflexivity).
    rewrite IH; [rewrite <- app_assoc; reflexivity | exact Hnd' |].
    intros x Hx Hin. unfold dict_keys in Hin. rewrite map_app in Hin.
    apply in_app_or in Hin. destruct Hin as [Hin|[<-|[]]].
    + apply (Hdis x); [right; exact Hx | exact Hin].
    + apply Hnot. exact Hx.
Qed.

(** With distinct parameter names, [_params] lists the parameters after
    the first in order, and [query_args] lists those that are not path
    arguments, in order, each with whether it lacks a default. *)
Lemma params_of_distinct (f : function) :
  distinct_parameters f ->
  params_of f = map (fun p => (name p, p)) (tl (parameters f)).
Proof.
  intro Hnd. unfold params_of, dict_of_items.
  rewrite dict_update_fresh; [reflexivity | | intros x _ []].
  unfold dict_keys. rewrite map_map. exact Hnd.
Qed.

Lemma extract_query_arguments_distinct (ps : list Param) (path_args : list string) :
  NoDup (map name ps) ->
  _extract_query_arguments (map (fun p => (name p, p)) ps) path_args
  = map (fun p => (name p, is_empty (default p)))
        (filter (is_query_parameter path_args) ps).
Proof.
  unfold _extract_query_arguments.
  assert (H : forall acc : dict bool,
             NoDup (map name ps) ->
             (forall x, In x (map name ps) -> ~ In x (dict_keys acc)) ->
             fold_left
               (fun query_args kv =>
                  let param := snd kv in
                  if mem_string (name param) path_args then query_args
                  else dict_set (name param) (is_empty (default param)) query_args)
               (map (fun p => (name p, p)) ps) acc
             = (acc ++ map (fun p => (name p, is_empty (default p)))
                           (filter (is_query_parameter path_args) ps))%list).
  { induction ps as [|q ps IH]; intros acc Hnd Hdis; simpl.
    - rewrite app_nil_r. reflexivity.
    - simpl in Hnd. inversion Hnd as [|? ? Hnot Hnd']; subst.
      unfold is_query_parameter at 1.
      destruct (mem_string (name q) path_args) eqn:Em; simpl.
      + apply IH; [exact Hnd'|]. intros x Hx. apply Hdis. right. exact Hx.
      + rewrite dict_set_fresh by (apply Hdis; left; reflexivity).
        rewrite IH; [rewrite <- app_assoc; reflexivity | exact Hnd' |].
        intros x Hx Hin. unfold dict_keys in Hin. rewrite map_app in Hin.
        apply in_app_or in Hin. destruct Hin as [Hin|[<-|[]]].
        * apply (Hdis x); [right; exact Hx | exact Hin].
        * apply Hnot. exact Hx. }
  intro Hnd. exact (H [] Hnd (fun x _ F => F)).
Qed.

Lemma extracted_fields (u : string) (f : function) (hd : HandlerDef) :
  extracted u f hd ->
  handler hd = f
  /\ re_groupindex u = Some (path_args hd)
  /\ check_path_args (__name__ f) (params_of f) (path_args hd) = Ok tt
  /\ query_args hd = _extract_query_arguments (params_of f) (path_args hd).
Proof.
  intros [hd0 [c [p [H ->]]]]. rewrite HandlerDef__init__eq in H.
  unfold outcome_of, _extract_path_args in H. simpl in H.
  destruct (re_groupindex u) as [names|] eqn:Hre; [|discriminate].
  destruct (check_path_args (__name__ f) (params_of f) names) as [[]|] eqn:Hc;
    [|discriminate].
  injection H as <-. simpl. auto.
Qed.

Lemma query_args_distinct (u : string) (f : function) (hd : HandlerDef) :
  distinct_parameters f -> extracted u f hd ->
  query_args hd
  = map (fun p => (name p, is_empty (default p)))
        (filter (is_query_parameter (path_args hd)) (tl (parameters f))).
Proof.
  intros Hnd Hex. destruct (extracted_fields _ _ _ Hex) as [_ [_ [_ ->]]].
  rewrite (params_of_distinct f Hnd).
  apply extract_query_arguments_distinct. exact Hnd.
Qed.

Lemma query_args_of_parameter (ps : list Param) (path_args : list string) (p : Param) :
  NoDup (map name ps) -> In p ps -> ~ In (name p) path_args ->
  In (name p, is_empty (default p))
     (map (fun p => (name p, is_empty (default p)))
          (filter (is_query_parameter path_args) ps))
  /\ dict_get (name p)
       (map (fun p => (name p, is_empty (default p)))
            (filter (is_query_parameter path_args) ps))
     = Some (is_empty (default p)).
Proof.
  intros Hnd Hin Hnp.
  assert (Hmem : In (name p, is_empty (default p))
                    (map (fun p => (name p, is_empty (default p)))
                         (filter (is_query_parameter path_args) ps))).
  { apply in_map_iff. exists p. split; [reflexivity|].
    apply filter_In. split; [exact Hin|].
    unfold is_query_parameter. apply negb_true_iff, mem_string_false. exact Hnp. }
  split; [exact Hmem|].
  apply dict_get_NoDup; [|exact Hmem].
  unfold dict_keys. rewrite map_map. simpl.
  clear Hmem Hin. induction ps as [|q ps IH]; simpl; [constructor|].
  inversion Hnd as [|? ? Hnot Hnd']; subst.
  destruct (is_query_parameter path_args q); simpl; [|auto].
  constructor; [|auto]. intro H. apply Hnot.
  apply in_map_iff in H. destruct H as [x [Hx Hf]].
  apply filter_In in Hf. destruct Hf as [Hf _].
  rewrite <- Hx. apply in_map. exact Hf.
Qed.

Lemma query_args_origin (ps : list Param) (path_args : list string)
      (q : string) (r : bool) :
  In (q, r) (map (fun p => (name p, is_empty (default p)))
                 (filter (is_query_parameter path_args) ps)) ->
  exists p, In p ps /\ name p = q /\ ~ In q path_args /\ r = is_empty (default p).
Proof.
  intro H. apply in_map_iff in H. destruct H as [p [E Hf]].
  injection E as <- <-. apply filter_In in Hf. destruct Hf as [Hin Hk].
  exists p. repeat split; auto.
  unfold is_query_parameter in Hk. apply negb_true_iff, mem_string_false in Hk.
  exact Hk.
Qed.

(** What [get_query_argument] does with the three kinds of query
    string. *)
Lemma get_arguments_error (values : list (list byte)) (e : exn) :
  _get_arguments values = Raise e -> e = HTTPError 400.
Proof.
  induction values as [|v rest IH]; simpl; [discriminate|].
  unfold decode_argument. destruct (decode_utf8 v); [|intros [= <-]; reflexivity].
  destruct (_get_arguments rest); [discriminate|].
  intros [= <-]. apply IH. reflexivity.
Qed.

Lemma get_arguments_Ok (values : list (list byte)) :
  (forall v, In v values -> decode_utf8 v <> None) ->
  exists l, _get_arguments values = Ok l /\ List.length l = List.length values.
Proof.
  induction values as [|v rest IH]; intro H; simpl; [exists []; auto|].
  unfold decode_argument.
  destruct (decode_utf8 v) as [t|] eqn:E;
    [|exfalso; exact (H v (or_introl eq_refl) E)].
  destruct IH as [l [-> Hl]]; [intros x Hx; apply H; right; exact Hx|].
  eexists. split; [reflexivity | simpl; rewrite Hl; reflexivity].
Qed.

Lemma get_arguments_garbled (values : list (list byte)) (v : list byte) :
  In v values -> decode_utf8 v = None ->
  _get_arguments values = Raise (HTTPError 400).
Proof.
  intros Hin Hv.
  destruct (_get_arguments values) as [l|e] eqn:E.
  - exfalso. revert l E. induction values as [|x rest IH]; [destruct Hin|].
    intros l. simpl. unfold decode_argument.
    destruct (decode_utf8 x) as [t|] eqn:Ex; [|discriminate].
    destruct (_get_arguments rest) as [l'|]; [|discriminate].
    intros _. destruct Hin as [->|Hin]; [congruence|].
    exact (IH Hin l' eq_refl).
  - rewrite (get_arguments_error _ _ E). reflexivity.
Qed.

Lemma omits_missing (request : Request) (q : string) :
  omits request q ->
  get_query_argument request q = Raise (MissingArgumentError q).
Proof. unfold omits, get_query_argument. intros ->. reflexivity. Qed.

Lemma garbles_error (request : Request) (q : string) :
  garbles request q -> get_query_argument request q = Raise (HTTPError 400).
Proof.
  intros [v [Hin Hv]]. unfold get_query_argument.
  rewrite (get_arguments_garbled _ v Hin Hv). reflexivity.
Qed.

Lemma gives_value (request : Request) (q : string) :
  gives request q -> exists v, get_query_argument request q = Ok v.
Proof.
  intros [Hne Hall]. unfold get_query_argument.
  destruct (get_arguments_Ok _ Hall) as [l [-> Hl]].
  destruct (rev l) as [|last r] eqn:E; [|eauto].
  exfalso. apply Hne.
  assert (El : l = []) by (rewrite <- (rev_involutive l), E; reflexivity).
  subst l. destruct (query_values request q); [reflexivity | discriminate].
Qed.

Lemma get_query_argument_cases (request : Request) (q : string) :
  gives request q \/ omits request q \/ garbles request q.
Proof.
  unfold gives, omits, garbles.
  induction (query_values request q) as [|v rest IH]; [auto|].
  destruct (decode_utf8 v) eqn:E.
  - destruct IH as [[_ Hall]|[->|[x [Hx Hd]]]].
    + left. split; [discriminate|]. intros x [<-|Hx]; [congruence | auto].
    + left. split; [discriminate|]. intros x [<-|[]]. congruence.
    + right. right. exists x. split; [right|]; assumption.
  - right. right. exists v. split; [left; reflexivity | exact E].
Qed.

(** The outcome of [get_query_argument] tells the three apart. *)
Lemma value_gives (request : Request) (q v : string) :
  get_query_argument request q = Ok v -> gives request q.
Proof.
  intro H. destruct (get_query_argument_cases request q) as [Hg|[Ho|Hg]];
    [exact Hg | |].
  - rewrite (omits_missing _ _ Ho) in H. discriminate.
  - rewrite (garbles_error _ _ Hg) in H. discriminate.
Qed.

Lemma omits_not_gives (request : Request) (q : string) :
  omits request q -> ~ gives request q.
Proof. intros Ho [Hne _]. exact (Hne Ho). Qed.

(** The loop of [_get_query_args], one query argument at a time. *)
Lemma get_query_args_gives (request : Request) (q v : string) (r : bool)
      (items : list (string * bool)) (acc : dict string) :
  get_query_argument request q = Ok v ->
  get_query_args_loop request ((q, r) :: items) acc
  = get_query_args_loop request items (dict_set q v acc).
Proof. intro H. simpl. rewrite H. reflexivity. Qed.

Lemma get_query_args_omits (request : Request) (q : string) (r : bool)
      (items : list (string * bool)) (acc : dict string) :
  omits request q ->
  get_query_args_loop request ((q, r) :: items) acc
  = if r then Raise (BadRequestError
                       ("Missing required query argument '" ++ q ++ "'"))
    else get_query_args_loop request items acc.
Proof.
  intro H. simpl. rewrite (omits_missing _ _ H). destruct r; reflexivity.
Qed.

Lemma get_query_args_garbles (request : Request) (q : string) (r : bool)
      (items : list (string * bool)) (acc : dict string) :
  garbles request q ->
  get_query_args_loop request ((q, r) :: items) acc = Raise (HTTPError 400).
Proof. intro H. simpl. rewrite (garbles_error _ _ H). reflexivity. Qed.

(** It stops at the first required argument the request omits when no
    argument before it has a value that is not UTF-8. *)
Lemma get_query_args_missing (request : Request)
      (before after : list (string * bool)) (acc : dict string) (q : string) :
  omits request q ->
  (forall q' r', In (q', r') before -> ~ garbles request q') ->
  exists q',
    get_query_args_loop request (before ++ (q, true) :: after) acc
    = Raise (BadRequestError ("Missing required query argument '" ++ q' ++ "'")).
Proof.
  intros Hq. revert acc.
  induction before as [|[q0 r0] before IH]; intros acc Hb.
  - simpl app. rewrite (get_query_args_omits _ _ _ _ _ Hq). eauto.
  - assert (Hb' : forall q' r', In (q', r') before -> ~ garbles request q')
      by (intros q' r' H; apply (Hb q' r'); right; exact H).
    simpl app.
    destruct (get_query_argument_cases request q0) as [Hgv|[Ho|Hg]];
      [destruct (gives_value _ _ Hgv) as [v Hv] | |].
    + rewrite (get_query_args_gives _ _ _ _ _ _ Hv). apply IH. exact Hb'.
    + rewrite (get_query_args_omits _ _ _ _ _ Ho).
      destruct r0; [eauto | apply IH; exact Hb'].
    + exfalso. exact (Hb q0 r0 (or_introl eq_refl) Hg).
Qed.

(** It succeeds when every argument passes, and then holds the arguments
    the request gives. *)
Lemma get_query_args_present (request : Request) (items : list (string * bool))
      (acc : dict string) :
  (forall item, In item items -> passes request item) ->
  exists qa,
    get_query_args_loop request items acc = Ok qa
    /\ forall x, In x (dict_keys qa) <->
                 In x (dict_keys acc)
                 \/ (In x (map fst items) /\ gives request x).
Proof.
  revert acc. induction items as [|[q0 r0] items IH]; intros acc Hpass.
  - exists acc. split; [reflexivity|]. intro x. simpl. intuition.
  - assert (Hpass' : forall item, In item items -> passes request item)
      by (intros item H; apply Hpass; right; exact H).
    destruct (Hpass (q0, r0) (or_introl eq_refl)) as [Hgv|[Ho Hr]];
      simpl in Hgv || simpl in Ho, Hr.
    + destruct (gives_value _ _ Hgv) as [v Hv].
      rewrite (get_query_args_gives _ _ _ _ _ _ Hv).
      destruct (IH (dict_set q0 v acc) Hpass') as [qa [Hqa Hkeys]].
      exists qa. split; [exact Hqa|]. intro x. rewrite Hkeys, dict_keys_set.
      simpl. split.
      * intros [[->|H]|[H1 H2]]; auto.
      * intros [H|[[<-|H1] H2]]; auto.
    + subst r0. rewrite (get_query_args_omits _ _ _ _ _ Ho).
      destruct (IH acc Hpass') as [qa [Hqa Hkeys]].
      exists qa. split; [exact Hqa|]. intro x. rewrite Hkeys. simpl. split.
      * intros [H|[H1 H2]]; auto.
      * intros [H|[[<-|H1] H2]]; auto.
        exfalso. exact (omits_not_gives _ _ Ho H2).
Qed.

(** When it succeeds every argument passes. *)
Lemma get_query_args_required (request : Request) (items : list (string * bool))
      (acc qa : dict string) :
  get_query_args_loop request items acc = Ok qa ->
  forall item, In item items -> passes request item.
Proof.
  revert acc. induction items as [|[q0 r0] items IH]; intros acc H item Hin;
    [destruct Hin|].
  destruct (get_query_argument_cases request q0) as [Hgv|[Ho|Hg]];
      [destruct (gives_value _ _ Hgv) as [v Hv] | |].
  - rewrite (get_query_args_gives _ _ _ _ _ _ Hv) in H.
    destruct Hin as [<-|Hin]; [left; exact Hgv | eauto].
  - rewrite (get_query_args_omits _ _ _ _ _ Ho) in H.
    destruct r0; [discriminate|].
    destruct Hin as [<-|Hin]; [right; auto | eauto].
  - rewrite (get_query_args_garbles _ _ _ _ _ Hg) in H. discriminate.
Qed.

Lemma cast_keys (parse : parser) (arg_types : dict ann)
      (raw_args : dict string) (args : dict pyvalue) :
  Forall2 (cast_of parse arg_types) raw_args args ->
  dict_keys args = dict_keys raw_args.
Proof.
  induction 1 as [|ra a raw_args args [Hk _] _ IH]; simpl; [reflexivity|].
  rewrite Hk, IH. reflexivity.
Qed.

(** Binding, for parameters that all take keywords, succeeds when every
    parameter has a value or a default, and a parameter without a value
    is bound to its default. *)
Lemma bind_arguments_Some (ps : list Param) (kwargs extra : dict pyvalue) :
  forallb (fun p => by_keyword (kind p)) ps = true ->
  (forall p, In p ps -> dict_get (name p) kwargs <> None \/ default p <> None) ->
  exists bound,
    bind_arguments ps kwargs extra = Some bound
    /\ dict_keys bound = map name ps
    /\ forall p d, In p ps -> dict_get (name p) kwargs = None ->
                   default p = Some d -> In (name p, d) bound.
Proof.
  induction ps as [|q ps IH]; intros Hkind H; simpl.
  - exists []. split; [reflexivity|]. split; [reflexivity|]. intros p d [].
  - simpl in Hkind. apply andb_true_iff in Hkind. destruct Hkind as [Hq Hkind].
    destruct (IH Hkind) as [bound [Hb [Hkeys Hdef]]].
    { intros p Hp. apply H. right. exact Hp. }
    rewrite Hb.
    assert (E : match kind q with
                | POSITIONAL_OR_KEYWORD | KEYWORD_ONLY =>
                    match dict_get (name q) kwargs with
                    | Some v => Some v
                    | None => default q
                    end
                | POSITIONAL_ONLY => default q
                | VAR_POSITIONAL => Some (VTuple [])
                | VAR_KEYWORD => Some (VDict extra)
                end
                = match dict_get (name q) kwargs with
                  | Some v => Some v
                  | None => default q
                  end)
      by (destruct (kind q); try discriminate; reflexivity).
    rewrite E.
    destruct (dict_get (name q) kwargs) as [v|] eqn:Ev.
    + exists ((name q, v) :: bound). split; [reflexivity|].
      split; [simpl; rewrite Hkeys; reflexivity|].
      intros p d [<-|Hp] Hn Hd; [congruence|]. right. eauto.
    + destruct (default q) as [d0|] eqn:Ed.
      * exists ((name q, d0) :: bound). split; [reflexivity|].
        split; [simpl; rewrite Hkeys; reflexivity|].
        intros p d [<-|Hp] Hn Hd; [left; congruence | right; eauto].
      * exfalso. destruct (H q (or_introl eq_refl)) as [H1|H1]; congruence.
Qed.

Lemma filter_all {A} (g : A -> bool) (l : list A) :
  forallb g l = true -> filter g l = l.
Proof.
  induction l as [|x l IH]; simpl; [reflexivity|].
  intro H. apply andb_true_iff in H. destruct H as [-> H].
  rewrite (IH H). reflexivity.
Qed.

Lemma filter_none {A} (g : A -> bool) (l : list A) :
  (forall x, In x l -> g x = false) -> filter g l = [].
Proof.
  induction l as [|x l IH]; simpl; [reflexivity|].
  intro H. rewrite (H x (or_introl eq_refl)). apply IH.
  intros y Hy. apply H. right. exact Hy.
Qed.

Lemma distinct_signature_parameters (f : function) :
  distinct_signature f -> distinct_parameters f.
Proof.
  unfold distinct_signature, distinct_parameters.
  destruct (parameters f) as [|p0 ps]; simpl; [auto|].
  intro H. inversion H. assumption.
Qed.

(** The call of a handler whose parameters take the arguments as the
    dispatcher passes them, with only keywords that name parameters
    after the first: the body runs on the bindings. *)
Lemma call_bound (f : function) (request : Request) (args : dict pyvalue)
      (bound : dict pyvalue) :
  takes_keywords f = true ->
  distinct_signature f ->
  (forall x, In x (dict_keys args) -> In x (map name (tl (parameters f)))) ->
  bind_arguments (tl (parameters f)) args [] = Some bound ->
  call f request args = code f request bound.
Proof.
  unfold takes_keywords, distinct_signature, call.
  destruct (parameters f) as [|p0 ps]; [discriminate|].
  intros Hk Hnd Hkeys Hb. simpl in Hkeys, Hb.
  apply andb_true_iff in Hk. destruct Hk as [Hp0 Hps].
  rewrite Hp0. simpl negb. cbv iota.
  assert (E0 : mem_string (name p0) (dict_keys args) = false).
  { apply mem_string_false. intro H. apply Hkeys in H.
    simpl in Hnd. inversion Hnd. contradiction. }
  rewrite E0, andb_false_r.
  rewrite (filter_all _ _ Hps).
  rewrite filter_none.
  - simpl. rewrite Hb. reflexivity.
  - intros [x v] Hx. simpl. apply negb_false_iff, mem_string_In, Hkeys.
    unfold dict_keys. apply in_map_iff. exists (x, v). auto.
Qed.

(** C2, as the code has it.  For the handler definition extracted for a
    function: a parameter after the first that is not a path argument is
    a query argument, required exactly when it has no default, and the
    query arguments are no others.  A request that omits a required
    query argument, and gives no value that is not UTF-8 for a query
    argument declared before it, fails with [BadRequestError] before any
    call and is answered with status 400.  A request that omits an
    optional one, when every other query argument passes, passes the
    extraction of query arguments; once its arguments are cast and its
    body is parsed, a handler whose parameters after the first take
    keywords is called with that parameter bound to its default, and a
    serializable result is sent with status 200. *)
Theorem query_argument_required_iff_no_default
        (u : string) (f : function) (hd : HandlerDef) (w : World)
        (self : MainHandler) (request : Request) (kwargs : dict string)
        (k : string) :
  distinct_signature f ->
  extracted u f hd ->
  klass self = MainHandlerClass ->
  error_key (CalmApp_config w) = Ok k ->
  (forall p, In p (tl (parameters f)) -> ~ In (name p) (path_args hd) ->
             dict_get (name p) (query_args hd) = Some (is_empty (default p)))
  /\ (forall q r, dict_get q (query_args hd) = Some r ->
                  exists p, In p (tl (parameters f)) /\ name p = q
                            /\ ~ In q (path_args hd) /\ r = is_empty (default p))
  /\ (forall ps1 p ps2,
         tl (parameters f) = (ps1 ++ p :: ps2)%list ->
         ~ In (name p) (path_args hd) ->
         default p = None -> omits request (name p) ->
         (forall p', In p' ps1 -> ~ In (name p') (path_args hd) ->
                     ~ garbles request (name p')) ->
         exists q,
           _handle_request self request (Some hd) kwargs
           = ([], Raise (BadRequestError
                           ("Missing required query argument '" ++ q ++ "'")))
           /\ respond w self (_handle_request self request (Some hd) kwargs)
              = ([], Ok {| status_code := 400;
                           written :=
                             JObj [(k, JStr ("Missing required query argument '"
                                             ++ q ++ "'"))] |}))
  /\ (forall p d,
         In p (tl (parameters f)) -> ~ In (name p) (path_args hd) ->
         default p = Some d -> omits request (name p) ->
         (forall x, In x (dict_keys kwargs) <-> In x (path_args hd)) ->
         (forall p', In p' (tl (parameters f)) -> ~ In (name p') (path_args hd) ->
                     passes request (name p', is_empty (default p'))) ->
         takes_keywords f = true ->
         exists qa,
           _get_query_args request hd = Ok qa
           /\ ~ In (name p) (dict_keys qa)
           /\ forall args request',
               _cast_args self f (dict_update kwargs qa) = Ok args ->
               _parse_and_update_body request = Ok request' ->
               exists bound,
                 dict_keys bound = map name (tl (parameters f))
                 /\ dict_get (name p) bound = Some d
                 /\ call f request' args = code f request' bound
                 /\ _handle_request self request (Some hd) kwargs
                    = (invocation f args,
                       match code f request' bound with
                       | Ok v => _write_response v
                       | Raise e => Raise e
                       end)
                 /\ forall v j,
                     code f request' bound = Ok v ->
                     json_dumps (json_result v) = Some j ->
                     respond w self (_handle_request self request (Some hd) kwargs)
                     = (invocation f args,
                        Ok {| status_code := 200; written := j |})).
Proof.
  intros Hsig Hex Hk Hkey.
  pose proof (distinct_signature_parameters f Hsig) as Hnd.
  pose proof (query_args_distinct _ _ _ Hnd Hex) as HQ.
  destruct (extracted_fields _ _ _ Hex) as [Hh [_ [Hcheck _]]].
  split; [|split; [|split]].
  - intros p Hp Hnp. rewrite HQ.
    apply (query_args_of_parameter _ _ _ Hnd Hp Hnp).
  - intros q r Hq. rewrite HQ in Hq. apply dict_get_In in Hq.
    apply query_args_origin in Hq. exact Hq.
  - intros ps1 p ps2 Hsplit Hnp Hd Hmiss Hclean.
    assert (Hitems : query_args hd
                     = (map (fun p => (name p, is_empty (default p)))
                            (filter (is_query_parameter (path_args hd)) ps1)
                        ++ (name p, true)
                        :: map (fun p => (name p, is_empty (default p)))
                               (filter (is_query_parameter (path_args hd)) ps2))%list).
    { rewrite HQ, Hsplit, filter_app, map_app. simpl.
      assert (E : is_query_parameter (path_args hd) p = true)
        by (unfold is_query_parameter; apply negb_true_iff, mem_string_false; exact Hnp).
      rewrite E. simpl. rewrite Hd. reflexivity. }
    assert (Hbefore : forall q' r',
               In (q', r')
                  (map (fun p => (name p, is_empty (default p)))
                       (filter (is_query_parameter (path_args hd)) ps1)) ->
               ~ garbles request q').
    { intros q' r' Hin.
      destruct (query_args_origin _ _ _ _ Hin) as [p' [Hp' [<- [Hnp' _]]]].
      apply Hclean; assumption. }
    destruct (get_query_args_missing request _
                (map (fun p => (name p, is_empty (default p)))
                     (filter (is_query_parameter (path_args hd)) ps2))
                [] _ Hmiss Hbefore) as [q Hq].
    rewrite <- Hitems in Hq.
    exists q.
    rewrite (handle_request_query_error self request hd kwargs _ Hk Hq).
    split; [reflexivity|].
    rewrite (respond_client_error w self []
               (BadRequestError ("Missing required query argument '" ++ q ++ "'"))
               k Hkey eq_refl).
    reflexivity.
  - intros p d Hp Hnp Hd Hmiss Hkw Hreq Htakes.
    assert (Hreq' : forall item, In item (query_args hd) -> passes request item).
    { intros [q r] Hq. rewrite HQ in Hq.
      destruct (query_args_origin _ _ _ _ Hq) as [p' [Hp' [<- [Hnp' ->]]]].
      apply Hreq; auto. }
    destruct (get_query_args_present request (query_args hd) [] Hreq')
      as [qa [Hqa Hkeys]].
    assert (Hnq : ~ In (name p) (dict_keys qa)).
    { intro H. apply Hkeys in H. destruct H as [[]|[_ Hg]].
      exact (omits_not_gives _ _ Hmiss Hg). }
    exists qa. split; [exact Hqa|]. split; [exact Hnq|].
    intros args request' Hc Hb.
    assert (Hkargs : forall x, In x (dict_keys args) <->
                               In x (path_args hd) \/ In x (dict_keys qa)).
    { intro x. unfold _cast_args in Hc. apply cast_args_Ok, cast_keys in Hc.
      rewrite Hc, dict_keys_update, Hkw. reflexivity. }
    pose proof Hnd as Hnd'. unfold distinct_parameters in Hnd'.
    assert (Hkinds : forallb (fun p => by_keyword (kind p)) (tl (parameters f)) = true).
    { unfold takes_keywords in Htakes.
      destruct (parameters f); [discriminate|].
      apply andb_true_iff in Htakes. exact (proj2 Htakes). }
    set (ps := tl (parameters f)) in *.
    assert (Hnames : forall x, In x (dict_keys args) -> In x (map name ps)).
    { intros x Hx. apply Hkargs in Hx. destruct Hx as [Hx|Hx].
      - apply (proj1 (check_path_args_Ok _ _ _) Hcheck) in Hx.
        destruct Hx as [p' [Hp' _]].
        apply params_of_Some in Hp'; [|exact Hnd].
        destruct Hp' as [Hp' <-]. apply in_map. exact Hp'.
      - apply Hkeys in Hx. destruct Hx as [[]|[Hx _]].
        apply in_map_iff in Hx. destruct Hx as [[q r] [<- Hx]].
        rewrite HQ in Hx. destruct (query_args_origin _ _ _ _ Hx) as [p' [Hp' [<- _]]].
        simpl. apply in_map. exact Hp'. }
    assert (Hvals : forall p', In p' ps ->
                               dict_get (name p') args <> None \/ default p' <> None).
    { intros p' Hp'. destruct (default p') as [d'|] eqn:Hd'; [right; discriminate|].
      left. intro Hnone. apply dict_get_None in Hnone. apply Hnone, Hkargs.
      destruct (mem_string (name p') (path_args hd)) eqn:Em.
      - left. apply mem_string_In. exact Em.
      - right. apply mem_string_false in Em. apply Hkeys. right. split.
        + rewrite HQ.
          destruct (query_args_of_parameter ps (path_args hd) p') as [Hin _];
            [exact Hnd' | exact Hp' | exact Em |].
          apply in_map_iff. exists (name p', is_empty (default p')). auto.
        + destruct (Hreq p' Hp' Em) as [Hg|[_ Hr]]; [exact Hg|].
          simpl in Hr. rewrite Hd' in Hr. discriminate. }
    destruct (bind_arguments_Some ps args [] Hkinds Hvals)
      as [bound [Hbound [Hbk Hdef]]].
    exists bound. split; [exact Hbk|].
    assert (Hget : dict_get (name p) bound = Some d).
    { apply dict_get_NoDup.
      - rewrite Hbk. exact Hnd'.
      - apply Hdef; [exact Hp| |exact Hd].
        apply dict_get_None. intro H. apply Hkargs in H. destruct H; auto. }
    split; [exact Hget|].
    pose proof (call_bound f request' args bound Htakes Hsig Hnames Hbound) as Hcall.
    split; [exact Hcall|].
    assert (Hc' : _cast_args self (handler hd) (dict_update kwargs qa) = Ok args)
      by (rewrite Hh; exact Hc).
    assert (Hrun : _handle_request self request (Some hd) kwargs
                   = (invocation f args,
                      match code f request' bound with
                      | Ok v => _write_response v
                      | Raise e => Raise e
                      end)).
    { rewrite (handle_request_call _ _ _ _ _ _ _ Hk Hqa Hc' Hb), Hh, Hcall.
      reflexivity. }
    split; [exact Hrun|].
    intros v j Hv Hj. rewrite Hrun. unfold respond, outcome_of, trace_of. simpl.
    rewrite Hv. unfold _write_response. rewrite Hj. reflexivity.
Qed.

End QueryArguments.

(** C2, as stated, fails at two requests.  [page] is a required query
    argument of [search]; the request [GET /search?q=%ff] omits it, and
    is answered with status 500: the value of [q], declared first, is not
    UTF-8, and the [HTTPError] Tornado raises for it is not caught.
    [limit] is an optional query argument of [tail], and so is [args]
    a required one; the request [GET /tail?args=1] omits [limit], its
    arguments are extracted and cast, and the call is a [TypeError],
    answered with status 500: [*args] cannot be passed by keyword. *)
Lemma omitted_argument_answered_500 :
  option_map query_args (registered example_app3 "/search")
  = Some [("q", true); ("page", true)]
  /\ omits (raw_request "GET" "/search" [("q", [[xff]])]) "page"
  /\ handle example_world3 example_application3
       (raw_request "GET" "/search" [("q", [[xff]])])
     = Dispatched []
         (Ok {| status_code := 500;
                written := JObj [("error", JStr server_error_message)] |})
  /\ option_map query_args (registered example_app3 "/tail")
     = Some [("args", true); ("limit", false)]
  /\ omits (example_request GET "/tail" [("args", "1")] []) "limit"
  /\ call tail (example_request GET "/tail" [("args", "1")] []) [("args", VStr "1")]
     = Raise (TypeError "tail")
  /\ handle example_world3 example_application3
       (example_request GET "/tail" [("args", "1")] [])
     = Dispatched
         [EvIsCoroutineFunction "tail"; EvWarning "tail";
          EvCall "tail" false [("args", VStr "1")]]
         (Ok {| status_code := 500;
                written := JObj [("error", JStr server_error_message)] |}).
Proof. repeat split. Qed.

(** * Further properties *)

(** ** More on the path template compiler *)

Lemma lstrip_head (c : ascii) (s : string) : head_is_not c (Str.lstrip c s).
Proof.
  induction s as [|a s IH]; simpl; [exact I|].
  destruct (Ascii.eqb a c) eqn:E; [exact IH | exact E].
Qed.

Lemma lstrip_fixed (c : ascii) (s : string) :
  head_is_not c s -> Str.lstrip c s = s.
Proof. destruct s as [|a s]; simpl; [reflexivity|]. intros ->. reflexivity. Qed.

Lemma rstrip_head (c : ascii) (s : string) :
  head_is_not c s -> head_is_not c (Str.rstrip c s).
Proof.
  destruct s as [|a s]; simpl; [exact (fun H => H)|]. intro H.
  destruct (Str.rstrip c s); [rewrite H|]; exact H.
Qed.

Lemma rstrip_idem (c : ascii) (s : string) :
  Str.rstrip c (Str.rstrip c s) = Str.rstrip c s.
Proof.
  induction s as [|a s IH]; simpl; [reflexivity|].
  destruct (Str.rstrip c s) as [|b r] eqn:E.
  - destruct (Ascii.eqb a c) eqn:Ea; simpl; [reflexivity|]. rewrite Ea. reflexivity.
  - change (Str.rstrip c (String a (String b r)))
      with (match Str.rstrip c (String b r) with
            | EmptyString =>
                if Ascii.eqb a c then EmptyString else String a EmptyString
            | String x y => String a (String x y)
            end).
    rewrite IH. reflexivity.
Qed.

Lemma strip_idem (c : ascii) (s : string) :
  Str.strip c (Str.strip c s) = Str.strip c s.
Proof.
  unfold Str.strip.
  rewrite (lstrip_fixed c (Str.rstrip c (Str.lstrip c s)))
    by (apply rstrip_head, lstrip_head).
  apply rstrip_idem.
Qed.

Lemma rstrip_snoc (c : ascii) (x : string) :
  Str.rstrip c (x ++ String c EmptyString) = Str.rstrip c x.
Proof.
  induction x as [|a x IH]; simpl.
  - rewrite Ascii.eqb_refl. reflexivity.
  - rewrite IH. reflexivity.
Qed.

Lemma strip_snoc (c : ascii) (s : string) :
  Str.strip c (s ++ String c EmptyString) = Str.strip c s.
Proof.
  unfold Str.strip. induction s as [|a s IH]; simpl.
  - rewrite Ascii.eqb_refl. reflexivity.
  - destruct (Ascii.eqb a c) eqn:E; [exact IH|].
    change (String a (s ++ String c EmptyString))
      with (String a s ++ String c EmptyString).
    apply rstrip_snoc.
Qed.

Lemma strip_wrap (s : string) :
  Str.strip slash (wrap_slashes s) = Str.strip slash s.
Proof.
  unfold wrap_slashes.
  change ("/" ++ s ++ "/") with (String slash (s ++ String slash EmptyString)).
  transitivity (Str.strip slash (s ++ String slash EmptyString));
    [reflexivity | apply strip_snoc].
Qed.

(** X2.  The slashes around a fragment do not
    count: the pattern of the fragments is the pattern of the fragments
    trimmed, and of the fragments each put between two slashes. *)
Theorem normalize_uri_ignores_outer_slashes (fragments : list string) :
  _normalize_uri (map (Str.strip slash) fragments) = _normalize_uri fragments
  /\ _normalize_uri (map wrap_slashes fragments) = _normalize_uri fragments.
Proof.
  unfold _normalize_uri. rewrite !map_map.
  rewrite (map_ext _ _ (strip_idem slash)).
  rewrite (map_ext (fun x => Str.strip slash (wrap_slashes x)) _ strip_wrap).
  split; reflexivity.
Qed.

Lemma name_char_plain (c : ascii) :
  name_char c = true -> Ascii.eqb c slash = false /\ Ascii.eqb c qmark = false.
Proof.
  unfold name_char. intro H. apply negb_true_iff in H.
  apply orb_false_iff in H. destruct H as [H _].
  apply orb_false_iff in H. exact H.
Qed.

Lemma name_chars_plain (n : string) : name_chars n = true -> plain n = true.
Proof.
  induction n as [|c n IH]; simpl; [reflexivity|]. intro H.
  apply andb_true_iff in H. destruct H as [Hc Hn].
  destruct (name_char_plain c Hc) as [-> ->]. simpl. auto.
Qed.

Lemma name_chars_app (a b : string) :
  name_chars (a ++ b) = (name_chars a && name_chars b)%bool.
Proof.
  induction a as [|c a IH]; simpl; [reflexivity|].
  rewrite IH, andb_assoc. reflexivity.
Qed.

(** The names [findall] finds are made of name characters. *)
Lemma findall_name_chars (s : string) (cur : option string) :
  match cur with Some n => name_chars n = true | None => True end ->
  Forall (fun n => name_chars n = true) (findall_from cur s).
Proof.
  revert cur. induction s as [|c s IH]; intros [n|] Hcur; simpl.
  - constructor; [exact Hcur | constructor].
  - constructor.
  - destruct (name_char c) eqn:Hn.
    + apply IH. rewrite name_chars_app, Hcur. simpl. rewrite Hn. reflexivity.
    + destruct (Ascii.eqb c colon).
      * constructor; [exact Hcur | apply IH; reflexivity].
      * constructor; [exact Hcur | apply IH; exact I].
  - destruct (Ascii.eqb c colon); apply IH; [reflexivity | exact I].
Qed.

(** An occurrence of a text without slash or question mark in a string
    that ends with the optional slash lies before the optional slash. *)
Lemma prefix_fits (o s : string) :
  plain o = true ->
  String.prefix o (s ++ "/?") = true ->
  String.length o <= String.length s /\ String.prefix o s = true.
Proof.
  revert o. induction s as [|c s IH]; intros [|a o] Hp H.
  - split; [apply le_n | reflexivity].
  - exfalso. simpl in Hp. change ("" ++ "/?") with (String slash "?") in H.
    rewrite prefix_cons in H. apply andb_true_iff in H. destruct H as [H _].
    apply Ascii.eqb_eq in H. subst a. rewrite Ascii.eqb_refl in Hp. discriminate.
  - split; [apply Nat.le_0_l | reflexivity].
  - change (String c s ++ "/?") with (String c (s ++ "/?")) in H.
    rewrite prefix_cons in H. apply andb_true_iff in H. destruct H as [Ha H].
    simpl in Hp. apply andb_true_iff in Hp. destruct Hp as [_ Hp].
    destruct (IH o Hp H) as [Hl Hs]. split.
    + simpl. apply le_n_S. exact Hl.
    + rewrite prefix_cons, Ha, Hs. reflexivity.
Qed.

Lemma prefix_app_r (o s t : string) :
  String.prefix o s = true -> String.prefix o (s ++ t) = true.
Proof.
  revert o. induction s as [|c s IH]; intros [|a o] H.
  - apply prefix_nil.
  - discriminate.
  - apply prefix_nil.
  - change (String c s ++ t) with (String c (s ++ t)).
    rewrite prefix_cons in *. apply andb_true_iff in H. destruct H as [-> H].
    rewrite (IH o H). reflexivity.
Qed.

Lemma prefix_length (o s : string) :
  String.prefix o s = true -> String.length o <= String.length s.
Proof.
  revert o. induction s as [|c s IH]; intros [|a o] H; simpl.
  - apply le_n.
  - discriminate.
  - apply Nat.le_0_l.
  - rewrite prefix_cons in H. apply andb_true_iff in H. destruct H as [_ H].
    apply le_n_S, IH. exact H.
Qed.

(** One [str.replace] of the loop leaves the optional slash at the end
    where it is. *)
Lemma replace_keeps_suffix (n new s : string) (k : nat) :
  name_chars n = true ->
  k <= String.length s ->
  Str.replace_from (String colon n) new k (s ++ "/?")
  = Str.replace_from (String colon n) new k s ++ "/?".
Proof.
  intro Hn. revert k. induction s as [|c s IH]; intros k Hk.
  - assert (k = 0) by (simpl in Hk; lia). subst k.
    change ("" ++ "/?") with (String slash (String qmark "")).
    rewrite !replace_other by reflexivity. reflexivity.
  - change (String c s ++ "/?") with (String c (s ++ "/?")).
    destruct k as [|k].
    + rewrite !replace_from_step.
      assert (Hplain : plain (String colon n) = true)
        by (simpl; apply name_chars_plain; exact Hn).
      destruct (String.prefix (String colon n) (String c s)) eqn:E.
      * assert (E' : String.prefix (String colon n) (String c (s ++ "/?")) = true)
          by (apply (prefix_app_r _ (String c s) "/?"); exact E).
        rewrite E'. apply prefix_length in E. simpl in E.
        rewrite IH by (simpl; lia). rewrite append_assoc. reflexivity.
      * assert (E' : String.prefix (String colon n) (String c (s ++ "/?")) = false).
        { destruct (String.prefix (String colon n) (String c (s ++ "/?"))) eqn:E';
            [|reflexivity].
          apply (prefix_fits _ (String c s)) in E'; [|exact Hplain].
          destruct E' as [_ E']. congruence. }
        rewrite E'. rewrite IH by apply Nat.le_0_l. reflexivity.
    + simpl. apply IH. simpl in Hk. lia.
Qed.

Lemma replace_params_shape (names : list string) (s : string) :
  Forall (fun n => name_chars n = true) names ->
  replace_params names (String slash (s ++ "/?"))
  = String slash (replace_params names s ++ "/?").
Proof.
  unfold replace_params. intro H. revert s.
  induction H as [|n names Hn _ IH]; intro s; cbn [fold_left]; [reflexivity|].
  assert (E : Str.replace (":" ++ n) (capture_group n) (String slash (s ++ "/?"))
              = String slash (Str.replace (":" ++ n) (capture_group n) s ++ "/?")).
  { unfold Str.replace. change (":" ++ n) with (String colon n).
    rewrite replace_other by reflexivity.
    rewrite replace_keeps_suffix by (exact Hn || apply Nat.le_0_l).
    reflexivity. }
  rewrite E. apply IH.
Qed.

(** X3.  Whatever the fragments, the pattern is
    a slash, the joined fragments as the loop rewrites them, and the
    optional slash: the loop never touches the leading slash or the
    optional slash at the end. *)
Theorem normalize_uri_shape (fragments : list string) :
  _normalize_uri fragments
  = "/" ++ replace_params (URI_REGEX_findall (template fragments))
             (Str.join "/" (map (Str.strip slash) fragments))
        ++ "/?".
Proof.
  change (_normalize_uri fragments)
    with (replace_params (URI_REGEX_findall (template fragments))
            (String slash (Str.join "/" (map (Str.strip slash) fragments) ++ "/?"))).
  rewrite replace_params_shape; [reflexivity|].
  apply findall_name_chars. exact I.
Qed.

(** ** More on the argument contract *)

Section ContractInvariants.
Context {env : Env}.

Lemma map_name_filter (g : string -> bool) (ps : list Param) :
  map name (filter (fun p => g (name p)) ps) = filter g (map name ps).
Proof.
  induction ps as [|p ps IH]; simpl; [reflexivity|].
  destruct (g (name p)); simpl; rewrite IH; reflexivity.
Qed.

(** X4.  The contract splits the parameters after the first: each is a path
    argument or a query argument and not both, the path arguments have no
    default, and the query arguments come in the order of the
    signature. *)
Theorem contract_partitions_parameters
        (u : string) (f : function) (hd : HandlerDef) :
  distinct_parameters f ->
  extracted u f hd ->
  (forall x, In x (map name (tl (parameters f)))
             <-> In x (path_args hd) \/ In x (dict_keys (query_args hd)))
  /\ (forall x, In x (path_args hd) -> ~ In x (dict_keys (query_args hd)))
  /\ (forall x, In x (path_args hd) ->
                exists p, In p (tl (parameters f)) /\ name p = x /\ default p = None)
  /\ dict_keys (query_args hd)
     = filter (fun x => negb (mem_string x (path_args hd)))
         (map name (tl (parameters f))).
Proof.
  intros Hnd Hex.
  pose proof (query_args_distinct _ _ _ Hnd Hex) as HQ.
  destruct (extracted_fields _ _ _ Hex) as [_ [_ [Hcheck _]]].
  assert (Hkeys : dict_keys (query_args hd)
                  = filter (fun x => negb (mem_string x (path_args hd)))
                      (map name (tl (parameters f)))).
  { rewrite HQ. unfold dict_keys. rewrite map_map. simpl.
    apply (map_name_filter (fun x => negb (mem_string x (path_args hd)))). }
  assert (Hpath : forall x, In x (path_args hd) ->
                            exists p, In p (tl (parameters f)) /\ name p = x
                                      /\ default p = None).
  { intros x Hx.
    destruct (proj1 (check_path_args_Ok _ _ _) Hcheck x Hx) as [p [Hp Hd]].
    apply params_of_Some in Hp; [|exact Hnd]. destruct Hp as [Hp Hn].
    exists p. auto. }
  split; [|split; [|split]]; try assumption.
  - intro x. rewrite Hkeys, filter_In. split.
    + intro Hx. destruct (mem_string x (path_args hd)) eqn:E.
      * left. apply mem_string_In. exact E.
      * right. auto.
    + intros [Hx|[Hx _]]; [|exact Hx].
      destruct (Hpath x Hx) as [p [Hp [<- _]]]. apply in_map. exact Hp.
  - intros x Hx Hq. rewrite Hkeys in Hq. apply filter_In in Hq.
    destruct Hq as [_ Hq]. apply negb_true_iff, mem_string_false in Hq. auto.
Qed.

End ContractInvariants.

(** ** More on the dispatcher *)

Section DispatcherFacts.
Context {env : Env}.

Lemma mem_string_head {A} (x q : string) (l : list string) (o : option A) :
  (if mem_string x (q :: l) then o else None)
  = if String.eqb x q then o else if mem_string x l then o else None.
Proof. unfold mem_string. simpl. destruct (String.eqb x q); reflexivity. Qed.

(** The value the loop of [_get_query_args] leaves for a name. *)
Lemma get_query_args_lookup (request : Request) (items : list (string * bool))
      (acc qa : dict string) (x : string) :
  get_query_args_loop request items acc = Ok qa ->
  dict_get x qa
  = match (if mem_string x (map fst items)
           then value_of (get_query_argument request x) else None) with
    | Some v => Some v
    | None => dict_get x acc
    end.
Proof.
  revert acc. induction items as [|[q r] items IH]; intros acc H.
  - injection H as <-. reflexivity.
  - simpl map. rewrite mem_string_head.
    destruct (get_query_argument_cases request q) as [Hgv|[Ho|Hg]];
      [destruct (gives_value _ _ Hgv) as [v Hv] | |].
    + rewrite (get_query_args_gives _ _ _ _ _ _ Hv) in H.
      rewrite (IH _ H), dict_get_set.
      destruct (String.eqb x q) eqn:E; [|reflexivity].
      apply String.eqb_eq in E. subst q. rewrite Hv. simpl.
      destruct (mem_string x (map fst items)); reflexivity.
    + rewrite (get_query_args_omits _ _ _ _ _ Ho) in H.
      destruct r; [discriminate|]. rewrite (IH _ H).
      destruct (String.eqb x q) eqn:E; [|reflexivity].
      apply String.eqb_eq in E. subst q.
      rewrite (omits_missing _ _ Ho). simpl.
      destruct (mem_string x (map fst items)); reflexivity.
    + rewrite (get_query_args_garbles _ _ _ _ _ Hg) in H. discriminate.
Qed.

(** Where the loop of [_get_query_args] stops. *)
Lemma get_query_args_stops (request : Request)
      (before after : list (string * bool)) (q : string) (r : bool)
      (acc : dict string) :
  (forall item, In item before -> passes request item) ->
  get_query_args_loop request (before ++ (q, r) :: after) acc
  = match get_query_args_loop request before acc with
    | Ok acc' => get_query_args_loop request ((q, r) :: after) acc'
    | Raise e => Raise e
    end.
Proof.
  revert acc. induction before as [|[q0 r0] before IH]; intros acc Hb;
    [reflexivity|].
  assert (Hb' : forall item, In item before -> passes request item)
    by (intros item H; apply Hb; right; exact H).
  simpl app.
  destruct (Hb (q0, r0) (or_introl eq_refl)) as [Hgv|[Ho Hr]];
    simpl in Hgv || simpl in Ho, Hr.
  - destruct (gives_value _ _ Hgv) as [v Hv].
    rewrite !(get_query_args_gives _ _ _ _ _ _ Hv). apply IH. exact Hb'.
  - subst r0. rewrite !(get_query_args_omits _ _ _ _ _ Ho). apply IH. exact Hb'.
Qed.

Lemma get_query_args_offender (request : Request) (items : list (string * bool))
      (acc : dict string) (e : exn) :
  get_query_args_loop request items acc = Raise e ->
  exists before q r after,
    items = (before ++ (q, r) :: after)%list
    /\ (forall item, In item before -> passes request item)
    /\ ((omits request q /\ r = true
         /\ e = BadRequestError ("Missing required query argument '" ++ q ++ "'"))
        \/ (garbles request q /\ e = HTTPError 400)).
Proof.
  revert acc. induction items as [|[q0 r0] items IH]; intros acc H;
    [discriminate|].
  assert (Hnext : forall acc',
             get_query_args_loop request items acc' = Raise e ->
             passes request (q0, r0) ->
             exists before q r after,
               (q0, r0) :: items = (before ++ (q, r) :: after)%list
               /\ (forall item, In item before -> passes request item)
               /\ ((omits request q /\ r = true
                    /\ e = BadRequestError
                             ("Missing required query argument '" ++ q ++ "'"))
                   \/ (garbles request q /\ e = HTTPError 400))).
  { intros acc' H' Hp.
    destruct (IH _ H') as [before [q [r [after [E [Hb Hcase]]]]]].
    exists ((q0, r0) :: before), q, r, after. rewrite E.
    split; [reflexivity|]. split; [|exact Hcase].
    intros item [<-|Hin]; auto. }
  destruct (get_query_argument_cases request q0) as [Hgv|[Ho|Hg]];
      [destruct (gives_value _ _ Hgv) as [v Hv] | |].
  - rewrite (get_query_args_gives _ _ _ _ _ _ Hv) in H.
    apply (Hnext _ H). left. exact Hgv.
  - rewrite (get_query_args_omits _ _ _ _ _ Ho) in H. destruct r0.
    + injection H as <-. exists [], q0, true, items.
      split; [reflexivity|]. split; [intros item []|]. left. auto.
    + apply (Hnext _ H). right. auto.
  - rewrite (get_query_args_garbles _ _ _ _ _ Hg) in H. injection H as <-.
    exists [], q0, r0, items.
    split; [reflexivity|]. split; [intros item []|]. right. auto.
Qed.

(** X7.  [_get_query_args] succeeds exactly when every query argument of
    the handler passes: the request gives it a value that is UTF-8, or
    omits it and it is not required.  It then returns, for the query
    arguments of the handler, the values the request gives, and nothing
    for any other name in the query string. *)
Theorem get_query_args_exact (request : Request) (hd : HandlerDef) :
  ((exists qa, _get_query_args request hd = Ok qa)
   <-> (forall item, In item (query_args hd) -> passes request item))
  /\ (forall qa x,
         _get_query_args request hd = Ok qa ->
         dict_get x qa
         = if mem_string x (dict_keys (query_args hd))
           then value_of (get_query_argument request x) else None).
Proof.
  unfold _get_query_args. split.
  - split.
    + intros [qa H]. exact (get_query_args_required _ _ _ _ H).
    + intro H. destruct (get_query_args_present request (query_args hd) [] H)
        as [qa [Hqa _]]. eauto.
  - intros qa x H. rewrite (get_query_args_lookup _ _ _ _ x H).
    unfold dict_keys.
    destruct (mem_string x (map fst (query_args hd))); [|reflexivity].
    destruct (value_of (get_query_argument request x)); reflexivity.
Qed.

(** X8.  [_get_query_args] fails exactly at the first query argument, in
    the order of the signature, that does not pass: with a
    [BadRequestError] that names it when the argument is required and
    the request omits it, and with the [HTTPError(400)] of Tornado, which
    the [except] clause does not catch, when the request gives it a
    value that is not UTF-8. *)
Theorem get_query_args_first_offender (request : Request) (hd : HandlerDef)
        (e : exn) :
  _get_query_args request hd = Raise e
  <-> exists before q r after,
      query_args hd = (before ++ (q, r) :: after)%list
      /\ (forall item, In item before -> passes request item)
      /\ ((omits request q /\ r = true
           /\ e = BadRequestError ("Missing required query argument '" ++ q ++ "'"))
          \/ (garbles request q /\ e = HTTPError 400)).
Proof.
  unfold _get_query_args. split; [apply get_query_args_offender|].
  intros [before [q [r [after [E [Hb Hcase]]]]]]. rewrite E.
  rewrite (get_query_args_stops _ _ _ _ _ _ Hb).
  destruct (get_query_args_present request before [] Hb) as [acc' [-> _]].
  destruct Hcase as [[Ho [-> ->]]|[Hg ->]].
  - rewrite (get_query_args_omits _ _ _ _ _ Ho). reflexivity.
  - apply get_query_args_garbles. exact Hg.
Qed.

(** X9.  An exception the handler raises is answered as a client error, with
    its own status and message, when it is a [ClientError], and with
    status 500 and the fixed message otherwise. *)
Theorem handler_exception_classified
        (w : World) (self : MainHandler) (request request' : Request)
        (hd : HandlerDef) (kwargs qa : dict string) (args : dict pyvalue)
        (e : exn) (k : string) :
  klass self = MainHandlerClass ->
  error_key (CalmApp_config w) = Ok k ->
  _get_query_args request hd = Ok qa ->
  _cast_args self (handler hd) (dict_update kwargs qa) = Ok args ->
  _parse_and_update_body request = Ok request' ->
  call (handler hd) request' args = Raise e ->
  respond w self (_handle_request self request (Some hd) kwargs)
  = (invocation (handler hd) args,
     Ok (if is_client_error e
         then {| status_code := exn_code e;
                 written := JObj [(k, JStr (exn_message e))] |}
         else {| status_code := 500;
                 written := JObj [(k, JStr server_error_message)] |})).
Proof.
  intros Hk Hkey Hq Hc Hb Hcall.
  rewrite (handle_request_call _ _ _ _ _ _ _ Hk Hq Hc Hb), Hcall.
  destruct (is_client_error e) eqn:He.
  - apply respond_client_error; assumption.
  - apply respond_server_error; assumption.
Qed.

(** X10.  With an error key configured, every run of a verb method is
    answered: with status 200 and the document the run wrote, or with an
    object that has the error key as its only key. *)
Theorem response_is_result_or_envelope
        (w : World) (self : MainHandler) (run : M json) (k : string) :
  error_key (CalmApp_config w) = Ok k ->
  exists r,
    snd (respond w self run) = Ok r
    /\ ((status_code r = 200%Z /\ outcome_of run = Ok (written r))
        \/ (exists e msg,
               outcome_of run = Raise e
               /\ written r = JObj [(k, JStr msg)]
               /\ ((is_client_error e = true /\ status_code r = exn_code e
                    /\ msg = exn_message e)
                   \/ (is_client_error e = false /\ status_code r = 500%Z
                       /\ msg = server_error_message)))).
Proof.
  intro Hkey. destruct run as [t [j|e]].
  - eexists. split; [reflexivity|]. left. split; reflexivity.
  - destruct (is_client_error e) eqn:He.
    + rewrite (respond_client_error w self t e k Hkey He).
      eexists. split; [reflexivity|]. right. exists e. eexists.
      split; [reflexivity|]. split; [reflexivity|]. left. auto.
    + rewrite (respond_server_error w self t e k Hkey He).
      eexists. split; [reflexivity|]. right. exists e. eexists.
      split; [reflexivity|]. split; [reflexivity|]. right. auto.
Qed.

(** X11.  A request calls the handler at most once, and calls it exactly when
    the query arguments are extracted, the arguments are cast and the
    body is parsed without error. *)
Theorem handler_called_at_most_once
        (self : MainHandler) (request : Request) (hd : HandlerDef)
        (kwargs : dict string) :
  klass self = MainHandlerClass ->
  count_calls (trace_of (_handle_request self request (Some hd) kwargs)) <= 1
  /\ (count_calls (trace_of (_handle_request self request (Some hd) kwargs)) = 1
      <-> reaches_call self request hd kwargs).
Proof.
  intro Hk. unfold reaches_call.
  destruct (_get_query_args request hd) as [qa|e] eqn:Hq.
  2:{ rewrite (handle_request_query_error _ _ _ _ _ Hk Hq). simpl.
      split; [apply Nat.le_0_l|]. split; [discriminate|].
      intros [qa [args [r' [H _]]]]. discriminate. }
  destruct (_cast_args self (handler hd) (dict_update kwargs qa)) as [args|e] eqn:Hc.
  2:{ rewrite (handle_request_cast_error _ _ _ _ _ _ Hk Hq Hc). simpl.
      split; [apply Nat.le_0_l|]. split; [discriminate|].
      intros [qa' [args [r' [H [H' _]]]]]. injection H as <-. congruence. }
  destruct (_parse_and_update_body request) as [request'|e] eqn:Hb.
  2:{ rewrite (handle_request_body_error _ _ _ _ _ _ _ Hk Hq Hc Hb). simpl.
      split; [apply Nat.le_0_l|]. split; [discriminate|].
      intros [qa' [args' [r' [_ [_ H]]]]]. discriminate. }
  rewrite (handle_request_call _ _ _ _ _ _ _ Hk Hq Hc Hb). unfold trace_of. simpl.
  destruct (invocation_counts (handler hd) args) as [_ ->].
  split; [apply le_n|]. split; [|reflexivity].
  intros _. exists qa, args, request'. auto.
Qed.

End DispatcherFacts.

(** ** The call of the handler *)

Section HandlerCall.
Context {env : Env}.

Lemma bind_arguments_values (ps : list Param) (kwargs extra bound : dict pyvalue) :
  forallb (fun p => by_keyword (kind p)) ps = true ->
  bind_arguments ps kwargs extra = Some bound ->
  dict_keys bound = map name ps
  /\ forall p, In p ps ->
               exists v, In (name p, v) bound
                         /\ match dict_get (name p) kwargs with
                            | Some v' => Some v'
                            | None => default p
                            end = Some v.
Proof.
  revert bound. induction ps as [|q ps IH]; intros bound Hkind H; simpl in H.
  - injection H as <-. split; [reflexivity | intros p []].
  - simpl in Hkind. apply andb_true_iff in Hkind. destruct Hkind as [Hq Hkind].
    assert (E : match kind q with
                | POSITIONAL_OR_KEYWORD | KEYWORD_ONLY =>
                    match dict_get (name q) kwargs with
                    | Some v => Some v
                    | None => default q
                    end
                | POSITIONAL_ONLY => default q
                | VAR_POSITIONAL => Some (VTuple [])
                | VAR_KEYWORD => Some (VDict extra)
                end
                = match dict_get (name q) kwargs with
                  | Some v => Some v
                  | None => default q
                  end)
      by (destruct (kind q); try discriminate; reflexivity).
    rewrite E in H.
    destruct (match dict_get (name q) kwargs with
              | Some v => Some v
              | None => default q
              end) as [v|] eqn:Ev; [|discriminate].
    destruct (bind_arguments ps kwargs extra) as [b|] eqn:Eb; [|discriminate].
    injection H as <-. destruct (IH b Hkind eq_refl) as [Hk Hv]. split.
    + simpl. rewrite Hk. reflexivity.
    + intros p [<-|Hp].
      * exists v. split; [left; reflexivity | exact Ev].
      * destruct (Hv p Hp) as [v' [Hin Hval]]. exists v'. split; [right|]; assumption.
Qed.

Lemma NoDup_name_inj (ps : list Param) (p p' : Param) :
  NoDup (map name ps) -> In p ps -> In p' ps -> name p = name p' -> p = p'.
Proof.
  induction ps as [|q ps IH]; intros Hnd Hp Hp' E; [destruct Hp|].
  simpl in Hnd. inversion Hnd as [|? ? Hnot Hnd']; subst.
  destruct Hp as [->|Hp], Hp' as [->|Hp'].
  - reflexivity.
  - exfalso. apply Hnot. rewrite E. apply in_map. exact Hp'.
  - exfalso. apply Hnot. rewrite <- E. apply in_map. exact Hp.
  - apply IH; assumption.
Qed.

(** A keyword that no parameter takes, for a function without
    [**kwargs], makes the call a [TypeError]. *)
Lemma call_unexpected_keyword (f : function) (request : Request)
      (args : dict pyvalue) (x : string) :
  In x (dict_keys args) ->
  ~ In x (map name (filter (fun p => by_keyword (kind p)) (tl (parameters f)))) ->
  existsb is_var_keyword (tl (parameters f)) = false ->
  call f request args = Raise (TypeError (__name__ f)).
Proof.
  intros Hx Hn Hvar. unfold call.
  destruct (parameters f) as [|p0 ps]; [reflexivity|]. simpl in Hn, Hvar.
  destruct (by_position (kind p0)); [|reflexivity]. simpl negb. cbv iota.
  destruct (by_keyword (kind p0) && mem_string (name p0) (dict_keys args));
    [reflexivity|].
  rewrite Hvar. simpl negb. rewrite andb_true_r.
  destruct (filter _ args) as [|kv extra] eqn:E; [|reflexivity].
  exfalso. unfold dict_keys in Hx. apply in_map_iff in Hx.
  destruct Hx as [[x' v] [<- Hin]].
  assert (Hf : In (x', v)
                  (filter
                     (fun kv =>
                        negb (mem_string (fst kv)
                                (map name (filter (fun p => by_keyword (kind p)) ps))))
                     args)).
  { apply filter_In. split; [exact Hin|]. simpl.
    apply negb_true_iff, mem_string_false. exact Hn. }
  rewrite E in Hf. destruct Hf.
Qed.

(** X5.  For a registered handler called with the path arguments of the
    match, once the query arguments are extracted and the arguments
    cast.  When the first parameter takes a positional argument and
    every later one takes keywords, the call binds every parameter after
    the first, an argument passed to the value passed and any other to
    its default, so the call is the body of the handler on these
    bindings and never a [TypeError] of the call itself.  When a
    parameter after the first has no default and does not take keywords
    (it is positional-only, or [*args]) and the function has no
    [**kwargs], the call is a [TypeError]: registration made it a path
    or query argument, and the dispatcher passes every argument by
    keyword. *)
Theorem dispatch_call_is_well_formed
        (u : string) (f : function) (hd : HandlerDef) (self : MainHandler)
        (request : Request) (kwargs qa : dict string) (args : dict pyvalue) :
  distinct_signature f ->
  extracted u f hd ->
  (forall x, In x (dict_keys kwargs) <-> In x (path_args hd)) ->
  _get_query_args request hd = Ok qa ->
  _cast_args self f (dict_update kwargs qa) = Ok args ->
  (takes_keywords f = true ->
   exists bound,
     bind_arguments (tl (parameters f)) args [] = Some bound
     /\ dict_keys bound = map name (tl (parameters f))
     /\ (forall p, In p (tl (parameters f)) ->
                   dict_get (name p) bound
                   = match dict_get (name p) args with
                     | Some v => Some v
                     | None => default p
                     end)
     /\ forall request', call f request' args = code f request' bound)
  /\ (forall p,
         In p (tl (parameters f)) -> by_keyword (kind p) = false ->
         default p = None ->
         existsb is_var_keyword (tl (parameters f)) = false ->
         forall request', call f request' args = Raise (TypeError (__name__ f))).
Proof.
  intros Hsig Hex Hkw Hq Hc.
  pose proof (distinct_signature_parameters f Hsig) as Hnd.
  pose proof (query_args_distinct _ _ _ Hnd Hex) as HQ.
  destruct (extracted_fields _ _ _ Hex) as [_ [_ [Hcheck _]]].
  pose proof (get_query_args_required _ _ _ _ Hq) as Hreq.
  destruct (get_query_args_present request (query_args hd) [] Hreq)
    as [qa' [Hqa' Hkeys]].
  unfold _get_query_args in Hq. rewrite Hq in Hqa'. injection Hqa' as <-.
  assert (Hkargs : forall x, In x (dict_keys args) <->
                             In x (path_args hd) \/ In x (dict_keys qa)).
  { intro x. unfold _cast_args in Hc. apply cast_args_Ok, cast_keys in Hc.
    rewrite Hc, dict_keys_update, Hkw. reflexivity. }
  pose proof Hnd as Hnd'. unfold distinct_parameters in Hnd'.
  set (ps := tl (parameters f)) in *.
  assert (Hgiven : forall p', In p' ps -> default p' = None ->
                              In (name p') (dict_keys args)).
  { intros p' Hp' Hd'. apply Hkargs.
    destruct (mem_string (name p') (path_args hd)) eqn:Em.
    - left. apply mem_string_In. exact Em.
    - right. apply mem_string_false in Em.
      destruct (query_args_of_parameter ps (path_args hd) p') as [Hin _];
        [exact Hnd' | exact Hp' | exact Em |].
      apply Hkeys. right. split.
      + rewrite HQ. apply in_map_iff.
        exists (name p', is_empty (default p')). auto.
      + rewrite <- HQ in Hin. destruct (Hreq _ Hin) as [Hg|[_ Hr]]; [exact Hg|].
        simpl in Hr. rewrite Hd' in Hr. discriminate. }
  split.
  - intro Htakes.
    assert (Hkinds : forallb (fun p => by_keyword (kind p)) ps = true).
    { unfold takes_keywords in Htakes. unfold ps.
      destruct (parameters f); [discriminate|].
      apply andb_true_iff in Htakes. exact (proj2 Htakes). }
    assert (Hnames : forall x, In x (dict_keys args) -> In x (map name ps)).
    { intros x Hx. apply Hkargs in Hx. destruct Hx as [Hx|Hx].
      - apply (proj1 (check_path_args_Ok _ _ _) Hcheck) in Hx.
        destruct Hx as [p' [Hp' _]].
        apply params_of_Some in Hp'; [|exact Hnd].
        destruct Hp' as [Hp' <-]. apply in_map. exact Hp'.
      - apply Hkeys in Hx. destruct Hx as [[]|[Hx _]].
        apply in_map_iff in Hx. destruct Hx as [[q r] [<- Hx]].
        rewrite HQ in Hx. destruct (query_args_origin _ _ _ _ Hx) as [p' [Hp' [<- _]]].
        simpl. apply in_map. exact Hp'. }
    assert (Hvals : forall p', In p' ps ->
                               dict_get (name p') args <> None \/ default p' <> None).
    { intros p' Hp'. destruct (default p') as [d'|] eqn:Hd'; [right; discriminate|].
      left. intro Hnone. apply dict_get_None in Hnone. apply Hnone.
      apply Hgiven; assumption. }
    destruct (bind_arguments_Some ps args [] Hkinds Hvals) as [bound [Hbound _]].
    destruct (bind_arguments_values ps args [] bound Hkinds Hbound) as [Hbk Hbv].
    exists bound. split; [exact Hbound|]. split; [exact Hbk|]. split.
    + intros p Hp. destruct (Hbv p Hp) as [v [Hin Hv]]. rewrite Hv.
      apply dict_get_NoDup; [rewrite Hbk; exact Hnd' | exact Hin].
    + intro request'. apply call_bound; assumption.
  - intros p Hp Hkind Hd Hvar request'.
    apply (call_unexpected_keyword f request' args (name p)).
    + apply Hgiven; assumption.
    + fold ps. intro H. apply in_map_iff in H. destruct H as [p' [E Hf]].
      apply filter_In in Hf. destruct Hf as [Hp' Hk'].
      assert (p' = p) by (apply (NoDup_name_inj ps); assumption).
      subst p'. congruence.
    + exact Hvar.
Qed.

Lemma annotations_empty (f : function) :
  parameters f = [] -> __annotations__ f = [].
Proof. unfold __annotations__. intros ->. reflexivity. Qed.

Lemma cast_args_unannotated (parse : parser) (args : dict string) :
  cast_args_loop parse [] args = Ok (map (fun kv => (fst kv, VStr (snd kv))) args).
Proof.
  induction args as [|[a raw] args IH]; simpl; [reflexivity|].
  rewrite IH. reflexivity.
Qed.

(** X6.  Registration does not ask that the handler take the request: a
    function without parameters is registered under a pattern without
    captures, with an empty contract, and every request to it that passes
    the parsing of the body is answered with status 500, the call being a
    [TypeError]. *)
Theorem handler_without_parameters (u : string) (f : function) :
  parameters f = [] ->
  re_groupindex u = Some [] ->
  exists hd,
    outcome_of (HandlerDef__init__ u f) = Ok hd
    /\ path_args hd = [] /\ query_args hd = []
    /\ forall w self request request' k,
        klass self = MainHandlerClass ->
        error_key (CalmApp_config w) = Ok k ->
        _parse_and_update_body request = Ok request' ->
        outcome_of (_handle_request self request (Some hd) [])
        = Raise (TypeError (__name__ f))
        /\ respond w self (_handle_request self request (Some hd) [])
           = (invocation f [],
              Ok {| status_code := 500;
                    written := JObj [(k, JStr server_error_message)] |}).
Proof.
  intros Hp Hre. rewrite HandlerDef__init__eq. unfold _extract_path_args.
  rewrite Hre. simpl. eexists. split; [reflexivity|]. simpl.
  assert (Hparams : params_of f = []) by (unfold params_of; rewrite Hp; reflexivity).
  rewrite Hparams. split; [reflexivity|]. split; [reflexivity|].
  intros w self request request' k Hk Hkey Hb.
  match goal with
  | |- context [_handle_request self request (Some ?h) []] => set (hd := h)
  end.
  assert (Hq : _get_query_args request hd = Ok []) by reflexivity.
  assert (Hc : _cast_args self (handler hd) (dict_update [] []) = Ok []).
  { unfold _cast_args. simpl handler. rewrite (annotations_empty f Hp). reflexivity. }
  rewrite (handle_request_call _ _ _ _ _ _ _ Hk Hq Hc Hb). simpl handler.
  assert (Hcall : call f request' [] = Raise (TypeError (__name__ f)))
    by (unfold call; rewrite Hp; reflexivity).
  rewrite Hcall. split; [reflexivity|].
  apply respond_server_error; [exact Hkey | reflexivity].
Qed.

End HandlerCall.

(** ** The application as [make_app] builds it *)

Section ApplicationFacts.
Context {env : Env}.

Lemma find_route_app (l1 l2 : list route_def) (p : string) :
  find_route (l1 ++ l2) p
  = match find_route l1 p with
    | Some r => Some r
    | None => find_route l2 p
    end.
Proof.
  induction l1 as [|r l1 IH]; simpl; [reflexivity|].
  destruct (url_match (route_uri r) p); [reflexivity | exact IH].
Qed.

Lemma find_route_some (routes : list route_def) (p : string) (r : route_def) :
  In r routes -> url_match (route_uri r) p <> None ->
  exists r' kwargs, find_route routes p = Some (r', kwargs).
Proof.
  intros Hin Hm.
  destruct (find_route routes p) as [[r' kw]|] eqn:E; [eauto|].
  exfalso. apply Hm. exact (proj1 (find_route_None routes p) E r Hin).
Qed.

Lemma serve_dispatched (k : handler_class) (args : handler_args) (w : World)
      (request : Request) (kwargs : dict string) :
  exists t r, serve k args w request kwargs = Dispatched t r.
Proof.
  unfold serve. destruct (MainHandler__init__ k args); [|eauto].
  destruct (execute w a request kwargs). eauto.
Qed.

(** The answer to a request depends on the world only through the error
    key of the configuration. *)
Lemma handle_reads_error_key (w1 w2 : World) (application : Application)
      (request : Request) :
  dict_get "error_key" (CalmApp_config w1) = dict_get "error_key" (CalmApp_config w2) ->
  handle w1 application request = handle w2 application request.
Proof.
  intro H.
  assert (Hw : forall exc, write_error (CalmApp_config w1) exc
                           = write_error (CalmApp_config w2) exc).
  { intro exc. unfold write_error, _write_client_error, _write_server_error,
      error_key. rewrite H. reflexivity. }
  assert (Hs : forall k a kw, serve k a w1 request kw = serve k a w2 request kw).
  { intros k a kw. unfold serve, execute, respond, self_config.
    destruct (MainHandler__init__ k a) as [d|]; [|reflexivity].
    destruct (outcome_of (verb d request kw)); [reflexivity|].
    rewrite Hw. reflexivity. }
  unfold handle.
  destruct (find_route (route_defs application) (path request)) as [[[u a|u k|u k] kw]|];
    try reflexivity; apply Hs.
Qed.

(** X12.  A call of [configure] that gives no error key, made after [make_app],
    changes nothing in how the application built answers: what else it
    sets, a new argument parser too, is not read again. *)
Theorem configure_after_make_app
        (w : World) (a : nat) (kwargs : dict config_value)
        (application : Application) (request : Request) :
  ~ In "error_key" (dict_keys kwargs) ->
  handle (configure a kwargs w) application request = handle w application request.
Proof.
  intro Hn. apply handle_reads_error_key. unfold configure, self_config. simpl.
  rewrite dict_get_update.
  assert (E : dict_get "error_key" (rev kwargs) = None).
  { apply dict_get_None. unfold dict_keys. rewrite map_rev, <- in_rev. exact Hn. }
  rewrite E. reflexivity.
Qed.

(** The first route of a list that matches a path. *)
Lemma find_route_first (routes : list route_def) (p : string) (r : route_def) :
  In r routes -> url_match (route_uri r) p <> None ->
  exists before r' after kwargs,
    routes = (before ++ r' :: after)%list
    /\ (forall r0, In r0 before -> url_match (route_uri r0) p = None)
    /\ url_match (route_uri r') p = Some kwargs
    /\ find_route routes p = Some (r', kwargs).
Proof.
  induction routes as [|r0 routes IH]; intros Hin Hm; [destruct Hin|].
  simpl. destruct (url_match (route_uri r0) p) as [kw|] eqn:E.
  - exists [], r0, routes, kw. split; [reflexivity|].
    split; [intros x []|]. split; [exact E | reflexivity].
  - destruct Hin as [<-|Hin]; [congruence|].
    destruct (IH Hin Hm) as [before [r' [after [kw [E' [Hb [Hr' Hf]]]]]]].
    exists (r0 :: before), r', after, kw.
    split; [rewrite E'; reflexivity|]. split; [|split; assumption].
    intros x [<-|Hx]; auto.
Qed.

Lemma map_split {A B} (g : A -> B) (l : list A) (l1 : list B) (y : B) (l2 : list B) :
  map g l = (l1 ++ y :: l2)%list ->
  exists k1 x k2, l = (k1 ++ x :: k2)%list /\ map g k1 = l1 /\ g x = y /\ map g k2 = l2.
Proof.
  revert l1. induction l as [|a l IH]; intros l1 H.
  - destruct l1; discriminate.
  - destruct l1 as [|b l1]; simpl in H; injection H as Ha Hl.
    + exists [], a, l. auto.
    + destruct (IH l1 Hl) as [k1 [x [k2 [E [H1 [Hx H2]]]]]].
      exists (a :: k1), x, k2. rewrite E. simpl. rewrite H1, Ha. auto.
Qed.

(** X13.  A path that a pattern of the route map matches is answered by
    the MainHandler of the first pattern of the route map that matches
    it, created with the handler definitions registered for that
    pattern and run with the groups of that match, whatever custom
    handlers and WebSocket handlers the application has and whenever
    they were added: the routes of the route map are tried first, in the
    order of the route map. *)
Theorem decorated_routes_take_precedence
        (w w' : World) (self : nat) (app : CalmApp) (application : Application)
        (request : Request) (u : string) (methods : dict HandlerDef) :
  nth_error (instances w) self = Some app ->
  make_app self w = Some application ->
  In (u, methods) (_route_map app) ->
  url_match u (path request) <> None ->
  exists before u' methods' after kwargs init_params,
    _route_map app = (before ++ (u', methods') :: after)%list
    /\ (forall u0 ms, In (u0, ms) before -> url_match u0 (path request) = None)
    /\ url_match u' (path request) = Some kwargs
    /\ arg_methods init_params = methods'
    /\ arg_argument_parser init_params
       = arg_argument_parser (default_handler_args application)
    /\ arg_app init_params = self
    /\ find_route (route_defs application) (path request)
       = Some (RouteMain u' init_params, kwargs)
    /\ handle w' application request
       = serve MainHandlerClass init_params w' request kwargs.
Proof.
  intros Hnth Hmake Hin Hm. unfold make_app in Hmake. rewrite Hnth in Hmake.
  injection Hmake as <-. unfold handle. simpl route_defs.
  simpl default_handler_args. simpl arg_argument_parser.
  rewrite find_route_app.
  match goal with
  | |- context [find_route (map ?g (_route_map app))] => set (mk := g)
  end.
  assert (Hr : In (mk (u, methods)) (map mk (_route_map app)))
    by (apply in_map; exact Hin).
  destruct (find_route_first _ (path request) _ Hr Hm)
    as [rb [r' [ra [kw [E [Hb [Hr' Hf]]]]]]].
  destruct (map_split _ _ _ _ _ E) as [k1 [[u' ms'] [k2 [Esplit [H1 [Hx H2]]]]]].
  exists k1, u', ms', k2, kw.
  eexists. rewrite Hf, <- Hx. unfold mk. simpl.
  split; [exact Esplit|]. split.
  { intros u0 ms0 Hin0. apply (Hb (mk (u0, ms0))). rewrite <- H1.
    apply in_map. exact Hin0. }
  split; [rewrite <- Hx in Hr'; exact Hr'|].
  repeat split; reflexivity.
Qed.

Lemma dict_keys_set_list {V} (k : string) (v : V) (d : dict V) :
  dict_keys (dict_set k v d)
  = if mem_string k (dict_keys d) then dict_keys d
    else (dict_keys d ++ [k])%list.
Proof.
  induction d as [|[k0 v0] d IH]; simpl; [reflexivity|].
  unfold mem_string in *. simpl.
  destruct (String.eqb k k0) eqn:E; simpl.
  - apply String.eqb_eq in E. subst k0. reflexivity.
  - rewrite IH. destruct (existsb (String.eqb k) (dict_keys d)); reflexivity.
Qed.

Lemma dict_set_NoDup {V} (k : string) (v : V) (d : dict V) :
  NoDup (dict_keys d) -> NoDup (dict_keys (dict_set k v d)).
Proof.
  intro H. rewrite dict_keys_set_list.
  destruct (mem_string k (dict_keys d)) eqn:E; [exact H|].
  apply mem_string_false in E.
  apply NoDup_app; [exact H | repeat constructor; intros [] | ].
  intros x Hx [<-|[]]. auto.
Qed.

(** X14.  Registration keeps the patterns of the route map distinct and in the
    order of their first registration: a pattern that is new goes last,
    a pattern registered again stays where it is; the custom handlers
    and the WebSocket map are not touched. *)
Theorem add_route_keeps_pattern_order
        (m : http_method) (f : function) (fragments : list string)
        (c p : option string) (app app' : CalmApp) :
  outcome_of (_add_route m f fragments c p app) = Ok app' ->
  dict_keys (_route_map app')
  = (if mem_string (_normalize_uri fragments) (dict_keys (_route_map app))
     then dict_keys (_route_map app)
     else (dict_keys (_route_map app) ++ [_normalize_uri fragments])%list)
  /\ (NoDup (dict_keys (_route_map app)) -> NoDup (dict_keys (_route_map app')))
  /\ _custom_handlers app' = _custom_handlers app
  /\ _ws_map app' = _ws_map app.
Proof.
  rewrite add_route_eq. unfold outcome_of. simpl.
  destruct (snd (HandlerDef__init__ (_normalize_uri fragments) f)) as [hd|];
    [|discriminate].
  intros [= <-]. simpl. split; [apply dict_keys_set_list|].
  split; [apply dict_set_NoDup | split; reflexivity].
Qed.

Lemma add_route_lookup
      (m : http_method) (f : function) (fragments : list string)
      (c p : option string) (app app' : CalmApp) :
  outcome_of (_add_route m f fragments c p app) = Ok app' ->
  exists hd,
    route_lookup app' (_normalize_uri fragments) m = Some hd
    /\ handler hd = f
    /\ (NoDup (dict_keys (_route_map app)) -> NoDup (dict_keys (_route_map app'))).
Proof.
  rewrite add_route_eq, HandlerDef__init__eq. unfold outcome_of. simpl.
  destruct (_extract_path_args (_normalize_uri fragments) f (params_of f));
    [|discriminate].
  intros [= <-]. eexists. unfold route_lookup. simpl.
  rewrite dict_get_set, String.eqb_refl, dict_get_set, String.eqb_refl.
  split; [reflexivity|]. split; [reflexivity|]. apply dict_set_NoDup.
Qed.

(** X15.  Registration and dispatch compose: after a handler is registered for
    a pattern and a verb, a request with that verb whose first matching
    route is that pattern is run by a MainHandler on the definition of
    that handler. *)
Theorem registered_route_is_dispatched
        (m : http_method) (f : function) (fragments : list string)
        (c p : option string) (app app' : CalmApp) (w : World) (self : nat)
        (application : Application) (request : Request)
        (ip : handler_args) (kwargs : dict string) :
  NoDup (dict_keys (_route_map app)) ->
  outcome_of (_add_route m f fragments c p app) = Ok app' ->
  nth_error (instances w) self = Some app' ->
  parser_configured w ->
  make_app self w = Some application ->
  method request = verb_name m ->
  find_route (route_defs application) (path request)
  = Some (RouteMain (_normalize_uri fragments) ip, kwargs) ->
  exists hd d,
    route_lookup app' (_normalize_uri fragments) m = Some hd
    /\ handler hd = f
    /\ MainHandler__init__ MainHandlerClass ip = Ok d
    /\ klass d = MainHandlerClass
    /\ forall w',
        handle w' application request
        = Dispatched (trace_of (_handle_request d request (Some hd) kwargs))
            (snd (respond w' d (_handle_request d request (Some hd) kwargs))).
Proof.
  intros Hnd Hadd Hnth Hparser Hmake Hm Hfind.
  destruct (add_route_lookup m f fragments c p app app' Hadd)
    as [hd [Hlook [Hh Hnd']]].
  specialize (Hnd' Hnd).
  destruct (make_app_parser _ _ _ Hmake Hparser) as [pr Hpr].
  destruct (make_app_routes _ _ _ Hmake) as [app0 [Hnth0 [_ Hroutes]]].
  rewrite Hnth in Hnth0. injection Hnth0 as <-.
  destruct (find_route_In _ _ _ _ Hfind) as [Hin _].
  destruct (Hroutes _ _ Hin) as [Hmem [Hparg _]].
  assert (Hinit : exists d, MainHandler__init__ MainHandlerClass ip = Ok d).
  { unfold MainHandler__init__. rewrite Hparg, Hpr. eauto. }
  destruct Hinit as [d Hd].
  destruct (init_verb_handler _ _ _ m Hd) as [Hk [Hv _]].
  assert (Hmethods : dict_get (_normalize_uri fragments) (_route_map app')
                     = Some (arg_methods ip))
    by (apply dict_get_NoDup; assumption).
  assert (Hverb : verb_handler d m = Some hd).
  { rewrite Hv. unfold route_lookup in Hlook. rewrite Hmethods in Hlook. exact Hlook. }
  exists hd, d. split; [exact Hlook|]. split; [exact Hh|].
  split; [exact Hd|]. split; [exact Hk|].
  intro w'. unfold handle, serve, execute.
  rewrite Hfind, Hd, (verb_of_named _ _ _ m Hm), Hverb.
  reflexivity.
Qed.

End ApplicationFacts.

(** ** Custom handlers, WebSockets and the configuration *)

Section Collaborators.
Context {env : Env}.

Lemma find_route_main_none (routes : dict (dict HandlerDef)) (g : string * dict HandlerDef -> route_def)
      (p : string) :
  (forall um, route_uri (g um) = fst um) ->
  (forall u ms, In (u, ms) routes -> url_match u p = None) ->
  find_route (map g routes) p = None.
Proof.
  intros Hg H. apply find_route_None. intros r Hr.
  apply in_map_iff in Hr. destruct Hr as [[u ms] [<- Hin]].
  rewrite Hg. simpl. eauto.
Qed.

Lemma find_route_custom_none (customs : list (string * string)) (p : string) :
  (forall u k, In (u, k) customs -> url_match u p = None) ->
  find_route (map (fun uk => RouteCustom (fst uk) (snd uk)) customs) p = None.
Proof.
  intro H. apply find_route_None. intros r Hr.
  apply in_map_iff in Hr. destruct Hr as [[u k] [<- Hin]]. simpl. eauto.
Qed.

(** X16.  A custom handler class gets the requests whose path its compiled
    pattern matches, when no pattern of the route map and no custom
    handler added before it matches. *)
Theorem custom_handler_is_reached
        (app : CalmApp) (fragments : list string) (k : string)
        (w w' : World) (self : nat) (application : Application)
        (request : Request) (kwargs : dict string) :
  nth_error (instances w) self = Some (custom_handler fragments k app) ->
  make_app self w = Some application ->
  (forall u ms, In (u, ms) (_route_map app) -> url_match u (path request) = None) ->
  (forall u k', In (u, k') (_custom_handlers app) ->
                url_match u (path request) = None) ->
  url_match (_normalize_uri fragments) (path request) = Some kwargs ->
  handle w' application request = Delegated k.
Proof.
  intros Hnth Hmake Hmain Hcustom Hm. unfold make_app in Hmake.
  rewrite Hnth in Hmake. injection Hmake as <-.
  unfold handle. simpl route_defs. simpl _route_map. simpl _custom_handlers.
  rewrite find_route_app.
  rewrite find_route_main_none; [| intros [u ms]; reflexivity | exact Hmain].
  rewrite map_app, <- app_assoc, find_route_app.
  rewrite (find_route_custom_none _ _ Hcustom).
  simpl. rewrite Hm. reflexivity.
Qed.

Lemma find_route_websocket (d : dict string) (u n p : string) (kwargs : dict string) :
  url_match u p = Some kwargs ->
  (forall u' k, In (u', k) d -> u' <> u -> url_match u' p = None) ->
  find_route (map (fun uk => RouteWebSocket (fst uk) (snd uk)) (dict_set u n d)) p
  = Some (RouteWebSocket u n, kwargs).
Proof.
  intros Hm. induction d as [|[k0 v0] d IH]; intro H; simpl.
  - rewrite Hm. reflexivity.
  - destruct (String.eqb u k0) eqn:E; simpl.
    + rewrite Hm. reflexivity.
    + apply String.eqb_neq in E.
      rewrite (H k0 v0 (or_introl eq_refl)) by congruence.
      apply IH. intros u' k Hin. apply (H u' k). right. exact Hin.
Qed.

(** X17.  [websocket] accepts only a class that subclasses the WebSocket
    handler of Tornado, and the class it accepts gets the requests whose
    path its compiled pattern matches, when no pattern of the route map,
    no custom handler and no other WebSocket pattern matches. *)
Theorem websocket_is_reached
        (app app' : CalmApp) (fragments : list string) (klass : pyclass)
        (w w' : World) (self : nat) (application : Application)
        (request : Request) (kwargs : dict string) :
  websocket fragments klass app = Ok app' ->
  nth_error (instances w) self = Some app' ->
  make_app self w = Some application ->
  (forall u ms, In (u, ms) (_route_map app) -> url_match u (path request) = None) ->
  (forall u k, In (u, k) (_custom_handlers app) ->
               url_match u (path request) = None) ->
  (forall u k, In (u, k) (_ws_map app) -> u <> _normalize_uri fragments ->
               url_match u (path request) = None) ->
  url_match (_normalize_uri fragments) (path request) = Some kwargs ->
  is_type klass = true /\ is_websocket_handler klass = true
  /\ handle w' application request = Delegated (class_name klass).
Proof.
  intros Hws Hnth Hmake Hmain Hcustom Hother Hm. unfold websocket in Hws.
  destruct (is_type klass); [|discriminate].
  destruct (is_websocket_handler klass); [|discriminate].
  simpl in Hws. injection Hws as <-.
  split; [reflexivity|]. split; [reflexivity|].
  unfold make_app in Hmake. rewrite Hnth in Hmake. injection Hmake as <-.
  unfold handle. simpl route_defs. simpl _route_map. simpl _custom_handlers.
  simpl _ws_map.
  rewrite find_route_app.
  rewrite find_route_main_none; [| intros [u ms]; reflexivity | exact Hmain].
  rewrite find_route_app, (find_route_custom_none _ _ Hcustom).
  rewrite (find_route_websocket _ _ _ _ _ Hm Hother). reflexivity.
Qed.

(** A rejected [websocket] raises a [DefinitionError]. *)
Lemma websocket_rejects (fragments : list string) (klass : pyclass) (app : CalmApp) :
  is_type klass = false \/ is_websocket_handler klass = false ->
  exists msg, websocket fragments klass app = Raise (DefinitionError msg).
Proof.
  unfold websocket. intros [H|H].
  - rewrite H. simpl. eauto.
  - destruct (is_type klass); simpl; [rewrite H; simpl|]; eauto.
Qed.

Lemma dict_update_app {V} (d k1 k2 : dict V) :
  dict_update (dict_update d k1) k2 = dict_update d (k1 ++ k2)%list.
Proof. unfold dict_update. rewrite fold_left_app. reflexivity. Qed.

Lemma configured_config (calls : list (nat * dict config_value)) (w : World) :
  CalmApp_config (configured calls w)
  = dict_update (CalmApp_config w) (List.concat (map snd calls))
  /\ instances (configured calls w) = instances w.
Proof.
  unfold configured. revert w.
  induction calls as [|[a kw] calls IH]; intro w; simpl; [auto|].
  destruct (IH (configure a kw w)) as [-> ->].
  unfold configure, self_config. simpl. rewrite dict_update_app. auto.
Qed.

(** X18.  Calls of [configure] add up and take nothing away: the configuration
    after a sequence of calls is the configuration updated with all the
    keyword arguments in turn, every key present before is present
    after, and so, from the default configuration on, the error key and
    the argument parser are always there: [write_error] never meets a
    missing error key and [make_app] never falls back on its default
    parser. *)
Theorem configure_never_removes (calls : list (nat * dict config_value)) (w : World) :
  CalmApp_config (configured calls w)
  = dict_update (CalmApp_config w) (List.concat (map snd calls))
  /\ instances (configured calls w) = instances w
  /\ (forall key, dict_get key (CalmApp_config w) <> None ->
                  dict_get key (CalmApp_config (configured calls w)) <> None)
  /\ dict_get "error_key" (CalmApp_config (configured calls initial_world)) <> None
  /\ dict_get "argument_parser" (CalmApp_config (configured calls initial_world))
     <> None.
Proof.
  assert (Hkeep : forall w0 key,
             dict_get key (CalmApp_config w0) <> None ->
             dict_get key (CalmApp_config (configured calls w0)) <> None).
  { intros w0 key H. rewrite (proj1 (configured_config calls w0)), dict_get_update.
    destruct (dict_get key (rev (List.concat (map snd calls)))); [discriminate | exact H]. }
  destruct (configured_config calls w) as [H1 H2].
  split; [exact H1|]. split; [exact H2|]. split; [apply Hkeep|].
  split; apply Hkeep; discriminate.
Qed.

(** *** Paths of no route and verbs without a handler *)







End Collaborators.

(** ** Serialization of the result *)

Lemma json_dumps_list_fails (l : list pyvalue) (x : pyvalue) :
  In x l -> json_dumps x = None -> json_dumps (VList l) = None.
Proof.
  intros Hin Hx. simpl.
  match goal with
  | |- option_map JArr (?items l) = None => set (go := items)
  end.
  assert (E : go l = None).
  { induction l as [|y l IH]; [destruct Hin|].
    simpl. destruct Hin as [->|Hin].
    - rewrite Hx. reflexivity.
    - rewrite (IH Hin). destruct (json_dumps y); reflexivity. }
  rewrite E. reflexivity.
Qed.

(** X19.  The method [__json__] counts for the value the handler returns and
    not inside it: an object with a serializable [__json__()] is answered
    with that document, and a list that holds an object is not
    serializable, whether the object has the method or not. *)
Theorem json_method_only_at_top_level
        (n : string) (view : pyvalue) (d : json)
        (l : list pyvalue) (jm : option pyvalue) :
  (json_dumps view = Some d -> _write_response (VObject n (Some view)) = Ok d)
  /\ (In (VObject n jm) l ->
      _write_response (VList l)
      = Raise (ServerError "Could not serialize 'list' to JSON")).
Proof.
  split.
  - intro H. unfold _write_response. simpl json_result. rewrite H. reflexivity.
  - intro H. unfold _write_response.
    change (json_result (VList l)) with (VList l).
    rewrite (json_dumps_list_fails l (VObject n jm) H eq_refl). reflexivity.
Qed.

(** ** Scenarios, on the example application *)

(** [GET /users/42?active=false]: the path argument is passed as it is,
    the query argument is coerced, the handler is called and its result
    is sent with status 200. *)
Example scenario_coerced_query_argument :
  handle example_world example_application
    (example_request GET "/users/42" [("active", "false")] [])
  = Dispatched
      [EvIsCoroutineFunction "get_user"; EvWarning "get_user";
       EvCall "get_user" false [("id", VStr "42"); ("active", VBool false)]]
      (Ok {| status_code := 200;
             written := JObj [("id", JStr "42"); ("active", JBool false)] |}).
Proof. reflexivity. Qed.

(** [GET /users/42]: the optional argument is left out of the call and
    the handler sees its default. *)
Example scenario_default_used :
  handle example_world example_application (example_request GET "/users/42" [] [])
  = Dispatched
      [EvIsCoroutineFunction "get_user"; EvWarning "get_user";
       EvCall "get_user" false [("id", VStr "42")]]
      (Ok {| status_code := 200;
             written := JObj [("id", JStr "42"); ("active", JBool true)] |}).
Proof. reflexivity. Qed.

(** [GET /users/42?active=notabool]: status 400, no call. *)
Example scenario_bad_boolean :
  handle example_world example_application
    (example_request GET "/users/42" [("active", "notabool")] [])
  = Dispatched []
      (Ok {| status_code := 400;
             written := JObj [("error", JStr "Bad value 'notabool'")] |}).
Proof. reflexivity. Qed.

(** [GET /find] without its required argument: status 400, no call. *)
Example scenario_missing_required :
  handle example_world example_application (example_request GET "/find" [] [])
  = Dispatched []
      (Ok {| status_code := 400;
             written := JObj [("error", JStr "Missing required query argument 'q'")] |}).
Proof. reflexivity. Qed.

(** A path of no route, and a route asked with a verb it has no handler
    for. *)
Example scenario_unregistered_path :
  handle example_world example_application (example_request POST "/nowhere" [] [])
  = Dispatched []
      (Ok {| status_code := 404; written := JObj [("error", JStr "Not Found")] |}).
Proof. reflexivity. Qed.

Example scenario_unregistered_verb :
  handle example_world example_application
    (example_request DELETE "/users/42" [] [])
  = Dispatched []
      (Ok {| status_code := 405;
             written := JObj [("error", JStr "Method Not Allowed")] |}).
Proof. reflexivity. Qed.

(** [POST /items] with the body [17]: the handler sees the parsed body. *)
Example scenario_parsed_body :
  handle example_world example_application
    (example_request POST "/items" [] [x31; x37])
  = Dispatched
      [EvIsCoroutineFunction "post_item"; EvWarning "post_item";
       EvCall "post_item" false []]
      (Ok {| status_code := 200; written := JInt 17 |}).
Proof. reflexivity. Qed.

(** * Instances

    Each theorem above that has hypotheses, applied to the example
    application. *)

Ltac distinct_names :=
  repeat (apply NoDup_cons; [simpl; intuition discriminate|]); apply NoDup_nil.

(** The registration of [get_user] under [/users/:id]. *)
Lemma registration_fails_iff_bad_path_argument_witness :
  distinct_parameters get_user
  /\ re_groupindex (_normalize_uri ["/users/:id"]) = Some ["id"]
  /\ ((exists msg,
          outcome_of (_add_route GET get_user ["/users/:id"] None None CalmApp__init__)
          = Raise (DefinitionError msg))
      <-> (exists x, In x ["id"]
                     /\ (lacks_parameter get_user x \/ optional_parameter get_user x))).
Proof.
  assert (H1 : distinct_parameters get_user) by (unfold distinct_parameters; simpl; distinct_names).
  assert (H2 : re_groupindex (_normalize_uri ["/users/:id"]) = Some ["id"])
    by reflexivity.
  split; [exact H1|]. split; [exact H2|].
  exact (proj1 (registration_fails_iff_bad_path_argument
                  GET get_user ["/users/:id"] None None CalmApp__init__ ["id"] H1 H2)).
Defined.

(** A request to [find], whose result has no serialization. *)
Lemma unserializable_result_500_witness :
  klass example_dispatcher = MainHandlerClass
  /\ error_key (CalmApp_config example_world) = Ok "error"
  /\ _get_query_args (example_request GET "/find" [("q", "7")] []) find_def
     = Ok [("q", "7")]
  /\ _cast_args example_dispatcher (handler find_def) (dict_update [] [("q", "7")])
     = Ok [("q", VInt 7)]
  /\ _parse_and_update_body (example_request GET "/find" [("q", "7")] [])
     = Ok (example_request GET "/find" [("q", "7")] [])
  /\ call (handler find_def) (example_request GET "/find" [("q", "7")] [])
       [("q", VInt 7)]
     = Ok (VObject "Cursor" None)
  /\ json_dumps (json_result (VObject "Cursor" None)) = None
  /\ respond example_world example_dispatcher
       (_handle_request example_dispatcher
          (example_request GET "/find" [("q", "7")] []) (Some find_def) [])
     = (invocation (handler find_def) [("q", VInt 7)],
        Ok {| status_code := 500;
              written := JObj [("error", JStr server_error_message)] |}).
Proof.
  repeat (split; [reflexivity|]).
  exact (proj2 (unserializable_result_500
                  example_world example_dispatcher
                  (example_request GET "/find" [("q", "7")] [])
                  (example_request GET "/find" [("q", "7")] [])
                  find_def [] [("q", "7")] [("q", VInt 7)]
                  (VObject "Cursor" None) "error"
                  eq_refl eq_refl eq_refl eq_refl eq_refl eq_refl eq_refl)).
Defined.

(** Two requests to [get_user]: [active=false], which the parser reads
    as a boolean while [id], not annotated, stays a string; and
    [active=notabool], which the parser refuses. *)
Lemma declared_type_is_coerced_witness :
  klass example_dispatcher = MainHandlerClass
  /\ error_key (CalmApp_config example_world) = Ok "error"
  /\ _get_query_args
       (example_request GET "/users/42" [("active", "false")] []) get_user_def
     = Ok [("active", "false")]
  /\ (exists args,
         _cast_args example_dispatcher (handler get_user_def)
           (dict_update [("id", "42")] [("active", "false")]) = Ok args
         /\ In ("id", VStr "42") args)
  /\ _get_query_args
       (example_request GET "/users/42" [("active", "notabool")] []) get_user_def
     = Ok [("active", "notabool")]
  /\ declared_type (__annotations__ (handler get_user_def)) "active" = Some TBool
  /\ coerce TBool "notabool" = None
  /\ exists m,
      respond example_world example_dispatcher
        (_handle_request example_dispatcher
           (example_request GET "/users/42" [("active", "notabool")] [])
           (Some get_user_def) [("id", "42")])
      = ([], Ok {| status_code := 400;
                   written := JObj [("error", JStr (exn_message (BadRequestError m)))] |}).
Proof.
  assert (H1 : klass example_dispatcher = MainHandlerClass) by reflexivity.
  assert (H2 : error_key (CalmApp_config example_world) = Ok "error") by reflexivity.
  assert (H3 : _get_query_args
                 (example_request GET "/users/42" [("active", "false")] [])
                 get_user_def = Ok [("active", "false")]) by reflexivity.
  assert (H3' : _get_query_args
                  (example_request GET "/users/42" [("active", "notabool")] [])
                  get_user_def = Ok [("active", "notabool")]) by reflexivity.
  assert (H4 : declared_type (__annotations__ (handler get_user_def)) "active"
               = Some TBool) by reflexivity.
  assert (H5 : coerce TBool "notabool" = None) by reflexivity.
  split; [exact H1|]. split; [exact H2|]. split; [exact H3|].
  split.
  { destruct (proj1 (declared_type_is_coerced
                       example_world example_dispatcher
                       (example_request GET "/users/42" [("active", "false")] [])
                       get_user_def [("id", "42")] [("active", "false")] "error"
                       H1 H2 H3))
      as [args [Hargs [_ Hraw]]].
    - intros arg raw t [[= <- <-]|[[= <- <-]|[]]] Ht.
      + vm_compute in Ht. discriminate.
      + vm_compute in Ht. injection Ht as <-. exists (VBool false). reflexivity.
    - exists args. split; [exact Hargs|].
      apply Hraw; [left; reflexivity | exact I]. }
  split; [exact H3'|]. split; [exact H4|]. split; [exact H5|].
  destruct (proj2 (proj2 (declared_type_is_coerced
                            example_world example_dispatcher
                            (example_request GET "/users/42" [("active", "notabool")] [])
                            get_user_def [("id", "42")] [("active", "notabool")] "error"
                            H1 H2 H3'))
                  coerce "active" "notabool" TBool eq_refl
                  (or_intror (or_introl eq_refl)) H4 H5)
    as [m [_ Hm]].
  exists m. exact Hm.
Defined.

(** The registration of [get_user] and a request to it. *)
Lemma calling_convention_inspected_per_request_witness :
  klass example_dispatcher = MainHandlerClass
  /\ count_inspections
       (trace_of (_add_route GET get_user ["/users/:id"] None None CalmApp__init__))
     = 0
  /\ count_inspections
       (trace_of (_handle_request example_dispatcher
                    (example_request GET "/users/42" [] [])
                    (Some get_user_def) [("id", "42")]))
     = count_calls
         (trace_of (_handle_request example_dispatcher
                      (example_request GET "/users/42" [] [])
                      (Some get_user_def) [("id", "42")])).
Proof.
  split; [reflexivity|].
  pose proof (calling_convention_inspected_per_request
                GET get_user ["/users/:id"] None None CalmApp__init__
                example_dispatcher (example_request GET "/users/42" [] [])
                get_user_def [("id", "42")] true eq_refl) as [H1 [H2 _]].
  split; [exact H1 | exact H2].
Defined.

(** [get_user2] registered over [get_user]. *)
Lemma redefinition_replaces_witness :
  outcome_of (_add_route GET get_user ["/users/:id"] None None CalmApp__init__)
  = Ok example_app1
  /\ outcome_of (HandlerDef__init__ (_normalize_uri ["/users/:id"]) get_user2)
     = Ok get_user2_def
  /\ exists app2,
      _add_route GET get_user2 ["/users/:id"] None None example_app1
      = ([EvSignature "get_user2"], Ok app2)
      /\ route_lookup app2 (_normalize_uri ["/users/:id"]) GET
         = Some (set_resources get_user2_def None None).
Proof.
  assert (Ha : outcome_of (_add_route GET get_user ["/users/:id"] None None
                              CalmApp__init__) = Ok example_app1) by reflexivity.
  assert (Hb : outcome_of (HandlerDef__init__ (_normalize_uri ["/users/:id"]) get_user2)
               = Ok get_user2_def) by reflexivity.
  split; [exact Ha|]. split; [exact Hb|].
  destruct (redefinition_replaces GET get_user get_user2 ["/users/:id"]
              None None None None CalmApp__init__ example_app1 get_user2_def
              Ha Hb) as [app2 [H1 [H2 _]]].
  exists app2. split; [exact H1 | exact H2].
Defined.

(** The error key set through one instance and read through another. *)
Lemma configure_is_shared_witness :
  NoDup (dict_keys [("error_key", CfgStr "problem")])
  /\ dict_get "error_key"
       (self_config 1 (configure 0 [("error_key", CfgStr "problem")] example_world))
     = Some (CfgStr "problem").
Proof.
  assert (H : NoDup (dict_keys [("error_key", CfgStr "problem")]))
    by (simpl; distinct_names).
  split; [exact H|].
  exact (proj1 (proj2 (proj2 (proj2
           (configure_is_shared example_world 0 1
              [("error_key", CfgStr "problem")] H))))
           "error_key" (CfgStr "problem") (or_introl eq_refl)).
Defined.

(** A request to [find] that omits [q], which is required, and a request
    to [get_user] that omits [active], which has a default. *)
Lemma query_argument_required_iff_no_default_witness :
  distinct_signature find
  /\ extracted (_normalize_uri ["/find"]) find find_def
  /\ klass example_dispatcher = MainHandlerClass
  /\ error_key (CalmApp_config example_world) = Ok "error"
  /\ omits (example_request GET "/find" [] []) "q"
  /\ (exists q,
         respond example_world example_dispatcher
           (_handle_request example_dispatcher (example_request GET "/find" [] [])
              (Some find_def) [])
         = ([], Ok {| status_code := 400;
                      written :=
                        JObj [("error", JStr ("Missing required query argument '"
                                              ++ q ++ "'"))] |}))
  /\ distinct_signature get_user
  /\ extracted (_normalize_uri ["/users/:id"]) get_user get_user_def
  /\ omits (example_request GET "/users/42" [] []) "active"
  /\ takes_keywords get_user = true
  /\ exists qa,
      _get_query_args (example_request GET "/users/42" [] []) get_user_def = Ok qa
      /\ exists bound,
          dict_get "active" bound = Some (VBool true)
          /\ _handle_request example_dispatcher
               (example_request GET "/users/42" [] []) (Some get_user_def)
               [("id", "42")]
             = (invocation get_user [("id", VStr "42")],
                match code get_user (example_request GET "/users/42" [] []) bound with
                | Ok v => _write_response v
                | Raise e => Raise e
                end).
Proof.
  assert (F1 : distinct_signature find)
    by (unfold distinct_signature; simpl; distinct_names).
  assert (F2 : extracted (_normalize_uri ["/find"]) find find_def).
  { exists find_def, None, None. split; reflexivity. }
  assert (F5 : omits (example_request GET "/find" [] []) "q") by reflexivity.
  assert (H1 : distinct_signature get_user)
    by (unfold distinct_signature; simpl; distinct_names).
  assert (H2 : extracted (_normalize_uri ["/users/:id"]) get_user get_user_def).
  { exists get_user_def, None, None. split; reflexivity. }
  assert (H3 : klass example_dispatcher = MainHandlerClass) by reflexivity.
  assert (H4 : error_key (CalmApp_config example_world) = Ok "error") by reflexivity.
  assert (H5 : omits (example_request GET "/users/42" [] []) "active") by reflexivity.
  assert (H6 : takes_keywords get_user = true) by reflexivity.
  split; [exact F1|]. split; [exact F2|]. split; [exact H3|]. split; [exact H4|].
  split; [exact F5|].
  split.
  { destruct (proj1 (proj2 (proj2
               (query_argument_required_iff_no_default
                  (_normalize_uri ["/find"]) find find_def example_world
                  example_dispatcher (example_request GET "/find" [] [])
                  [] "error" F1 F2 H3 H4)))
               []
               {| name := "q"; kind := POSITIONAL_OR_KEYWORD; default := None;
                  annotation := Some TInt |}
               [] eq_refl (fun H : In "q" [] => H) eq_refl F5
               (fun p' (H : In p' []) => match H with end))
      as [q [_ Hq]].
    exists q. exact Hq. }
  split; [exact H1|]. split; [exact H2|]. split; [exact H5|]. split; [exact H6|].
  destruct (proj2 (proj2 (proj2
             (query_argument_required_iff_no_default
                (_normalize_uri ["/users/:id"]) get_user get_user_def example_world
                example_dispatcher (example_request GET "/users/42" [] [])
                [("id", "42")] "error" H1 H2 H3 H4)))
             {| name := "active"; kind := POSITIONAL_OR_KEYWORD;
                default := Some (VBool true); annotation := Some TBool |}
             (VBool true))
    as [qa [Hqa [_ Hrun]]].
  - simpl. auto.
  - simpl. intuition discriminate.
  - reflexivity.
  - exact H5.
  - intro x. simpl. tauto.
  - intros p' [<-|[<-|[]]] Hn.
    + exfalso. apply Hn. simpl. auto.
    + right. split; reflexivity.
  - exact H6.
  - exists qa. split; [exact Hqa|].
    assert (Eqa : qa = []).
    { vm_compute in Hqa. injection Hqa as <-. reflexivity. }
    subst qa.
    destruct (Hrun [("id", VStr "42")] (example_request GET "/users/42" [] [])
                eq_refl eq_refl) as [bound [_ [Hb [_ [Hr _]]]]].
    exists bound. split; [exact Hb | exact Hr].
Defined.

(** Two placeholders, neither a prefix of the other. *)
Lemma normalize_uri_prefix_free_witness :
  prefix_free (URI_REGEX_findall (template ["/users/:id/posts/:name"]))
  /\ _normalize_uri ["/users/:id/posts/:name"]
     = compile_template ["/users/:id/posts/:name"].
Proof.
  assert (H : prefix_free (URI_REGEX_findall (template ["/users/:id/posts/:name"]))).
  { intros n m Hn Hm Hp. vm_compute in Hn, Hm.
    destruct Hn as [<-|[<-|[]]]; destruct Hm as [<-|[<-|[]]];
      try reflexivity; vm_compute in Hp; discriminate. }
  split; [exact H|].
  exact (normalize_uri_prefix_free ["/users/:id/posts/:name"] H).
Defined.

(** The contract of [get_user]. *)
Lemma contract_partitions_parameters_witness :
  distinct_parameters get_user
  /\ extracted (_normalize_uri ["/users/:id"]) get_user get_user_def
  /\ dict_keys (query_args get_user_def)
     = filter (fun x => negb (mem_string x (path_args get_user_def)))
         (map name (tl (parameters get_user))).
Proof.
  assert (H1 : distinct_parameters get_user)
    by (unfold distinct_parameters; simpl; distinct_names).
  assert (H2 : extracted (_normalize_uri ["/users/:id"]) get_user get_user_def).
  { exists get_user_def, None, None. split; reflexivity. }
  split; [exact H1|]. split; [exact H2|].
  exact (proj2 (proj2 (proj2
           (contract_partitions_parameters
              (_normalize_uri ["/users/:id"]) get_user get_user_def H1 H2)))).
Defined.

(** The call of [get_user] for [GET /users/42?active=false], and the call
    of [tail] for [GET /tail?args=1]. *)
Lemma dispatch_call_is_well_formed_witness :
  distinct_signature get_user
  /\ extracted (_normalize_uri ["/users/:id"]) get_user get_user_def
  /\ (forall x, In x (dict_keys [("id", "42")]) <-> In x (path_args get_user_def))
  /\ _get_query_args (example_request GET "/users/42" [("active", "false")] [])
       get_user_def = Ok [("active", "false")]
  /\ _cast_args example_dispatcher get_user
       (dict_update [("id", "42")] [("active", "false")])
     = Ok [("id", VStr "42"); ("active", VBool false)]
  /\ takes_keywords get_user = true
  /\ (exists bound,
         dict_keys bound = map name (tl (parameters get_user))
         /\ forall request',
             call get_user request' [("id", VStr "42"); ("active", VBool false)]
             = code get_user request' bound)
  /\ distinct_signature tail
  /\ extracted (_normalize_uri ["/tail"]) tail tail_def
  /\ _get_query_args (example_request GET "/tail" [("args", "1")] []) tail_def
     = Ok [("args", "1")]
  /\ _cast_args example_dispatcher tail (dict_update [] [("args", "1")])
     = Ok [("args", VStr "1")]
  /\ forall request',
      call tail request' [("args", VStr "1")] = Raise (TypeError (__name__ tail)).
Proof.
  assert (H1 : distinct_signature get_user)
    by (unfold distinct_signature; simpl; distinct_names).
  assert (H2 : extracted (_normalize_uri ["/users/:id"]) get_user get_user_def).
  { exists get_user_def, None, None. split; reflexivity. }
  assert (H4 : forall x, In x (dict_keys [("id", "42")])
                         <-> In x (path_args get_user_def))
    by (intro x; simpl; tauto).
  assert (H5 : _get_query_args
                 (example_request GET "/users/42" [("active", "false")] [])
                 get_user_def = Ok [("active", "false")]) by reflexivity.
  assert (H6 : _cast_args example_dispatcher get_user
                 (dict_update [("id", "42")] [("active", "false")])
               = Ok [("id", VStr "42"); ("active", VBool false)]) by reflexivity.
  assert (H7 : takes_keywords get_user = true) by reflexivity.
  assert (T1 : distinct_signature tail)
    by (unfold distinct_signature; simpl; distinct_names).
  assert (T2 : extracted (_normalize_uri ["/tail"]) tail tail_def).
  { exists tail_def, None, None. split; reflexivity. }
  assert (T4 : forall x, In x (dict_keys (@nil (string * string)))
                         <-> In x (path_args tail_def))
    by (intro x; simpl; tauto).
  assert (T5 : _get_query_args (example_request GET "/tail" [("args", "1")] [])
                 tail_def = Ok [("args", "1")]) by reflexivity.
  assert (T6 : _cast_args example_dispatcher tail (dict_update [] [("args", "1")])
               = Ok [("args", VStr "1")]) by reflexivity.
  repeat (split; [assumption|]).
  split.
  { destruct (proj1 (dispatch_call_is_well_formed
                       (_normalize_uri ["/users/:id"]) get_user get_user_def
                       example_dispatcher
                       (example_request GET "/users/42" [("active", "false")] [])
                       [("id", "42")] [("active", "false")]
                       [("id", VStr "42"); ("active", VBool false)]
                       H1 H2 H4 H5 H6) H7) as [bound [_ [Hk [_ Hcall]]]].
    exists bound. split; [exact Hk | exact Hcall]. }
  repeat (split; [assumption|]).
  exact (proj2 (dispatch_call_is_well_formed
                  (_normalize_uri ["/tail"]) tail tail_def example_dispatcher
                  (example_request GET "/tail" [("args", "1")] [])
                  [] [("args", "1")] [("args", VStr "1")] T1 T2 T4 T5 T6)
           {| name := "args"; kind := VAR_POSITIONAL; default := None;
              annotation := None |}
           (or_introl eq_refl) eq_refl eq_refl eq_refl).
Defined.

(** [ping], registered under [/ping]. *)
Lemma handler_without_parameters_witness :
  parameters ping = []
  /\ re_groupindex (_normalize_uri ["/ping"]) = Some []
  /\ exists hd,
      outcome_of (HandlerDef__init__ (_normalize_uri ["/ping"]) ping) = Ok hd
      /\ path_args hd = [] /\ query_args hd = [].
Proof.
  assert (H1 : parameters ping = []) by reflexivity.
  assert (H2 : re_groupindex (_normalize_uri ["/ping"]) = Some []) by reflexivity.
  split; [exact H1|]. split; [exact H2|].
  destruct (handler_without_parameters (_normalize_uri ["/ping"]) ping H1 H2)
    as [hd [Ha [Hb [Hc _]]]].
  exists hd. auto.
Defined.

(** [GET /find] without [q]. *)
Lemma get_query_args_first_offender_witness :
  _get_query_args (example_request GET "/find" [] []) find_def
  = Raise (BadRequestError "Missing required query argument 'q'")
  /\ exists before q r after,
      query_args find_def = (before ++ (q, r) :: after)%list
      /\ ~ passes (example_request GET "/find" [] []) (q, r).
Proof.
  assert (H : _get_query_args (example_request GET "/find" [] []) find_def
              = Raise (BadRequestError "Missing required query argument 'q'"))
    by reflexivity.
  split; [exact H|].
  destruct (proj1 (get_query_args_first_offender _ _ _) H)
    as [before [q [r [after [E [_ Hcase]]]]]].
  exists before, q, r, after. split; [exact E|].
  assert (Hq : get_query_argument (example_request GET "/find" [] []) q
               = Raise (MissingArgumentError q) /\ r = true).
  { destruct Hcase as [[Ho [Hr _]]|[Hg He]]; [|discriminate].
    split; [apply omits_missing; exact Ho | exact Hr]. }
  destruct Hq as [Hq Hr].
  intros [Hg|[_ Hr']]; simpl in *; [|congruence].
  destruct (gives_value _ _ Hg) as [v Hv]. congruence.
Defined.

(** [teapot], which raises a client error with status 418. *)
Lemma handler_exception_classified_witness :
  klass example_dispatcher = MainHandlerClass
  /\ error_key (CalmApp_config example_world) = Ok "error"
  /\ _get_query_args (example_request GET "/teapot" [] []) teapot_def = Ok []
  /\ _cast_args example_dispatcher (handler teapot_def) (dict_update [] []) = Ok []
  /\ _parse_and_update_body (example_request GET "/teapot" [] [])
     = Ok (example_request GET "/teapot" [] [])
  /\ call (handler teapot_def) (example_request GET "/teapot" [] []) []
     = Raise (ClientError 418 "I am a teapot")
  /\ respond example_world example_dispatcher
       (_handle_request example_dispatcher
          (example_request GET "/teapot" [] []) (Some teapot_def) [])
     = (invocation teapot [],
        Ok {| status_code := 418;
              written := JObj [("error", JStr "I am a teapot")] |}).
Proof.
  repeat (split; [reflexivity|]).
  exact (handler_exception_classified
           example_world example_dispatcher
           (example_request GET "/teapot" [] []) (example_request GET "/teapot" [] [])
           teapot_def [] [] [] (ClientError 418 "I am a teapot") "error"
           eq_refl eq_refl eq_refl eq_refl eq_refl eq_refl).
Defined.

(** A run that raised [NotFoundError]. *)
Lemma response_is_result_or_envelope_witness :
  error_key (CalmApp_config example_world) = Ok "error"
  /\ exists r,
      snd (respond example_world example_dispatcher ([], Raise NotFoundError)) = Ok r
      /\ status_code r <> 200%Z.
Proof.
  assert (H : error_key (CalmApp_config example_world) = Ok "error") by reflexivity.
  split; [exact H|].
  destruct (response_is_result_or_envelope
              example_world example_dispatcher ([], Raise NotFoundError) "error" H)
    as [r [Hr Hcase]].
  exists r. split; [exact Hr|].
  vm_compute in Hr. injection Hr as <-. vm_compute. discriminate.
Defined.

(** A request to [get_user]. *)
Lemma handler_called_at_most_once_witness :
  klass example_dispatcher = MainHandlerClass
  /\ count_calls
       (trace_of (_handle_request example_dispatcher
                    (example_request GET "/users/42" [] [])
                    (Some get_user_def) [("id", "42")])) <= 1.
Proof.
  split; [reflexivity|].
  exact (proj1 (handler_called_at_most_once
                  example_dispatcher (example_request GET "/users/42" [] [])
                  get_user_def [("id", "42")] eq_refl)).
Defined.

(** A parser that refuses everything, configured after [make_app]. *)
Lemma configure_after_make_app_witness :
  ~ In "error_key"
      (dict_keys [("argument_parser",
                   CfgParser (fun _ _ => Raise (BadRequestError "no")))])
  /\ handle
       (configure 0
          [("argument_parser", CfgParser (fun _ _ => Raise (BadRequestError "no")))]
          example_world)
       example_application
       (example_request GET "/users/42" [("active", "false")] [])
     = handle example_world example_application
         (example_request GET "/users/42" [("active", "false")] []).
Proof.
  assert (H : ~ In "error_key"
                (dict_keys [("argument_parser",
                             CfgParser (fun _ _ => Raise (BadRequestError "no")))]))
    by (simpl; intuition discriminate).
  split; [exact H|].
  exact (configure_after_make_app example_world 0 _ example_application
           (example_request GET "/users/42" [("active", "false")] []) H).
Defined.

(** The route [/users/:id] in the application that also has a custom
    handler and a WebSocket handler. *)
Lemma decorated_routes_take_precedence_witness :
  nth_error (instances example_world2) 0 = Some example_app2
  /\ make_app 0 example_world2 = Some example_application2
  /\ In (_normalize_uri ["/users/:id"], [("get", get_user_def)])
        (_route_map example_app2)
  /\ url_match (_normalize_uri ["/users/:id"])
       (path (example_request GET "/users/42" [] [])) <> None
  /\ exists u' kwargs init_params,
      find_route (route_defs example_application2)
        (path (example_request GET "/users/42" [] []))
      = Some (RouteMain u' init_params, kwargs)
      /\ handle example_world2 example_application2
           (example_request GET "/users/42" [] [])
         = serve MainHandlerClass init_params example_world2
             (example_request GET "/users/42" [] []) kwargs.
Proof.
  assert (H1 : nth_error (instances example_world2) 0 = Some example_app2)
    by reflexivity.
  assert (H2 : make_app 0 example_world2 = Some example_application2) by reflexivity.
  assert (H3 : In (_normalize_uri ["/users/:id"], [("get", get_user_def)])
                  (_route_map example_app2)) by (left; reflexivity).
  assert (H4 : url_match (_normalize_uri ["/users/:id"])
                 (path (example_request GET "/users/42" [] [])) <> None)
    by (vm_compute; discriminate).
  repeat (split; [assumption|]).
  destruct (decorated_routes_take_precedence
              example_world2 example_world2 0 example_app2 example_application2
              (example_request GET "/users/42" [] [])
              (_normalize_uri ["/users/:id"]) [("get", get_user_def)] H1 H2 H3 H4)
    as [before [u' [ms [after [kw [ip [_ [_ [_ [_ [_ [_ [Hf Hh]]]]]]]]]]]]].
  exists u', kw, ip. split; [exact Hf | exact Hh].
Defined.

(** The first registration of the example. *)
Lemma add_route_keeps_pattern_order_witness :
  outcome_of (_add_route GET get_user ["/users/:id"] None None CalmApp__init__)
  = Ok example_app1
  /\ dict_keys (_route_map example_app1) = [_normalize_uri ["/users/:id"]].
Proof.
  assert (H : outcome_of (_add_route GET get_user ["/users/:id"] None None
                            CalmApp__init__) = Ok example_app1) by reflexivity.
  split; [exact H|].
  exact (proj1 (add_route_keeps_pattern_order
                  GET get_user ["/users/:id"] None None CalmApp__init__
                  example_app1 H)).
Defined.

(** [get_user] registered, then [GET /users/42]. *)
Lemma registered_route_is_dispatched_witness :
  NoDup (dict_keys (_route_map CalmApp__init__))
  /\ outcome_of (_add_route GET get_user ["/users/:id"] None None CalmApp__init__)
     = Ok example_app1
  /\ nth_error (instances (world_of example_app1)) 0 = Some example_app1
  /\ parser_configured (world_of example_app1)
  /\ make_app 0 (world_of example_app1) = Some (built (world_of example_app1))
  /\ method (example_request GET "/users/42" [] []) = verb_name GET
  /\ find_route (route_defs (built (world_of example_app1)))
       (path (example_request GET "/users/42" [] []))
     = Some (RouteMain (_normalize_uri ["/users/:id"])
               {| arg_methods := [("get", get_user_def)];
                  arg_argument_parser := CfgParser (ArgumentParser coerce);
                  arg_app := 0 |},
             [("id", "42")])
  /\ exists hd, route_lookup example_app1 (_normalize_uri ["/users/:id"]) GET = Some hd
                /\ handler hd = get_user.
Proof.
  assert (H1 : NoDup (dict_keys (_route_map CalmApp__init__))) by constructor.
  assert (H2 : outcome_of (_add_route GET get_user ["/users/:id"] None None
                             CalmApp__init__) = Ok example_app1) by reflexivity.
  assert (H3 : nth_error (instances (world_of example_app1)) 0 = Some example_app1)
    by reflexivity.
  assert (H4 : parser_configured (world_of example_app1))
    by (intros s H; vm_compute in H; discriminate).
  assert (H5 : make_app 0 (world_of example_app1)
               = Some (built (world_of example_app1))) by reflexivity.
  assert (H6 : method (example_request GET "/users/42" [] []) = verb_name GET)
    by reflexivity.
  assert (H7 : find_route (route_defs (built (world_of example_app1)))
                 (path (example_request GET "/users/42" [] []))
               = Some (RouteMain (_normalize_uri ["/users/:id"])
                         {| arg_methods := [("get", get_user_def)];
                            arg_argument_parser := CfgParser (ArgumentParser coerce);
                            arg_app := 0 |},
                       [("id", "42")])) by reflexivity.
  repeat (split; [assumption|]).
  destruct (registered_route_is_dispatched
              GET get_user ["/users/:id"] None None CalmApp__init__ example_app1
              (world_of example_app1) 0 (built (world_of example_app1))
              (example_request GET "/users/42" [] []) _ _
              H1 H2 H3 H4 H5 H6 H7) as [hd [d [Ha [Hb _]]]].
  exists hd. split; [exact Ha | exact Hb].
Defined.

(** A custom handler for [/static/:file], and [GET /static/logo]. *)
Lemma custom_handler_is_reached_witness :
  nth_error
    (instances (world_of (custom_handler ["/static/:file"] "Static" CalmApp__init__)))
    0
  = Some (custom_handler ["/static/:file"] "Static" CalmApp__init__)
  /\ make_app 0 (world_of (custom_handler ["/static/:file"] "Static" CalmApp__init__))
     = Some (built (world_of (custom_handler ["/static/:file"] "Static"
                                CalmApp__init__)))
  /\ url_match (_normalize_uri ["/static/:file"])
       (path (example_request GET "/static/logo" [] []))
     = Some [("file", "logo")]
  /\ handle example_world
       (built (world_of (custom_handler ["/static/:file"] "Static" CalmApp__init__)))
       (example_request GET "/static/logo" [] [])
     = Delegated "Static".
Proof.
  repeat (split; [reflexivity|]).
  exact (custom_handler_is_reached
           CalmApp__init__ ["/static/:file"] "Static"
           (world_of (custom_handler ["/static/:file"] "Static" CalmApp__init__))
           example_world 0 _ (example_request GET "/static/logo" [] [])
           [("file", "logo")] eq_refl eq_refl
           (fun u ms (H : In (u, ms) []) => match H with end)
           (fun u k (H : In (u, k) []) => match H with end)
           eq_refl).
Defined.

(** [EchoSocket] for [/echo], and [GET /echo]. *)
Lemma websocket_is_reached_witness :
  websocket ["/echo"] EchoSocket CalmApp__init__
  = Ok {| _route_map := []; _custom_handlers := [];
          _ws_map := [(_normalize_uri ["/echo"], "EchoSocket")] |}
  /\ url_match (_normalize_uri ["/echo"]) (path (example_request GET "/echo" [] []))
     = Some []
  /\ handle example_world
       (built (world_of {| _route_map := []; _custom_handlers := [];
                           _ws_map := [(_normalize_uri ["/echo"], "EchoSocket")] |}))
       (example_request GET "/echo" [] [])
     = Delegated "EchoSocket".
Proof.
  repeat (split; [reflexivity|]).
  exact (proj2 (proj2
           (websocket_is_reached
              CalmApp__init__ _ ["/echo"] EchoSocket
              (world_of {| _route_map := []; _custom_handlers := [];
                           _ws_map := [(_normalize_uri ["/echo"], "EchoSocket")] |})
              example_world 0 _ (example_request GET "/echo" [] []) []
              eq_refl eq_refl eq_refl
              (fun u ms (H : In (u, ms) []) => match H with end)
              (fun u k (H : In (u, k) []) => match H with end)
              (fun u k (H : In (u, k) []) _ => match H with end)
              eq_refl))).
Defined.


